(** * firewall_lib: the reconciliation engine of the firewall role

    A shallow embedding of [library/firewall_lib.py]: the rule-string
    parsers, the connection-manager fast path [try_set_zone_of_interface]
    and the reconciliation pass [main], followed by the properties of the
    specification that were checked against them. *)

From Stdlib Require Import Ascii.
From stdpp Require Import gmap strings list fin_maps.

Local Open Scope string_scope.
Local Open Scope list_scope.

(** ** Python values and control flow *)

(** [str.split(sep)] for a one-character separator: every occurrence of
    [sep] cuts the string, so the result always has one more element than
    there are separators (["".split("/") == [""]]). *)
Fixpoint split (sep : Ascii.ascii) (s : string) : list string :=
  match s with
  | EmptyString => [EmptyString]
  | String c s' =>
      if Ascii.eqb c sep then EmptyString :: split sep s'
      else match split sep s' with
           | [] => [String c EmptyString]
           | w :: ws => String c w :: ws
           end
  end.

(** [sep.join(l)] *)
Fixpoint join (sep : Ascii.ascii) (l : list string) : string :=
  match l with
  | [] => ""
  | [w] => w
  | w :: l' => w +:+ String sep (join sep l')
  end.

(** [sep not in s] *)
Fixpoint free_of (sep : Ascii.ascii) (s : string) : bool :=
  match s with
  | EmptyString => true
  | String c s' => negb (Ascii.eqb c sep) && free_of sep s'
  end.

(** Uncaught Python exceptions that the modelled code can meet. *)
Inductive pyexc : Type :=
| ValueError          (* tuple unpacking of a list of the wrong length *)
| ForeignError (what : string). (* raised inside the connection manager *)

(** How a piece of the module ends: it returns a value, the module leaves
    through [module.exit_json(changed=..)] or [module.fail_json(msg=..)],
    or a Python exception is propagating. *)
Inductive outcome (A : Type) : Type :=
| Ret (a : A)
| ExitJson (changed : bool)
| FailJson (msg : string)
| Raised (e : pyexc).
Arguments Ret {A} a.
Arguments ExitJson {A} changed.
Arguments FailJson {A} msg.
Arguments Raised {A} e.

(** [a, b = l] *)
Definition unpack2 (l : list string) : outcome (string * string) :=
  match l with
  | [a; b] => Ret (a, b)
  | _ => Raised ValueError
  end.

(** ** The RuleSet normalizer *)

(** Lines 242-246 of [main]: one element of [module.params["port"]].
    The components of a split are strings, never [None], so the guard
    [if _protocol is None] of the source never fires and no branch of
    this function ends in [fail_json]. *)
Definition parse_port (port_proto : string) : outcome (string * string) :=
  match unpack2 (split "/"%char port_proto) with
  | Ret (_port, _protocol) => Ret (_port, _protocol)
  | ExitJson c => ExitJson c
  | FailJson m => FailJson m
  | Raised e => Raised e
  end.

Definition forward_rule : Type :=
  string * string * string * option string * option string.

(** [if x == "": x = None] *)
Definition none_if_empty (x : string) : option string :=
  if decide (x = "") then None else Some x.

Definition parse_forward_port (item : string) (item_type : option string)
  : outcome forward_rule :=
  let type_string := "forward_port" in
  let args := split ";"%char item in
  let fields :=
    match args, item_type with
    | [_interface; __port; _to_port; _to_addr], _ =>
        Ret (_interface, __port, _to_port, _to_addr)
    | [__port; _to_port; _to_addr], None =>
        Ret ("", __port, _to_port, _to_addr)
    | _, _ =>
        FailJson ("improper " +:+ type_string +:+ " format: " +:+ item)
    end in
  match fields with
  | Ret (_interface, __port, _to_port, _to_addr) =>
      match unpack2 (split "/"%char __port) with
      | Ret (_port, _protocol) =>
          Ret (_interface, _port, _protocol,
               none_if_empty _to_port, none_if_empty _to_addr)
      | ExitJson c => ExitJson c
      | FailJson m => FailJson m
      | Raised e => Raised e
      end
  | ExitJson c => ExitJson c
  | FailJson m => FailJson m
  | Raised e => Raised e
  end.

(** The two loops of [main] that build [port] and [forward_port]: the first
    element that does not parse ends the module. *)
Fixpoint parse_all {A : Type} (f : string → outcome A) (l : list string)
  : outcome (list A) :=
  match l with
  | [] => Ret []
  | x :: l' =>
      match f x with
      | Ret a =>
          match parse_all f l' with
          | Ret r => Ret (a :: r)
          | ExitJson c => ExitJson c
          | FailJson m => FailJson m
          | Raised e => Raised e
          end
      | ExitJson c => ExitJson c
      | FailJson m => FailJson m
      | Raised e => Raised e
      end
  end.


(** ** The firewall daemon and the connection manager *)

(** What one zone holds in one layer. *)
Record settings : Type := Settings {
  services : gset string;
  ports : gset (string * string);
  interfaces : gset string;
  forward_ports : gset (string * string * option string * option string)
}.

(** One rule of one of the four kinds of the daemon's query/add/remove
    calls. *)
Inductive rule : Type :=
| Service (name : string)
| Port (port protocol : string)
| Interface (name : string)
| ForwardPort (port protocol : string) (to_port to_addr : option string).

Definition has (x : settings) (r : rule) : bool :=
  match r with
  | Service n => bool_decide (n ∈ services x)
  | Port p q => bool_decide ((p, q) ∈ ports x)
  | Interface i => bool_decide (i ∈ interfaces x)
  | ForwardPort p q tp ta => bool_decide ((p, q, tp, ta) ∈ forward_ports x)
  end.

Definition with_rule (x : settings) (r : rule) : settings :=
  match r with
  | Service n =>
      Settings ({[n]} ∪ services x) (ports x) (interfaces x) (forward_ports x)
  | Port p q =>
      Settings (services x) ({[(p, q)]} ∪ ports x) (interfaces x)
               (forward_ports x)
  | Interface i =>
      Settings (services x) (ports x) ({[i]} ∪ interfaces x) (forward_ports x)
  | ForwardPort p q tp ta =>
      Settings (services x) (ports x) (interfaces x)
               ({[(p, q, tp, ta)]} ∪ forward_ports x)
  end.

Definition without_rule (x : settings) (r : rule) : settings :=
  match r with
  | Service n =>
      Settings (services x ∖ {[n]}) (ports x) (interfaces x) (forward_ports x)
  | Port p q =>
      Settings (services x) (ports x ∖ {[(p, q)]}) (interfaces x)
               (forward_ports x)
  | Interface i =>
      Settings (services x) (ports x) (interfaces x ∖ {[i]}) (forward_ports x)
  | ForwardPort p q tp ta =>
      Settings (services x) (ports x) (interfaces x)
               (forward_ports x ∖ {[(p, q, tp, ta)]})
  end.

(** Modelled from the spec: the firewall-daemon client ([firewall.client],
    not part of the repository) is the capability of spec section 6. Its
    state is the two layers, each a map from zone name to what the zone
    holds; the runtime calls read the empty zone name as the default zone,
    and a call that names a zone the layer does not have is a daemon
    fault. *)
Record daemon : Type := Daemon {
  connected : bool;
  default_zone : string;
  runtime : gmap string settings;
  permanent : gmap string settings
}.

(** Modelled from the spec: the connection manager ([firewall.core.fw_nm],
    not part of the repository) is the optional capability of spec section
    6: "is the subsystem active", "get the connection object owning
    interface X" (which may fail), "set the zone attribute of a connection
    object" (which may fail). *)
Inductive nm_lookup : Type :=
| LookupFails (e : pyexc)
| NoConnection
| Connection (c : string).

Record netman : Type := Netman {
  nm_imported : bool;
  nm_connection_of : string → nm_lookup;
  nm_set_fails : string → string → option pyexc;
  nm_zone : gmap string string
}.

(** The calls that leave the module, in the order they are made. *)
Inductive call : Type :=
| GetDefaultZone
| GetZones
| GetZoneNames
| GetZoneByName (zone : string)
| GetSettings (zone : string)
| Query (zone : string) (r : rule)
| Add (zone : string) (r : rule)
| Remove (zone : string) (r : rule)
| ChangeZoneOfInterface (zone interface : string)
| GetZoneOfInterface (interface : string)
| Update (zone : string) (x : settings)
| NmIsImported
| NmGetConnectionOfInterface (interface : string)
| NmSetZoneOfConnection (zone connection : string).

(** The state of one invocation. [heap] holds the settings objects that
    [getSettings] has handed out; the module only ever works on references
    to them (their index), so two names for one object see each other's
    mutations. [changed_zones] is the dict of the source, in insertion
    order, from zone name to settings object. *)
Record state : Type := State {
  fw : daemon;
  nm : netman;
  heap : list settings;
  changed : bool;
  changed_zones : list (string * nat);
  calls : list call
}.

Definition set_fw (d : daemon) (s : state) : state :=
  State d (nm s) (heap s) (changed s) (changed_zones s) (calls s).
Definition set_nm (n : netman) (s : state) : state :=
  State (fw s) n (heap s) (changed s) (changed_zones s) (calls s).
Definition set_heap (h : list settings) (s : state) : state :=
  State (fw s) (nm s) h (changed s) (changed_zones s) (calls s).
Definition set_changed (b : bool) (s : state) : state :=
  State (fw s) (nm s) (heap s) b (changed_zones s) (calls s).
Definition set_changed_zones (z : list (string * nat)) (s : state) : state :=
  State (fw s) (nm s) (heap s) (changed s) z (calls s).
Definition add_call (c : call) (s : state) : state :=
  State (fw s) (nm s) (heap s) (changed s) (changed_zones s) (calls s ++ [c]).

Definition set_runtime (m : gmap string settings) (d : daemon) : daemon :=
  Daemon (connected d) (default_zone d) m (permanent d).
Definition set_permanent (m : gmap string settings) (d : daemon) : daemon :=
  Daemon (connected d) (default_zone d) (runtime d) m.

(** ** The monad of the module: state and the four ways to end *)

Definition M (A : Type) : Type := state → outcome A * state.

Definition ret {A : Type} (a : A) : M A := λ s, (Ret a, s).

Definition bind {A B : Type} (m : M A) (k : A → M B) : M B :=
  λ s, match m s with
       | (Ret a, s') => k a s'
       | (ExitJson c, s') => (ExitJson c, s')
       | (FailJson e, s') => (FailJson e, s')
       | (Raised e, s') => (Raised e, s')
       end.

Declare Scope py_scope.
Delimit Scope py_scope with py.
Notation "'let*' x := m 'in' k" := (bind m (λ x, k))
  (at level 10, x binder, m at level 100, k at level 200) : py_scope.
Notation "m ;; k" := (bind m (λ _, k))
  (at level 100, k at level 200, right associativity) : py_scope.
Local Open Scope py_scope.

Definition exit_json {A : Type} (c : bool) : M A := λ s, (ExitJson c, s).
Definition fail_json {A : Type} (msg : string) : M A := λ s, (FailJson msg, s).
Definition raise {A : Type} (e : pyexc) : M A := λ s, (Raised e, s).
Definition lift {A : Type} (o : outcome A) : M A := λ s, (o, s).
Definition gets {A : Type} (f : state → A) : M A := λ s, (Ret (f s), s).
Definition modify (f : state → state) : M unit := λ s, (Ret tt, f s).
Definition called (c : call) : M unit := modify (add_call c).
Definition when (b : bool) (m : M unit) : M unit := if b then m else ret tt.

(** [try: m / except Exception: handler / else: orelse]. A Python exception
    raised by [m] is caught; one raised by [orelse] is not; [SystemExit]
    (how [exit_json] and [fail_json] leave) is not an [Exception]. *)
Definition try_except_else {A B : Type}
    (m : M A) (handler : M B) (orelse : A → M B) : M B :=
  λ s, match m s with
       | (Ret a, s') => orelse a s'
       | (ExitJson c, s') => (ExitJson c, s')
       | (FailJson e, s') => (FailJson e, s')
       | (Raised _, s') => handler s'
       end.

(** [for x in l: body x] *)
Fixpoint for_each {A : Type} (l : list A) (body : A → M unit) : M unit :=
  match l with
  | [] => ret tt
  | x :: l' => body x ;; for_each l' body
  end.

(** ** The daemon client, call by call *)

(** The daemon's exception handler is [module.fail_json]. *)
Definition invalid_zone {A : Type} (zone : string) : M A :=
  fail_json ("INVALID_ZONE: " +:+ zone).

Definition rt_zone (d : daemon) (zone : string) : string :=
  if decide (zone = "") then default_zone d else zone.

Definition fw_getDefaultZone : M string :=
  called GetDefaultZone ;; gets (λ s, default_zone (fw s)).

Definition fw_getZones : M (gset string) :=
  called GetZones ;; gets (λ s, dom (runtime (fw s))).

Definition config_getZoneNames : M (gset string) :=
  called GetZoneNames ;; gets (λ s, dom (permanent (fw s))).

(** [fw.config().getZoneByName(zone)]: the handle of a permanent zone is
    modelled by its name. *)
Definition config_getZoneByName (zone : string) : M string :=
  called (GetZoneByName zone) ;;
  let* p := gets (λ s, permanent (fw s)) in
  match p !! zone with
  | Some _ => ret zone
  | None => invalid_zone zone
  end.

(** [fw_zone.getSettings()]: a fresh settings object, a copy of what the
    permanent layer holds. *)
Definition zone_getSettings (fw_zone : string) : M nat :=
  called (GetSettings fw_zone) ;;
  let* p := gets (λ s, permanent (fw s)) in
  match p !! fw_zone with
  | Some x =>
      let* h := gets heap in
      modify (set_heap (h ++ [x])) ;;
      ret (length h)
  | None => invalid_zone fw_zone
  end.

Definition empty_settings : settings := Settings ∅ ∅ ∅ ∅.

Definition deref (h : list settings) (o : nat) : settings :=
  default empty_settings (h !! o).

(** [fw_zone.update(settings)] *)
Definition zone_update (fw_zone : string) (o : nat) : M unit :=
  let* x := gets (λ s, deref (heap s) o) in
  called (Update fw_zone x) ;;
  modify (λ s, set_fw (set_permanent (<[fw_zone := x]> (permanent (fw s)))
                                     (fw s)) s).

(** [fw.queryService(zone, ..)], [fw.queryPort], [fw.queryInterface],
    [fw.queryForwardPort] *)
Definition fw_query (zone : string) (r : rule) : M bool :=
  called (Query zone r) ;;
  let* d := gets fw in
  match runtime d !! rt_zone d zone with
  | Some x => ret (has x r)
  | None => invalid_zone zone
  end.

Definition rt_alter (f : settings → settings) (zone : string) : M unit :=
  let* d := gets fw in
  match runtime d !! rt_zone d zone with
  | Some x =>
      modify (set_fw (set_runtime (<[rt_zone d zone := f x]> (runtime d)) d))
  | None => invalid_zone zone
  end.

(** [fw.addService(zone, ..)], [fw.addPort], [fw.addForwardPort] *)
Definition fw_add (zone : string) (r : rule) : M unit :=
  called (Add zone r) ;; rt_alter (λ x, with_rule x r) zone.

(** [fw.removeService(zone, ..)], [fw.removePort], [fw.removeInterface],
    [fw.removeForwardPort] *)
Definition fw_remove (zone : string) (r : rule) : M unit :=
  called (Remove zone r) ;; rt_alter (λ x, without_rule x r) zone.

(** [fw.changeZoneOfInterface(zone, interface)]: an interface has one
    runtime zone, so binding it to [zone] unbinds it everywhere else. *)
Definition fw_changeZoneOfInterface (zone interface : string) : M unit :=
  called (ChangeZoneOfInterface zone interface) ;;
  let* d := gets fw in
  let unbound := (λ x, without_rule x (Interface interface)) <$> runtime d in
  match unbound !! rt_zone d zone with
  | Some x =>
      modify (set_fw (set_runtime
        (<[rt_zone d zone := with_rule x (Interface interface)]> unbound) d))
  | None => invalid_zone zone
  end.

(** Which interfaces each runtime zone holds. *)
Definition bindings (d : daemon) : gmap string (gset string) :=
  interfaces <$> runtime d.

Definition zone_of_interface (d : daemon) (interface : string) : string :=
  match filter (λ zi : string * gset string, interface ∈ zi.2)
          (map_to_list (bindings d)) with
  | [] => ""
  | zi :: _ => zi.1
  end.

(** [fw.getZoneOfInterface(interface)]: the empty string when no zone has
    the interface. *)
Definition fw_getZoneOfInterface (interface : string) : M string :=
  called (GetZoneOfInterface interface) ;;
  gets (λ s, zone_of_interface (fw s) interface).

(** The methods of a settings object: they work on the object in memory
    and reach the daemon only through [update]. *)
Definition settings_query (o : nat) (r : rule) : M bool :=
  gets (λ s, has (deref (heap s) o) r).

Definition settings_add (o : nat) (r : rule) : M unit :=
  modify (λ s, set_heap (<[o := with_rule (deref (heap s) o) r]> (heap s)) s).

Definition settings_remove (o : nat) (r : rule) : M unit :=
  modify (λ s,
    set_heap (<[o := without_rule (deref (heap s) o) r]> (heap s)) s).

(** ** The connection manager *)

Definition nm_is_imported : M bool :=
  called NmIsImported ;; gets (λ s, nm_imported (nm s)).

Definition nm_get_connection_of_interface (interface : string)
  : M (option string) :=
  called (NmGetConnectionOfInterface interface) ;;
  let* n := gets nm in
  match nm_connection_of n interface with
  | LookupFails e => raise e
  | NoConnection => ret None
  | Connection c => ret (Some c)
  end.

Definition nm_set_zone_of_connection (_zone connection : string) : M unit :=
  called (NmSetZoneOfConnection _zone connection) ;;
  let* n := gets nm in
  match nm_set_fails n _zone connection with
  | Some e => raise e
  | None =>
      modify (set_nm (Netman (nm_imported n) (nm_connection_of n)
                             (nm_set_fails n)
                             (<[connection := _zone]> (nm_zone n))))
  end.

(** What the imports at the head of the file found, and whether the module
    runs in check mode. *)
Record env : Type := Env {
  HAS_FIREWALLD : bool;
  HAS_FIREWALLD_NM : bool;
  check_mode : bool
}.

Definition try_set_zone_of_interface (e : env) (_zone interface : string)
  : M bool :=
  if negb (HAS_FIREWALLD_NM e) then ret false
  else
    let* imported := nm_is_imported in
    if imported then
      try_except_else (nm_get_connection_of_interface interface)
        (ret false)
        (λ connection,
           match connection with
           | Some c => nm_set_zone_of_connection _zone c ;; ret true
           | None => ret false
           end)
    else ret false.

(** ** The reconciliation pass *)

Inductive intent : Type := enabled | disabled.

(** [module.params] *)
Record params : Type := Params {
  param_service : list string;
  param_port : list string;
  param_trust : list string;
  param_masq : list string;
  param_forward_port : list string;
  param_zone : option string;
  param_state : intent
}.

(** [changed_zones[k] = v] on an insertion-ordered dict *)
Fixpoint dict_set (k : string) (v : nat) (d : list (string * nat))
  : list (string * nat) :=
  match d with
  | [] => [(k, v)]
  | (k', v') :: d' =>
      if decide (k' = k) then (k, v) :: d' else (k', v') :: dict_set k v d'
  end.

(** [changed_zones[k]], [None] standing for [k not in changed_zones] *)
Fixpoint dict_get (k : string) (d : list (string * nat)) : option nat :=
  match d with
  | [] => None
  | (k', v') :: d' => if decide (k' = k) then Some v' else dict_get k d'
  end.

(** [changed = True] *)
Definition mark_changed : M unit := modify (set_changed true).

(** [changed_zones[zone] = settings] *)
Definition register (zone : string) (o : nat) : M unit :=
  modify (λ s, set_changed_zones (dict_set zone o (changed_zones s)) s).

(** The permanent half that every category shares: the settings object is
    queried and, where it disagrees with the intent, mutated, the pass is
    marked changed and the object is recorded under [zone]. *)
Definition reconcile_permanent (desired_state : intent) (zone : string)
    (o : nat) (r : rule) : M unit :=
  match desired_state with
  | enabled =>
      let* present := settings_query o r in
      when (negb present)
        (settings_add o r ;; mark_changed ;; register zone o)
  | disabled =>
      let* present := settings_query o r in
      when present
        (settings_remove o r ;; mark_changed ;; register zone o)
  end.

(** Lines 284-299, the body of [for item in service]. The runtime removal
    of the [disabled] branch is the one mutation of the pass that is not
    followed by [changed = True]. *)
Definition service_item (desired_state : intent) (zone : string)
    (fw_settings : nat) (item : string) : M unit :=
  match desired_state with
  | enabled =>
      (let* present := fw_query zone (Service item) in
       when (negb present) (fw_add zone (Service item) ;; mark_changed)) ;;
      reconcile_permanent enabled zone fw_settings (Service item)
  | disabled =>
      (let* present := fw_query zone (Service item) in
       when present (fw_remove zone (Service item))) ;;
      reconcile_permanent disabled zone fw_settings (Service item)
  end.

(** Lines 302-318, the body of [for _port, _protocol in port]. *)
Definition port_item (desired_state : intent) (zone : string)
    (fw_settings : nat) (pp : string * string) : M unit :=
  let '(_port, _protocol) := pp in
  match desired_state with
  | enabled =>
      (let* present := fw_query zone (Port _port _protocol) in
       when (negb present)
         (fw_add zone (Port _port _protocol) ;; mark_changed)) ;;
      reconcile_permanent enabled zone fw_settings (Port _port _protocol)
  | disabled =>
      (let* present := fw_query zone (Port _port _protocol) in
       when present
         (fw_remove zone (Port _port _protocol) ;; mark_changed)) ;;
      reconcile_permanent disabled zone fw_settings (Port _port _protocol)
  end.

(** Lines 322-332 and 361-371: the settings object of the fixed zone. It is
    the one already recorded in [changed_zones] if there is one, the
    nominal zone's if the nominal zone is the fixed zone, and a newly
    fetched one otherwise. *)
Definition settings_of_zone (_zone : string) : M nat :=
  let* _fw_zone := config_getZoneByName _zone in
  let* cz := gets changed_zones in
  match dict_get _zone cz with
  | Some o => ret o
  | None => zone_getSettings _fw_zone
  end.

Definition fixed_zone (zone : string) (fw_settings : nat) (fixed : string)
  : M (string * nat) :=
  if decide (zone ≠ fixed) then
    let* _fw_settings := settings_of_zone fixed in
    ret (fixed, _fw_settings)
  else ret (zone, fw_settings).

(** Lines 335-357 and 374-396, the body of [for item in trust] and of
    [for item in masq], which are the same text. *)
Definition interface_item (e : env) (desired_state : intent)
    (_zone : string) (_fw_settings : nat) (item : string) : M unit :=
  match desired_state with
  | enabled =>
      let* fast := try_set_zone_of_interface e _zone item in
      if fast then mark_changed
      else
        (let* present := fw_query _zone (Interface item) in
         when (negb present)
           (fw_changeZoneOfInterface _zone item ;; mark_changed)) ;;
        reconcile_permanent enabled _zone _fw_settings (Interface item)
  | disabled =>
      let* fast := try_set_zone_of_interface e "" item in
      if fast then when (check_mode e) (exit_json true)
      else
        (let* present := fw_query _zone (Interface item) in
         when present
           (fw_remove _zone (Interface item) ;; mark_changed)) ;;
        reconcile_permanent disabled _zone _fw_settings (Interface item)
  end.

(** Lines 321-357 with [fixed = "trusted"], lines 360-396 with
    [fixed = "external"]. *)
Definition interface_section (e : env) (desired_state : intent)
    (zone : string) (fw_settings : nat) (fixed : string)
    (items : list string) : M unit :=
  when (bool_decide (0 < length items))
    (let* zs := fixed_zone zone fw_settings fixed in
     for_each items (interface_item e desired_state zs.1 zs.2)).

(** Lines 400-442, the body of the loop over [forward_port]. *)
Definition forward_port_item (desired_state : intent) (zone : string)
    (fw_settings : nat) (item : forward_rule) : M unit :=
  let '(_interface, _port, _protocol, _to_port, _to_addr) := item in
  let r := ForwardPort _port _protocol _to_port _to_addr in
  let* _zone :=
    if decide (_interface ≠ "") then fw_getZoneOfInterface _interface
    else ret zone in
  let* _fw_settings :=
    if decide (_zone ≠ "" ∧ _zone ≠ zone) then settings_of_zone _zone
    else ret fw_settings in
  match desired_state with
  | enabled =>
      (let* present := fw_query _zone r in
       when (negb present) (fw_add _zone r ;; mark_changed)) ;;
      reconcile_permanent enabled _zone _fw_settings r
  | disabled =>
      (let* present := fw_query _zone r in
       when present (fw_remove _zone r ;; mark_changed)) ;;
      reconcile_permanent disabled _zone _fw_settings r
  end.

(** Lines 445-449: every recorded zone is written back. *)
Definition apply_changes : M unit :=
  let* c := gets changed in
  when c
    (let* cz := gets changed_zones in
     for_each cz (λ zo,
       let* _fw_zone := config_getZoneByName zo.1 in
       zone_update _fw_zone zo.2) ;;
     exit_json true).

(** Lines 280-454 of [main]: the pass proper, once the rule strings are
    parsed and the nominal zone and its settings object are at hand. *)
Definition reconcile (e : env) (desired_state : intent) (zone : string)
    (fw_settings : nat) (service : list string)
    (port : list (string * string)) (trust masq : list string)
    (forward_port : list forward_rule) : M Empty_set :=
  let trusted_zone := "trusted" in
  let external_zone := "external" in
  modify (set_changed false) ;;
  modify (set_changed_zones []) ;;
  for_each service (service_item desired_state zone fw_settings) ;;
  for_each port (port_item desired_state zone fw_settings) ;;
  interface_section e desired_state zone fw_settings trusted_zone trust ;;
  interface_section e desired_state zone fw_settings external_zone masq ;;
  when (bool_decide (0 < length forward_port))
    (for_each forward_port
       (forward_port_item desired_state zone fw_settings)) ;;
  apply_changes ;;
  exit_json false.

(** Lines 270-276: the nominal zone. Only a zone given as a parameter is
    looked up in the two zone lists. *)
Definition nominal_zone (zone : option string) (default_zone : string)
  : M string :=
  match zone with
  | Some zone =>
      let* zones := fw_getZones in
      when (bool_decide (zone ∉ zones))
        (fail_json ("Runtime zone '" +:+ zone +:+ "' does not exist.")) ;;
      let* names := config_getZoneNames in
      when (bool_decide (zone ∉ names))
        (fail_json ("Permanent zone '" +:+ zone +:+ "' does not exist.")) ;;
      ret zone
  | None => ret default_zone
  end.

Definition main (e : env) (p : params) : M Empty_set :=
  when (negb (HAS_FIREWALLD e))
    (fail_json "No firewall backend could be imported.") ;;
  let service := param_service p in
  let* port := lift (parse_all parse_port (param_port p)) in
  let trust := param_trust p in
  let masq := param_masq p in
  let* forward_port :=
    lift (parse_all (λ item, parse_forward_port item None)
                    (param_forward_port p)) in
  let desired_state := param_state p in
  if HAS_FIREWALLD e then
    let* is_connected := gets (λ s, connected (fw s)) in
    when (negb is_connected) (fail_json "firewalld service must be running") ;;
    let* default_zone := fw_getDefaultZone in
    let* zone := nominal_zone (param_zone p) default_zone in
    let* fw_zone := config_getZoneByName zone in
    let* fw_settings := zone_getSettings fw_zone in
    reconcile e desired_state zone fw_settings service port trust masq
      forward_port
  else fail_json "No firewalld".

(** One invocation against a daemon and a connection manager. *)
Definition start (d : daemon) (n : netman) : state :=
  State d n [] false [] [].

Definition run (e : env) (p : params) (d : daemon) (n : netman)
  : outcome Empty_set * state :=
  main e p (start d n).

(** ** Scenarios *)

(** The module ended in an error: [fail_json] or an uncaught exception. *)
Definition is_failure {A : Type} (o : outcome A) : Prop :=
  match o with
  | FailJson _ | Raised _ => True
  | Ret _ | ExitJson _ => False
  end.

(** A host with four empty zones in both layers; [public] is the default
    zone. *)
Definition four_zones : gmap string settings :=
  {[ "public" := empty_settings; "dmz" := empty_settings;
     "trusted" := empty_settings; "external" := empty_settings ]}.

Definition host : daemon := Daemon true "public" four_zones four_zones.

(** No connection-manager integration, and one where a connection owns
    [eth0], with and without a working zone setter. *)
Definition no_nm : netman := Netman false (λ _, NoConnection) (λ _ _, None) ∅.

Definition nm_eth0 : netman :=
  Netman true
    (λ i, if decide (i = "eth0") then Connection "uuid-eth0" else NoConnection)
    (λ _ _, None) ∅.

Definition nm_eth0_readonly : netman :=
  Netman true
    (λ i, if decide (i = "eth0") then Connection "uuid-eth0" else NoConnection)
    (λ _ _, Some (ForeignError "commit_changes")) ∅.

Definition plain : env := Env true false false.
Definition with_nm : env := Env true true false.

(** [http] is allowed in the runtime layer of [public] only. *)
Definition host_http_runtime : daemon :=
  Daemon true "public"
    (<["public" := with_rule empty_settings (Service "http")]> four_zones)
    four_zones.

(** [8080/tcp] is open in the runtime layer of [public] only. *)
Definition host_port_runtime : daemon :=
  Daemon true "public"
    (<["public" := with_rule empty_settings (Port "8080" "tcp")]> four_zones)
    four_zones.

(** The permanent layer has no [trusted] zone. *)
Definition host_no_permanent_trusted : daemon :=
  Daemon true "public" four_zones (delete "trusted" four_zones).

(** ** Vocabulary of the proofs *)

(** [m] only ever adds to the list of calls. *)
Definition grows {A : Type} (m : M A) : Prop :=
  ∀ s, calls s `prefix_of` calls (m s).2.

(** [m1] does what [m0] does, or leaves early through
    [exit_json(changed=True)] in a state that satisfies [X], having made
    some of the calls that [m0] makes, in the same order. *)
Definition early {A : Type} (X : state → Prop) (m1 m0 : M A) : Prop :=
  ∀ s, m1 s = m0 s
       ∨ ((m1 s).1 = ExitJson true ∧ X (m1 s).2
          ∧ calls (m1 s).2 `prefix_of` calls (m0 s).2).

(** The last call was a reset of a connection's zone by the fast path. *)
Definition after_zone_reset (s : state) : Prop :=
  ∃ c, last (calls s) = Some (NmSetZoneOfConnection "" c).


(** The zones of the [getSettings] calls, in order: the [o]-th of them
    handed out the settings object [o]. *)
Definition fetched (cs : list call) : list string :=
  omap (λ c, match c with GetSettings z => Some z | _ => None end) cs.

(** The write-backs, in order. *)
Definition updates (cs : list call) : list (string * settings) :=
  omap (λ c, match c with Update z x => Some (z, x) | _ => None end) cs.

(** Hoare triples for the module's monad, with one postcondition for a
    normal return, one for [exit_json] and one for an error. *)
Definition triple {A : Type} (P : state → Prop) (m : M A)
    (Q : A → state → Prop) (X : bool → state → Prop) (F : state → Prop)
  : Prop :=
  ∀ s, P s →
    match m s with
    | (Ret a, s') => Q a s'
    | (ExitJson c, s') => X c s'
    | (FailJson _, s') | (Raised _, s') => F s'
    end.

(** What the bookkeeping of a pass is made of: the permanent layer, the
    settings objects, the record of changed zones, and the fetches and
    write-backs made so far. *)
Definition core (s : state) : gmap string settings * list settings
    * list (string * nat) * list string * list (string * settings) :=
  (permanent (fw s), heap s, changed_zones s, fetched (calls s),
   updates (calls s)).

(** [m] leaves the bookkeeping alone, never clears the changed flag and
    does not leave through [exit_json]. *)
Definition frame {A : Type} (m : M A) : Prop :=
  ∀ s, core (m s).2 = core s
       ∧ (changed s = true → changed (m s).2 = true)
       ∧ ∀ c, (m s).1 ≠ ExitJson c.

(** [I] only reads the bookkeeping and does not mind the flag being set. *)
Definition stable (I : state → Prop) : Prop :=
  ∀ s s', core s' = core s → (changed s = true → changed s' = true) →
          I s → I s'.

Definition registered (s : state) (k : string) (o : nat) : Prop :=
  dict_get k (changed_zones s) = Some o.

(** The bookkeeping is consistent, for a pass that started on the permanent
    layer [P0] with nominal zone [zone]: the permanent layer is untouched
    and nothing was written back; object 0 is the nominal zone's and the only
    one fetched from it; a zone is recorded with an object fetched from that
    zone, except that the empty name may be recorded with object 0; and an
    object that is not recorded still is what was fetched. *)
Record wf (P0 : gmap string settings) (zone : string) (s : state) : Prop := {
  wf_permanent : permanent (fw s) = P0;
  wf_length : length (heap s) = length (fetched (calls s));
  wf_nominal : ∀ o, fetched (calls s) !! o = Some zone ↔ o = 0;
  wf_registered : ∀ k o, registered s k o →
    (k = "" ∧ o = 0) ∨ (k ≠ "" ∧ fetched (calls s) !! o = Some k);
  wf_objects : ∀ o k, fetched (calls s) !! o = Some k →
    ∃ x0, P0 !! k = Some x0
          ∧ (heap s !! o = Some x0 ∨ registered s k o
             ∨ (o = 0 ∧ registered s "" 0));
  wf_keys : NoDup (changed_zones s).*1;
  wf_changed : changed_zones s ≠ [] → changed s = true;
  wf_updates : updates (calls s) = []
}.

(** The settings object [o] may be mutated on behalf of zone [k]: it was
    fetched from [k] (or is object 0 standing in for the empty name), and no
    other object is recorded for [k]. *)
Definition live (s : state) (k : string) (o : nat) : Prop :=
  ((k = "" ∧ o = 0) ∨ (k ≠ "" ∧ fetched (calls s) !! o = Some k))
  ∧ ∀ o', registered s k o' → o' = o.

(** The effect of the last three statements of a branch that mutates the
    settings object [o] on behalf of zone [k]. *)
Definition record_change (desired_state : intent) (k : string) (o : nat)
    (r : rule) (s : state) : state :=
  State (fw s) (nm s)
    (<[o := match desired_state with
            | enabled => with_rule (deref (heap s) o) r
            | disabled => without_rule (deref (heap s) o) r
            end]> (heap s))
    true (dict_set k o (changed_zones s)) (calls s).

Definition wanted (desired_state : intent) : bool :=
  match desired_state with enabled => true | disabled => false end.

(** The permanent layer after the write-back of the recorded objects. *)
Definition write_back (h : list settings) (P : gmap string settings)
    (cz : list (string * nat)) : gmap string settings :=
  foldl (λ m zo, <[zo.1 := deref h zo.2]> m) P cz.

(** What [apply_changes] does on the way to [exit_json(changed=True)]: one
    write-back per recorded zone, in order, each with the content of the
    recorded object, and nothing else changes. *)
Record commits (s s' : state) : Prop := {
  cm_heap : heap s' = heap s;
  cm_changed_zones : changed_zones s' = changed_zones s;
  cm_changed : changed s' = changed s;
  cm_nm : nm s' = nm s;
  cm_fetched : fetched (calls s') = fetched (calls s);
  cm_updates : updates (calls s')
    = updates (calls s)
      ++ ((λ zo, (zo.1, deref (heap s) zo.2)) <$> changed_zones s);
  cm_permanent : permanent (fw s')
    = write_back (heap s) (permanent (fw s)) (changed_zones s);
  cm_runtime : runtime (fw s') = runtime (fw s);
  cm_default_zone : default_zone (fw s') = default_zone (fw s);
  cm_connected : connected (fw s') = connected (fw s);
  cm_exist : Forall (λ zo, is_Some (permanent (fw s) !! zo.1))
               (changed_zones s)
}.

(** How a completed pass leaves the bookkeeping. *)
Record committed (P0 : gmap string settings) (zone : string) (s : state)
  : Prop := {
  c_updates : updates (calls s)
    = (λ zo, (zo.1, deref (heap s) zo.2)) <$> changed_zones s;
  c_keys : NoDup (changed_zones s).*1;
  c_exist : ∀ k o, registered s k o → is_Some (P0 !! k);
  c_nominal : ∀ o, fetched (calls s) !! o = Some zone ↔ o = 0;
  c_registered : ∀ k o, registered s k o →
    (k = "" ∧ o = 0) ∨ (k ≠ "" ∧ fetched (calls s) !! o = Some k);
  c_objects : ∀ o k, fetched (calls s) !! o = Some k →
    ∃ x0, P0 !! k = Some x0
          ∧ (heap s !! o = Some x0 ∨ registered s k o
             ∨ (o = 0 ∧ registered s "" 0));
  c_permanent : permanent (fw s) = write_back (heap s) P0 (changed_zones s)
}.

(** The pass gets as far as [reconcile]: the backend is there, the rule
    strings parse, the daemon is connected, a zone given as a parameter is in
    both zone lists, and the permanent layer has the nominal zone. *)
Record reaches (e : env) (p : params) (d : daemon) (zone : string)
    (x0 : settings) (port : list (string * string))
    (forward_port : list forward_rule) : Prop := {
  r_backend : HAS_FIREWALLD e = true;
  r_connected : connected d = true;
  r_port : parse_all parse_port (param_port p) = Ret port;
  r_forward_port :
    parse_all (λ item, parse_forward_port item None) (param_forward_port p)
    = Ret forward_port;
  r_zone : zone = default (default_zone d) (param_zone p);
  r_valid : ∀ z, param_zone p = Some z →
            z ∈ dom (runtime d) ∧ z ∈ dom (permanent d);
  r_permanent : permanent d !! zone = Some x0
}.

(** The calls of the pass before [reconcile]. *)
Definition opening_calls (p : params) (zone : string) : list call :=
  match param_zone p with
  | Some _ => [GetDefaultZone; GetZones; GetZoneNames]
  | None => [GetDefaultZone]
  end ++ [GetZoneByName zone; GetSettings zone].

(** [eth0] is bound to [dmz] in the runtime layer. *)
Definition host_eth0_dmz : daemon :=
  Daemon true "public"
    (<["dmz" := with_rule empty_settings (Interface "eth0")]> four_zones)
    four_zones.



(** ** The ifcfg file reader *)

(** [str.strip()] removes the whitespace at both ends. Which characters
    count as whitespace differs between the [str] of Python 2 and of
    Python 3, so the class is a parameter of the model; [ascii_isspace] is
    the one of Python 2 and of Python 3's [bytes]. *)
Definition ascii_isspace (c : Ascii.ascii) : bool :=
  bool_decide (c ∈ [" "; "009"; "010"; "011"; "012"; "013"]%char).

Section ifcfg.
Variable isspace : Ascii.ascii → bool.

(** [s.lstrip()] *)
Fixpoint lstrip (s : string) : string :=
  match s with
  | EmptyString => EmptyString
  | String c s' => if isspace c then lstrip s' else s
  end.

(** [s.rstrip()] *)
Fixpoint rstrip (s : string) : string :=
  match s with
  | EmptyString => EmptyString
  | String c s' =>
      match rstrip s' with
      | EmptyString => if isspace c then EmptyString else String c EmptyString
      | t => String c t
      end
  end.

(** [s.strip()] *)
Definition strip (s : string) : string := rstrip (lstrip s).

(** [s.split(sep, 1)]: at most one cut, at the first separator. *)
Fixpoint split_once (sep : Ascii.ascii) (s : string) : list string :=
  match s with
  | EmptyString => [EmptyString]
  | String c s' =>
      if Ascii.eqb c sep then [EmptyString; s']
      else match split_once sep s' with
           | [] => [String c EmptyString]
           | w :: ws => String c w :: ws
           end
  end.

(** [s[:-1]] *)
Fixpoint drop_last (s : string) : string :=
  match s with
  | EmptyString => EmptyString
  | String c EmptyString => EmptyString
  | String c s' => String c (drop_last s')
  end.

(** [s.endswith(c)] for a one-character [c] *)
Fixpoint endswith (s : string) (c : Ascii.ascii) : bool :=
  match s with
  | EmptyString => false
  | String c' EmptyString => Ascii.eqb c' c
  | String _ s' => endswith s' c
  end.

(** [s.startswith(c)] for a one-character [c] *)
Definition startswith (s : string) (c : Ascii.ascii) : bool :=
  match s with
  | EmptyString => false
  | String c' _ => Ascii.eqb c' c
  end.

(** [s[1:-1]] *)
Definition inner (s : string) : string :=
  match s with
  | EmptyString => EmptyString
  | String _ s' => drop_last s'
  end.

(** An object of class [ifcfg]. *)
Record ifcfg : Type := Ifcfg {
  _config : gmap string string;
  _deleted : list string;
  filename : string
}.

Definition ifcfg_clear (self : ifcfg) : ifcfg := Ifcfg ∅ [] (filename self).

Definition ifcfg_init (filename : string) : ifcfg :=
  ifcfg_clear (Ifcfg ∅ [] filename).

Definition ifcfg_cleanup (self : ifcfg) : ifcfg :=
  Ifcfg ∅ (_deleted self) (filename self).

Definition ifcfg_get (self : ifcfg) (key : string) : option string :=
  _config self !! strip key.

(** [l.remove(x)]: the first occurrence goes. *)
Fixpoint list_remove (x : string) (l : list string) : list string :=
  match l with
  | [] => []
  | y :: l' => if decide (y = x) then l' else y :: list_remove x l'
  end.

Definition ifcfg_set (self : ifcfg) (key value : string) : ifcfg :=
  let _key := strip key in
  Ifcfg (<[_key := strip value]> (_config self))
        (if decide (_key ∈ _deleted self)
         then list_remove _key (_deleted self) else _deleted self)
        (filename self).

(** What one line of the file contributes: nothing for a blank line, a
    comment, a line without [=] and a line with an empty value; otherwise
    the stripped key and the stripped value, without its double quotes if it
    has them at both ends. *)
Definition parse_line (line : string) : option (string * string) :=
  let line := strip line in
  if Nat.ltb (String.length line) 1
     || startswith line "#" || startswith line ";" then None
  else
    match strip <$> split_once "=" line with
    | [key; value] =>
        let value :=
          if Nat.leb 2 (String.length value) && startswith value "034"
             && endswith value "034"
          then inner value else value in
        if decide (value = "") then None else Some (key, value)
    | _ => None
    end.

(** The body of the loop of [read] for the lines that are left. An empty
    line (which the iteration over a file never yields) ends the loop; a key
    that is already there keeps its value. *)
Fixpoint read_lines (lines : list string) (config : gmap string string)
  : gmap string string :=
  match lines with
  | [] => config
  | line :: lines' =>
      if decide (line = "") then config
      else match parse_line line with
           | Some (key, value) =>
               match config !! key with
               | Some _ => read_lines lines' config
               | None => read_lines lines' (<[key := value]> config)
               end
           | None => read_lines lines' config
           end
  end.

(** [read]: the file is given by its lines, as the iteration over the file
    object yields them, or is [None] when [open] raises. The object is
    cleared before the file is opened; the result says whether the call
    returned ([true]) or let the exception of [open] through ([false]). *)
Definition ifcfg_read (file : option (list string)) (self : ifcfg)
  : bool * ifcfg :=
  let self := ifcfg_clear self in
  match file with
  | Some lines =>
      (true, Ifcfg (read_lines lines (_config self)) (_deleted self)
               (filename self))
  | None => (false, self)
  end.
End ifcfg.

(** The value that the first line assigning [key] gives it. *)
Definition first_value (isspace : Ascii.ascii → bool) (key : string)
    (lines : list string) : option string :=
  head (omap (λ line,
    match parse_line isspace line with
    | Some (k, v) => if decide (k = key) then Some v else None
    | None => None
    end) lines).

(** The calls that change an object of class [ifcfg]. *)
Inductive ifcfg_call : Type :=
| CallClear
| CallCleanup
| CallSet (key value : string)
| CallRead (file : option (list string)).

Definition ifcfg_do (isspace : Ascii.ascii → bool) (self : ifcfg)
    (c : ifcfg_call) : ifcfg :=
  match c with
  | CallClear => ifcfg_clear self
  | CallCleanup => ifcfg_cleanup self
  | CallSet key value => ifcfg_set isspace self key value
  | CallRead file => (ifcfg_read isspace file self).2
  end.



(** Every call that [m] makes satisfies [P]. *)
Definition emits (P : call → Prop) {A : Type} (m : M A) : Prop :=
  ∀ s, ∃ cs, calls (m s).2 = calls s ++ cs ∧ Forall P cs.

(** The calls that fit the intent: nothing is removed from the runtime
    layer when rules are enabled; nothing is added to it and no interface is
    bound when rules are disabled. *)
Definition fits (desired_state : intent) (c : call) : Prop :=
  match desired_state, c with
  | enabled, Remove _ _ => False
  | disabled, (Add _ _ | ChangeZoneOfInterface _ _) => False
  | _, _ => True
  end.

(** A call to the connection manager. *)
Definition nm_call (c : call) : Prop :=
  match c with
  | NmIsImported | NmGetConnectionOfInterface _ | NmSetZoneOfConnection _ _ =>
      True
  | _ => False
  end.

(** The calls that any pass may make: they read the daemon, or write a
    settings object back. *)
Definition routine (c : call) : Prop :=
  match c with
  | GetDefaultZone | GetZones | GetZoneNames | GetZoneByName _
  | GetSettings _ | Query _ _ | GetZoneOfInterface _ | Update _ _ => True
  | _ => False
  end.

(** [P] allows the calls that put the intent [ds] into effect. *)
Definition add_allowed (P : call → Prop) (ds : intent) : Prop :=
  ds = enabled →
  (∀ z r, P (Add z r)) ∧ (∀ z i, P (ChangeZoneOfInterface z i)).
Definition remove_allowed (P : call → Prop) (ds : intent) : Prop :=
  ds = disabled → ∀ z r, P (Remove z r).



(** [m] takes every state to one that [R] relates it to, however it
    ends. *)
Definition keeps (R : relation state) {A : Type} (m : M A) : Prop :=
  ∀ s, R s (m s).2.

(** The daemon has the same zones in both layers, the same default zone and
    is as connected as before. *)
Definition same_zones (s s' : state) : Prop :=
  connected (fw s') = connected (fw s)
  ∧ default_zone (fw s') = default_zone (fw s)
  ∧ dom (runtime (fw s')) = dom (runtime (fw s))
  ∧ dom (permanent (fw s')) = dom (permanent (fw s)).

(** The calls that a pass which reports [changed = False] may have made:
    of those that change something, only the runtime removal of a service
    and the reset of a connection's zone, both under [disabled]. *)
Definition quiet (desired_state : intent) (c : call) : Prop :=
  match c with
  | Add _ _ | ChangeZoneOfInterface _ _ | Update _ _ => False
  | Remove _ r => desired_state = disabled ∧ ∃ name, r = Service name
  | NmSetZoneOfConnection _zone _ => desired_state = disabled ∧ _zone = ""
  | _ => True
  end.

(** From [s] to [s'] calls were made and the flag was not cleared; if the
    flag is still clear, the calls were quiet, the permanent layer is what
    it was and, under [enabled], so are the daemon and the connection
    manager. *)
Definition discreet (desired_state : intent) (s s' : state) : Prop :=
  ∃ cs, calls s' = calls s ++ cs
    ∧ (changed s = true → changed s' = true)
    ∧ (changed s' = false →
       Forall (quiet desired_state) cs
       ∧ permanent (fw s') = permanent (fw s)
       ∧ (desired_state = enabled → fw s' = fw s ∧ nm s' = nm s)).

(** Unless it fails, [m] is discreet, and it leaves through
    [exit_json(changed=False)] only with the flag clear. *)
Definition candid (desired_state : intent) {A : Type} (m : M A) : Prop :=
  ∀ s, match (m s).1 with
       | Ret _ => discreet desired_state s (m s).2
       | ExitJson c =>
           discreet desired_state s (m s).2
           ∧ (c = false → changed (m s).2 = false)
       | FailJson _ | Raised _ => True
       end.



(** The connection manager is what it was. *)
Definition same_nm (s s' : state) : Prop := nm s' = nm s.



(** The fast path applies to an interface: the integration is there, the
    subsystem is active and a connection owns the interface. *)
Definition fast_path (e : env) (n : netman) (interface : string) : bool :=
  HAS_FIREWALLD_NM e && nm_imported n
  && match nm_connection_of n interface with
     | Connection _ => true
     | LookupFails _ | NoConnection => false
     end.

Definition add_calls (cs : list call) (s : state) : state :=
  State (fw s) (nm s) (heap s) (changed s) (changed_zones s) (calls s ++ cs).

(** The runtime zone [zone] gets the content [x]. *)
Definition rt_put (zone : string) (x : settings) (s : state) : state :=
  set_fw (set_runtime (<[rt_zone (fw s) zone := x]> (runtime (fw s))) (fw s))
    s.

(** A layer of the daemon agrees with the intent about a rule. *)
Definition settled_rt (ds : intent) (d : daemon) (zone : string) (r : rule)
  : Prop :=
  ∃ x, runtime d !! rt_zone d zone = Some x ∧ has x r = wanted ds.

Definition settled_pm (ds : intent) (d : daemon) (zone : string) (r : rule)
  : Prop :=
  ∃ y, permanent d !! zone = Some y ∧ has y r = wanted ds.

(** Lines 401-404 and 405-413: the zone a forward rule goes to at runtime,
    and the zone whose settings object it works on. *)
Definition forward_zone (d : daemon) (zone interface : string) : string :=
  if decide (interface ≠ "") then zone_of_interface d interface else zone.

Definition settings_zone (zone _zone : string) : string :=
  if decide (_zone ≠ "" ∧ _zone ≠ zone) then _zone else zone.

Definition forward_rule_of (item : forward_rule) : rule :=
  ForwardPort item.1.1.1.2 item.1.1.2 item.1.2 item.2.

(** Both layers of the daemon agree with every rule of the desired state,
    each in the zone it resolves to. *)
Record satisfied (ds : intent) (d : daemon) (zone : string)
    (service : list string) (port : list (string * string))
    (trust masq : list string) (forward_port : list forward_rule) : Prop := {
  sat_service : Forall (λ n,
    settled_rt ds d zone (Service n) ∧ settled_pm ds d zone (Service n))
    service;
  sat_port : Forall (λ pp,
    settled_rt ds d zone (Port pp.1 pp.2)
    ∧ settled_pm ds d zone (Port pp.1 pp.2)) port;
  sat_trust : Forall (λ i,
    settled_rt ds d "trusted" (Interface i)
    ∧ settled_pm ds d "trusted" (Interface i)) trust;
  sat_masq : Forall (λ i,
    settled_rt ds d "external" (Interface i)
    ∧ settled_pm ds d "external" (Interface i)) masq;
  sat_forward_port : Forall (λ item,
    settled_rt ds d (forward_zone d zone item.1.1.1.1) (forward_rule_of item)
    ∧ settled_pm ds d
        (settings_zone zone (forward_zone d zone item.1.1.1.1))
        (forward_rule_of item)) forward_port
}.

(** A pass that has found nothing to do so far, on the daemon [d] and the
    connection manager [n]; [x0] is the content of object 0. *)
Record idle (d : daemon) (n : netman) (x0 : settings) (s : state) : Prop := {
  idle_fw : fw s = d;
  idle_nm : nm s = n;
  idle_changed : changed s = false;
  idle_changed_zones : changed_zones s = [];
  idle_nominal : heap s !! 0 = Some x0
}.


(** [http] and [80/tcp] are allowed in [public] and [eth0] is bound to
    [trusted], in both layers. *)
Definition host_settled : daemon :=
  let zones :=
    <["public" := with_rule (with_rule empty_settings (Service "http"))
                    (Port "80" "tcp")]>
      (<["trusted" := with_rule empty_settings (Interface "eth0")]>
         four_zones) in
  Daemon true "public" zones zones.



(** [m] never leaves through [exit_json(changed=False)]. *)
Definition sure {A : Type} (m : M A) : Prop :=
  ∀ s c, (m s).1 = ExitJson c → c = true.

(** The connection manager is as active as before and knows the same
    connections, and the flag has not been cleared. *)
Definition same_connections (s s' : state) : Prop :=
  nm_imported (nm s') = nm_imported (nm s)
  ∧ nm_connection_of (nm s') = nm_connection_of (nm s)
  ∧ (changed s = true → changed s' = true).

(** The connection manager still is as active as [n] and knows the
    connections that [n] knew. *)
Definition knows (n : netman) (s : state) : Prop :=
  nm_imported (nm s) = nm_imported n
  ∧ nm_connection_of (nm s) = nm_connection_of n.

(** [eth0] is bound to [trusted] in both layers. *)
Definition host_eth0_trusted : daemon :=
  let zones :=
    <["trusted" := with_rule empty_settings (Interface "eth0")]> four_zones in
  Daemon true "public" zones zones.



(** The rules of the two categories that always go to the nominal zone. *)
Definition service_or_port (r : rule) : Prop :=
  match r with Service _ | Port _ _ => True | _ => False end.

(** What the pieces of a pass with intent [ds] and nominal zone [zone] keep
    of what earlier pieces achieved: the default zone; that a service or
    port rule is settled in the runtime layer of the nominal zone; that
    object 0 is there and agrees with the intent about such a rule; that the
    nominal zone is recorded; and, as long as it is not recorded, what object
    0 says about every such rule. *)
Record steady (ds : intent) (zone : string) (s s' : state) : Prop := {
  st_default_zone : default_zone (fw s') = default_zone (fw s);
  st_runtime : ∀ r, service_or_port r →
    settled_rt ds (fw s) zone r → settled_rt ds (fw s') zone r;
  st_heap : heap s ≠ [] → heap s' ≠ [];
  st_object : heap s ≠ [] → ∀ r, service_or_port r →
    has (deref (heap s) 0) r = wanted ds →
    has (deref (heap s') 0) r = wanted ds;
  st_registered : is_Some (dict_get zone (changed_zones s)) →
    is_Some (dict_get zone (changed_zones s'));
  st_untouched : heap s ≠ [] →
    is_Some (dict_get zone (changed_zones s'))
    ∨ ∀ r, service_or_port r →
        has (deref (heap s') 0) r = has (deref (heap s) 0) r
}.

(** The rules [rs] are settled in the runtime layer of the nominal zone and
    in object 0. *)
Definition achieved (ds : intent) (zone : string) (rs : list rule)
    (s : state) : Prop :=
  Forall (λ r, settled_rt ds (fw s) zone r
               ∧ has (deref (heap s) 0) r = wanted ds) rs.

(** The service and port rules of a pass. *)
Definition rules_of (service : list string) (port : list (string * string))
  : list rule :=
  (Service <$> service) ++ ((λ pp, Port pp.1 pp.2) <$> port).




(** The calls of a pass that ends before the settings of the nominal zone
    are fetched. *)
Definition validation_calls (p : params) (zone : string) : list call :=
  match param_zone p with
  | Some _ => [GetDefaultZone; GetZones; GetZoneNames; GetZoneByName zone]
  | None => [GetDefaultZone; GetZoneByName zone]
  end.

(** The error that an unknown nominal zone ends in: the message of the
    zone list that lacks a zone given as a parameter, the runtime list being
    looked at first, and the daemon's own error for the default zone. *)
Definition unknown_zone_error (p : params) (d : daemon) (zone : string)
  : string :=
  match param_zone p with
  | Some _ =>
      if bool_decide (zone ∉ dom (runtime d))
      then "Runtime zone '" +:+ zone +:+ "' does not exist."
      else "Permanent zone '" +:+ zone +:+ "' does not exist."
  | None => "INVALID_ZONE: " +:+ zone
  end.



(** Any call but the fetch of the settings of [zone]. *)
Definition fetches_other (zone : string) (c : call) : Prop :=
  c ≠ GetSettings zone.

(** How a completed pass leaves the bookkeeping when the permanent layer
    [P0] it started on has no zone of the empty name: the first fetch was
    that of the nominal zone; the write-backs are one per recorded zone, in
    the order of recording, each with the final content of the recorded
    object; a recorded zone exists and its object was fetched from it; an
    object that is not the recorded one of its zone still is what was
    fetched; and the permanent layer is [P0] with the recorded objects
    written over it. *)
Record batched (P0 : gmap string settings) (zone : string) (s : state)
  : Prop := {
  b_nominal : fetched (calls s) !! 0 = Some zone;
  b_updates : updates (calls s)
    = (λ zo, (zo.1, deref (heap s) zo.2)) <$> changed_zones s;
  b_keys : NoDup (changed_zones s).*1;
  b_registered : ∀ k o, registered s k o →
    is_Some (P0 !! k) ∧ fetched (calls s) !! o = Some k;
  b_objects : ∀ o k, fetched (calls s) !! o = Some k →
    ∃ x0, P0 !! k = Some x0 ∧ (heap s !! o = Some x0 ∨ registered s k o);
  b_permanent : permanent (fw s) = write_back (heap s) P0 (changed_zones s)
}.



(** A call that sets the zone of a connection. *)
Definition sets_zone (c : call) : Prop :=
  match c with NmSetZoneOfConnection _ _ => True | _ => False end.

(** From [s] to [s'] the connection manager was left alone and the zone of
    no connection was asked to be set. *)
Definition no_zone_set (s s' : state) : Prop :=
  nm s' = nm s
  ∧ ∃ cs, calls s' = calls s ++ cs ∧ Forall (λ c, ¬ sets_zone c) cs.

(** The connection manager still is [n], and the zone of no connection has
    been asked to be set. *)
Definition unset (n : netman) (s : state) : Prop :=
  nm s = n ∧ Forall (λ c, ¬ sets_zone c) (calls s).

(** How the request to reset the zone of [conn] ends a pass in check mode:
    through [exit_json(changed=True)] if the connection manager [n] takes
    the new zone, and in its exception if it does not. *)
Definition reset_outcome {A : Type} (n : netman) (conn : string)
  : outcome A :=
  match nm_set_fails n "" conn with
  | None => ExitJson true
  | Some x => Raised x
  end.

(** The last call asked for the zone of a connection to be reset, no
    earlier call asked for a zone to be set, and the outcome is that of the
    reset. *)
Definition stopped_by_reset {A : Type} (n : netman)
    (r : outcome A * state) : Prop :=
  ∃ pre conn, calls r.2 = pre ++ [NmSetZoneOfConnection "" conn]
    ∧ Forall (λ c, ¬ sets_zone c) pre
    ∧ r.1 = reset_outcome n conn.

(** Started before any zone was set, [m] returns without having set one,
    and where it does not return, either no zone was set or the reset of a
    zone is the last thing that happened. *)
Definition halts_at_reset (n : netman) {A : Type} (m : M A) : Prop :=
  ∀ s, unset n s →
    match (m s).1 with
    | Ret _ => unset n (m s).2
    | _ => unset n (m s).2 ∨ stopped_by_reset n (m s)
    end.


(** What the permanent layer will hold for zone [k] once the recorded
    objects are written back. *)
Definition view (P0 : gmap string settings) (s : state) (k : string)
  : option settings :=
  match dict_get k (changed_zones s) with
  | Some o => heap s !! o
  | None => P0 !! k
  end.

(** The write-back of this pass will ask for the zone with the empty
    name. *)
Definition doomed (s : state) : Prop :=
  is_Some (dict_get "" (changed_zones s)).

Definition ok_pm (ds : intent) (P0 : gmap string settings) (s : state)
    (k : string) (r : rule) : Prop :=
  doomed s ∨ ∃ y, view P0 s k = Some y ∧ has y r = wanted ds.

(** Every settings object agrees with the intent wherever the zone it was
    fetched from did. *)
Definition grown (ds : intent) (P0 : gmap string settings) (s : state)
  : Prop :=
  ∀ o k x r, fetched (calls s) !! o = Some k → P0 !! k = Some x →
    has x r = wanted ds → has (deref (heap s) o) r = wanted ds.

(** What a pass has to achieve for one rule: the runtime zone, the
    permanent zone and the rule. *)
Record fact : Type := Fact {
  fact_zone : string;
  fact_key : string;
  fact_rule : rule
}.

Definition holds (ds : intent) (P0 : gmap string settings) (s : state)
    (f : fact) : Prop :=
  settled_rt ds (fw s) (fact_zone f) (fact_rule f)
  ∧ ok_pm ds P0 s (fact_key f) (fact_rule f).

(** Binding one of the interfaces [T] unbinds it elsewhere. *)
Definition moved (ds : intent) (T : list string) (r : rule) : Prop :=
  ds = enabled ∧ ∃ j, r = Interface j ∧ j ∈ T.

(** What a piece of a pass with intent [ds] that handles the interfaces [T]
    keeps: the connection manager, the default zone, every settled rule
    other than the bindings of [T], and, when it handles no interface, all
    bindings. *)
Record calm (ds : intent) (T : list string) (s s' : state) : Prop := {
  calm_nm : nm s' = nm s;
  calm_default_zone : default_zone (fw s') = default_zone (fw s);
  calm_runtime : ∀ z r, ¬ moved ds T r →
    settled_rt ds (fw s) z r → settled_rt ds (fw s') z r;
  calm_bindings : T = [] → bindings (fw s') = bindings (fw s)
}.

(** The invariant of a pass that achieves the facts [fs]. *)
Record inv (ds : intent) (P0 : gmap string settings) (zone : string)
    (n : netman) (fs : list fact) (s : state) : Prop := {
  inv_wf : wf P0 zone s;
  inv_grown : grown ds P0 s;
  inv_nm : nm s = n;
  inv_facts : Forall (holds ds P0 s) fs
}.

(** The facts that a pass has to achieve, category by category. *)
Definition nominal_facts (zone : string) (rs : list rule) : list fact :=
  (λ r, Fact zone zone r) <$> rs.

Definition interface_facts (fixed : string) (items : list string)
  : list fact :=
  (λ i, Fact fixed fixed (Interface i)) <$> items.

Definition forward_fact (d : daemon) (zone : string) (item : forward_rule)
  : fact :=
  Fact (forward_zone d zone item.1.1.1.1)
    (settings_zone zone (forward_zone d zone item.1.1.1.1))
    (forward_rule_of item).

Definition facts_of (d : daemon) (zone : string) (service : list string)
    (port : list (string * string)) (trust masq : list string)
    (forward_port : list forward_rule) : list fact :=
  nominal_facts zone (rules_of service port)
  ++ interface_facts "trusted" trust
  ++ interface_facts "external" masq
  ++ (forward_fact d zone <$> forward_port).

(** A fact is settled in both layers of the daemon. *)
Definition settled (ds : intent) (d : daemon) (f : fact) : Prop :=
  settled_rt ds d (fact_zone f) (fact_rule f)
  ∧ settled_pm ds d (fact_key f) (fact_rule f).




(** A desired state that holds one rule, as a string of one of the five
    parameters. *)
Inductive single_rule : Type :=
| OneService (name : string)
| OnePort (port_proto : string)
| OneTrust (interface : string)
| OneMasq (interface : string)
| OneForwardPort (item : string).

Definition only (r : single_rule) (zone : option string) (ds : intent)
  : params :=
  match r with
  | OneService name => Params [name] [] [] [] [] zone ds
  | OnePort port_proto => Params [] [port_proto] [] [] [] zone ds
  | OneTrust interface => Params [] [] [interface] [] [] zone ds
  | OneMasq interface => Params [] [] [] [interface] [] zone ds
  | OneForwardPort item => Params [] [] [] [] [item] zone ds
  end.

(** No runtime zone holds the interface. *)
Definition unbound (d : daemon) (interface : string) : Prop :=
  ∀ z x, runtime d !! z = Some x → has x (Interface interface) = false.

(** Neither layer has the rule in the zone that it resolves to on the
    daemon [d]; for a trust or masquerade rule that the fast path does not
    take over, the interface moreover is bound to no runtime zone. *)
Definition absent (e : env) (n : netman) (d : daemon) (zone : string)
    (r : single_rule) : Prop :=
  match r with
  | OneService name =>
      settled_rt disabled d zone (Service name)
      ∧ settled_pm disabled d zone (Service name)
  | OnePort port_proto =>
      ∀ pp, parse_port port_proto = Ret pp →
        settled_rt disabled d zone (Port pp.1 pp.2)
        ∧ settled_pm disabled d zone (Port pp.1 pp.2)
  | OneTrust interface =>
      fast_path e n interface = false →
      unbound d interface
      ∧ settled_rt disabled d "trusted" (Interface interface)
      ∧ settled_pm disabled d "trusted" (Interface interface)
  | OneMasq interface =>
      fast_path e n interface = false →
      unbound d interface
      ∧ settled_rt disabled d "external" (Interface interface)
      ∧ settled_pm disabled d "external" (Interface interface)
  | OneForwardPort item =>
      ∀ fr, parse_forward_port item None = Ret fr →
        (forward_zone d zone fr.1.1.1.1 = "" → zone = "")
        ∧ settled_rt disabled d (forward_zone d zone fr.1.1.1.1)
            (forward_rule_of fr)
        ∧ settled_pm disabled d (forward_zone d zone fr.1.1.1.1)
            (forward_rule_of fr)
  end.

(** The runtime call of a rule with intent [enabled], on the daemon [d]:
    it adds [r] to the runtime zone [z]. *)
Definition adds (half : M unit) (d : daemon) (z : string) (r : rule)
    (x : settings) : Prop :=
  ∀ s, fw s = d →
    ∃ s1, half s = (Ret tt, s1)
      ∧ fw s1 = set_runtime (<[rt_zone d z := with_rule x r]> (runtime d)) d
      ∧ nm s1 = nm s ∧ heap s1 = heap s
      ∧ changed_zones s1 = changed_zones s.

(** The runtime call of a rule with intent [disabled]: it removes [r] from
    a runtime zone [z] that has it. *)
Definition removes (half : M unit) (z : string) (r : rule) : Prop :=
  ∀ s x, runtime (fw s) !! rt_zone (fw s) z = Some x → has x r = true →
    ∃ s1, half s = (Ret tt, s1)
      ∧ fw s1 = set_runtime
                  (<[rt_zone (fw s) z := without_rule x r]> (runtime (fw s)))
                  (fw s)
      ∧ nm s1 = nm s ∧ heap s1 = heap s
      ∧ changed_zones s1 = changed_zones s.

(* SCENARIOS-END *)

(** * Properties *)

(** ** Splitting *)


Lemma split_not_nil sep s : split sep s ≠ [].
Proof. destruct s as [|c s]; simpl; [done|]. by repeat case_match. Qed.

Lemma split_free sep s : free_of sep s = true → split sep s = [s].
Proof.
  induction s as [|c s IH]; simpl; [done|].
  intros [Hc Hs]%andb_prop. apply negb_true_iff in Hc. rewrite Hc.
  by rewrite (IH Hs).
Qed.

Lemma split_app_sep sep a b :
  free_of sep a = true → split sep (a +:+ String sep b) = a :: split sep b.
Proof.
  induction a as [|c a IH]; simpl.
  - intros _. by rewrite Ascii.eqb_refl.
  - intros [Hc Ha]%andb_prop. apply negb_true_iff in Hc. rewrite Hc.
    by rewrite (IH Ha).
Qed.

(** Splitting undoes joining, as in Python, when no field holds the
    separator. *)
Lemma split_join sep l :
  l ≠ [] → Forall (λ w, free_of sep w = true) l → split sep (join sep l) = l.
Proof.
  induction l as [|w l IH]; [done|]. intros _ Hall.
  apply Forall_cons in Hall as [Hw Hl]. destruct l as [|w' l].
  - simpl. by apply split_free.
  - change (join sep (w :: w' :: l)) with (w +:+ String sep (join sep (w' :: l))).
    rewrite split_app_sep by done. by rewrite IH.
Qed.

(** ** The normalizer *)

Lemma none_if_empty_empty : none_if_empty "" = None.
Proof. reflexivity. Qed.

Lemma none_if_empty_other x : x ≠ "" → none_if_empty x = Some x.
Proof. intros. unfold none_if_empty. by case_decide. Qed.




Lemma parse_port_never_fail_json port_proto m :
  parse_port port_proto ≠ FailJson m.
Proof.
  unfold parse_port, unpack2.
  by destruct (split "/" port_proto) as [|a [|b [|c l]]].
Qed.

(** C7. The guard [if _protocol is None] never fires: a port string whose
    protocol part is empty is accepted with the empty protocol, here and for
    the port field of a forward-port string, and a port string without [/]
    ends in the [ValueError] of the tuple unpacking, not in [fail_json]. *)
Theorem parse_port_empty_protocol_accepted :
  parse_port "80/" = Ret ("80", "")
  ∧ parse_forward_port "eth0;8080/;9090;10.0.0.5" None
    = Ret ("eth0", "8080", "", Some "9090", Some "10.0.0.5")
  ∧ parse_port "80" = Raised ValueError
  ∧ parse_port "80/tcp" = Ret ("80", "tcp").
Proof. repeat split; reflexivity. Qed.

(** ** The connection-manager fast path *)

(** C6, as amended. [try_set_zone_of_interface] never leaves the module;
    without the integration, with the subsystem inactive, when the lookup
    fails and when no connection owns the interface it returns [False]; when
    a connection is found the zone is set outside the [try], so the call
    returns [True] if setting succeeds and lets the exception through if it
    does not. *)
Theorem try_set_zone_of_interface_outcome
    (e : env) (_zone interface : string) (s : state) :
  let r := (try_set_zone_of_interface e _zone interface s).1 in
  (HAS_FIREWALLD_NM e = false → r = Ret false)
  ∧ (nm_imported (nm s) = false → r = Ret false)
  ∧ (∀ x, nm_connection_of (nm s) interface = LookupFails x → r = Ret false)
  ∧ (nm_connection_of (nm s) interface = NoConnection → r = Ret false)
  ∧ (∀ c, HAS_FIREWALLD_NM e = true → nm_imported (nm s) = true →
          nm_connection_of (nm s) interface = Connection c →
          match nm_set_fails (nm s) _zone c with
          | None => r = Ret true
          | Some x => r = Raised x
          end).
Proof.
  unfold try_set_zone_of_interface, try_except_else,
    nm_get_connection_of_interface, nm_set_zone_of_connection, nm_is_imported,
    bind, called, modify, gets, ret, raise.
  destruct (HAS_FIREWALLD_NM e), (nm_imported (nm s)) eqn:Hi; simpl;
    rewrite ?Hi; simpl;
    destruct (nm_connection_of (nm s) interface) eqn:Hc; simpl;
    repeat split; try done; intros c' _ _ [= <-];
    by destruct (nm_set_fails (nm s) _zone c).
Qed.

(** C6, as stated, fails: the connection manager knows a connection for
    [eth0] but refuses to store its zone, and the exception leaves
    [try_set_zone_of_interface] and ends the whole pass. *)
Lemma try_set_zone_of_interface_raises :
  (try_set_zone_of_interface with_nm "trusted" "eth0"
     (start host nm_eth0_readonly)).1
  = Raised (ForeignError "commit_changes")
  ∧ (run with_nm (Params [] [] ["eth0"] [] [] None enabled)
         host nm_eth0_readonly).1
    = Raised (ForeignError "commit_changes").
Proof. split; reflexivity. Qed.

Lemma try_set_zone_of_interface_outcome_witness :
  (try_set_zone_of_interface with_nm "trusted" "eth0" (start host nm_eth0)).1
  = Ret true
  ∧ (try_set_zone_of_interface with_nm "trusted" "eth1"
       (start host nm_eth0)).1 = Ret false.
Proof.
  split.
  - exact (proj2 (proj2 (proj2 (proj2
      (try_set_zone_of_interface_outcome with_nm "trusted" "eth0"
         (start host nm_eth0))))) "uuid-eth0" eq_refl eq_refl eq_refl).
  - exact (proj1 (proj2 (proj2 (proj2
      (try_set_zone_of_interface_outcome with_nm "trusted" "eth1"
         (start host nm_eth0))))) eq_refl).
Defined.

(** ** The runtime layer and the changed flag *)

(** C1. [http] is allowed in the runtime layer of the default zone and
    absent from its permanent settings. Disabling it removes it from the
    runtime layer, and the pass reports [changed = False]; the same pass for
    a port reports [changed = True]. *)
Theorem service_runtime_removal_unreported :
  let p := Params ["http"] [] [] [] [] None disabled in
  let r := run plain p host_http_runtime no_nm in
  r.1 = ExitJson false
  ∧ calls r.2 = [GetDefaultZone; GetZoneByName "public"; GetSettings "public";
                 Query "public" (Service "http");
                 Remove "public" (Service "http")]
  ∧ runtime host_http_runtime !! "public"
    = Some (with_rule empty_settings (Service "http"))
  ∧ runtime (fw r.2) !! "public" = Some empty_settings
  ∧ (run plain (Params [] ["8080/tcp"] [] [] [] None disabled)
         host_port_runtime no_nm).1 = ExitJson true.
Proof. vm_compute. repeat split; reflexivity. Qed.

(** ** Zone resolution *)

(** C5. A forward rule names the interface [eth9], which no zone owns, and
    the nominal zone is [dmz]. The pass asks the daemon for the owner and
    gets the empty name; the runtime calls are made with the empty name,
    which the daemon reads as its default zone [public], so the rule lands
    in [public] and not in [dmz]; the settings object of [dmz] is mutated but
    recorded under the empty name, and the write-back fails on it, leaving
    the permanent layer of [dmz] as it was. *)
Theorem forward_port_unowned_interface_misses_nominal_zone :
  let rule := ForwardPort "8080" "tcp" None None in
  let p := Params [] [] [] [] ["eth9;8080/tcp;;"] (Some "dmz") enabled in
  let r := run plain p host no_nm in
  zone_of_interface host "eth9" = ""
  ∧ r.1 = FailJson "INVALID_ZONE: "
  ∧ calls r.2 = [GetDefaultZone; GetZones; GetZoneNames;
                 GetZoneByName "dmz"; GetSettings "dmz";
                 GetZoneOfInterface "eth9";
                 Query "" rule; Add "" rule; GetZoneByName ""]
  ∧ runtime (fw r.2) !! "public" = Some (with_rule empty_settings rule)
  ∧ runtime (fw r.2) !! "dmz" = Some empty_settings
  ∧ permanent (fw r.2) = permanent host
  ∧ changed_zones r.2 = [("", 0)].
Proof. vm_compute. repeat split; reflexivity. Qed.


Lemma parse_all_not_exit {A : Type} (f : string → outcome A) l c :
  (∀ x c', f x ≠ ExitJson c') → parse_all f l ≠ ExitJson c.
Proof.
  intros Hf. induction l as [|x l IH]; simpl; [done|].
  destruct (f x) eqn:Hx; try done; [|by apply Hf in Hx].
  by destruct (parse_all f l).
Qed.

Lemma parse_port_not_exit x c : parse_port x ≠ ExitJson c.
Proof.
  unfold parse_port, unpack2.
  by destruct (split "/" x) as [|? [|? [|? ?]]].
Qed.

Lemma parse_forward_port_not_exit x c : parse_forward_port x None ≠ ExitJson c.
Proof.
  unfold parse_forward_port, unpack2.
  destruct (split ";" x) as [|a [|b [|? [|? [|? ?]]]]]; simpl; try done.
  - by destruct (split "/" a) as [|? [|? [|? ?]]].
  - by destruct (split "/" b) as [|? [|? [|? ?]]].
Qed.

(** ** Check mode *)

Lemma grows_ret {A : Type} (a : A) : grows (ret a).
Proof. by intros s. Qed.

Lemma grows_bind {A B : Type} (m : M A) (k : A → M B) :
  grows m → (∀ a, grows (k a)) → grows (bind m k).
Proof.
  intros Hm Hk s. unfold bind. specialize (Hm s).
  destruct (m s) as [[a| | |] s'] eqn:Hms; simpl in *; try done.
  etrans; [exact Hm|apply Hk].
Qed.

Lemma grows_gets {A : Type} (f : state → A) : grows (gets f).
Proof. by intros s. Qed.

Lemma grows_modify (f : state → state) :
  (∀ s, calls s `prefix_of` calls (f s)) → grows (modify f).
Proof. intros Hf s. apply Hf. Qed.

Lemma grows_called c : grows (called c).
Proof. intros s. simpl. by apply prefix_app_r. Qed.

Lemma grows_exit_json {A : Type} c : grows (@exit_json A c).
Proof. by intros s. Qed.

Lemma grows_fail_json {A : Type} msg : grows (@fail_json A msg).
Proof. by intros s. Qed.

Lemma grows_raise {A : Type} x : grows (@raise A x).
Proof. by intros s. Qed.

Lemma grows_lift {A : Type} (o : outcome A) : grows (lift o).
Proof. by intros s. Qed.

Lemma grows_when b m : grows m → grows (when b m).
Proof. destruct b; [done|]. intros _. apply grows_ret. Qed.

Lemma grows_for_each {A : Type} (l : list A) body :
  (∀ x, grows (body x)) → grows (for_each l body).
Proof.
  intros Hb. induction l as [|x l IH]; simpl; [apply grows_ret|].
  by apply grows_bind.
Qed.

Lemma grows_try_except_else {A B : Type} (m : M A) (h : M B) (k : A → M B) :
  grows m → grows h → (∀ a, grows (k a)) → grows (try_except_else m h k).
Proof.
  intros Hm Hh Hk s. unfold try_except_else. specialize (Hm s).
  destruct (m s) as [[a| | |] s'] eqn:Hms; simpl in *; try done.
  - etrans; [exact Hm|apply Hk].
  - etrans; [exact Hm|apply Hh].
Qed.

Create HintDb grows discriminated.

#[local] Hint Resolve grows_ret grows_bind grows_gets grows_called
  grows_exit_json grows_fail_json grows_raise grows_lift grows_when
  grows_for_each grows_try_except_else : grows.

#[local] Hint Extern 1 (grows (modify _)) =>
  apply grows_modify; intros ?; reflexivity : grows.
#[local] Hint Extern 2 (grows (match ?x with _ => _ end)) =>
  destruct x : grows.
#[local] Hint Extern 2 (grows (if ?x then _ else _)) =>
  destruct x : grows.
#[local] Hint Extern 3 (grows (let* _ := _ in _)) =>
  apply grows_bind; [|intros ?] : grows.
#[local] Hint Extern 4 (grows (_ _)) => progress simpl : grows.

Ltac grow := repeat (intros; eauto 20 with grows).

Lemma grows_invalid_zone {A : Type} z : grows (@invalid_zone A z).
Proof. apply grows_fail_json. Qed.
#[local] Hint Resolve grows_invalid_zone : grows.

Lemma grows_fw_query z r : grows (fw_query z r).
Proof. unfold fw_query. grow. Qed.

Lemma grows_rt_alter f z : grows (rt_alter f z).
Proof. unfold rt_alter. grow. Qed.
#[local] Hint Resolve grows_fw_query grows_rt_alter : grows.

Lemma grows_fw_add z r : grows (fw_add z r).
Proof. unfold fw_add. grow. Qed.

Lemma grows_fw_remove z r : grows (fw_remove z r).
Proof. unfold fw_remove. grow. Qed.

Lemma grows_fw_changeZoneOfInterface z i : grows (fw_changeZoneOfInterface z i).
Proof. unfold fw_changeZoneOfInterface. grow. Qed.

Lemma grows_fw_getZoneOfInterface i : grows (fw_getZoneOfInterface i).
Proof. unfold fw_getZoneOfInterface. grow. Qed.

Lemma grows_config_getZoneByName z : grows (config_getZoneByName z).
Proof. unfold config_getZoneByName. grow. Qed.

Lemma grows_zone_getSettings z : grows (zone_getSettings z).
Proof. unfold zone_getSettings. grow. Qed.

Lemma grows_zone_update z o : grows (zone_update z o).
Proof. unfold zone_update. grow. Qed.

Lemma grows_settings_query o r : grows (settings_query o r).
Proof. unfold settings_query. grow. Qed.

Lemma grows_settings_add o r : grows (settings_add o r).
Proof. unfold settings_add. grow. Qed.

Lemma grows_settings_remove o r : grows (settings_remove o r).
Proof. unfold settings_remove. grow. Qed.

Lemma grows_mark_changed : grows mark_changed.
Proof. unfold mark_changed. grow. Qed.

Lemma grows_register z o : grows (register z o).
Proof. unfold register. grow. Qed.

#[local] Hint Resolve grows_fw_add grows_fw_remove
  grows_fw_changeZoneOfInterface grows_fw_getZoneOfInterface
  grows_config_getZoneByName grows_zone_getSettings grows_zone_update
  grows_settings_query grows_settings_add grows_settings_remove
  grows_mark_changed grows_register : grows.

Lemma grows_try_set_zone_of_interface e z i :
  grows (try_set_zone_of_interface e z i).
Proof.
  unfold try_set_zone_of_interface, nm_is_imported,
    nm_get_connection_of_interface, nm_set_zone_of_connection.
  grow.
Qed.

Lemma grows_reconcile_permanent ds z o r : grows (reconcile_permanent ds z o r).
Proof. unfold reconcile_permanent. grow. Qed.

Lemma grows_settings_of_zone z : grows (settings_of_zone z).
Proof. unfold settings_of_zone. grow. Qed.

#[local] Hint Resolve grows_try_set_zone_of_interface
  grows_reconcile_permanent grows_settings_of_zone : grows.

Lemma grows_service_item ds z o item : grows (service_item ds z o item).
Proof. unfold service_item. grow. Qed.

Lemma grows_port_item ds z o item : grows (port_item ds z o item).
Proof. unfold port_item. destruct item. grow. Qed.

Lemma grows_interface_item e ds z o item : grows (interface_item e ds z o item).
Proof. unfold interface_item. grow. Qed.

Lemma grows_forward_port_item ds z o item :
  grows (forward_port_item ds z o item).
Proof. unfold forward_port_item. destruct item as [[[[? ?] ?] ?] ?]. grow. Qed.

#[local] Hint Resolve grows_service_item grows_port_item grows_interface_item
  grows_forward_port_item : grows.

Lemma grows_interface_section e ds z o fixed items :
  grows (interface_section e ds z o fixed items).
Proof. unfold interface_section, fixed_zone. grow. Qed.

Lemma grows_apply_changes : grows apply_changes.
Proof. unfold apply_changes. grow. Qed.

#[local] Hint Resolve grows_interface_section grows_apply_changes : grows.

Lemma early_refl {A : Type} X (m : M A) : early X m m.
Proof. intros s. by left. Qed.

Lemma early_bind {A B : Type} X (m1 m0 : M A) (k1 k0 : A → M B) :
  early X m1 m0 → (∀ a, early X (k1 a) (k0 a)) → (∀ a, grows (k0 a)) →
  early X (bind m1 k1) (bind m0 k0).
Proof.
  intros Hm Hk Hg s. unfold bind.
  destruct (Hm s) as [Heq|(Hx & HX & Hpre)].
  - rewrite Heq. destruct (m0 s) as [[a| | |] s']; try by left. apply Hk.
  - destruct (m1 s) as [o1 s1]. simpl in *. subst o1. right.
    split; [done|]. split; [done|].
    destruct (m0 s) as [[a| | |] s0]; simpl in *; try done.
    etrans; [exact Hpre|apply Hg].
Qed.

Lemma early_when X b (m1 m0 : M unit) :
  early X m1 m0 → early X (when b m1) (when b m0).
Proof. destruct b; [done|]. intros _. apply early_refl. Qed.

Lemma early_for_each {A : Type} X (l : list A) (b1 b0 : A → M unit) :
  (∀ x, early X (b1 x) (b0 x)) → (∀ x, grows (b0 x)) →
  early X (for_each l b1) (for_each l b0).
Proof.
  intros Hb Hg. induction l as [|x l IH]; simpl; [apply early_refl|].
  apply early_bind; [done|done|]. intros _. by apply grows_for_each.
Qed.

(** A call that returned [True] ended with the zone being set. *)
Lemma try_set_zone_of_interface_true e z i s s' :
  try_set_zone_of_interface e z i s = (Ret true, s') →
  ∃ c, last (calls s') = Some (NmSetZoneOfConnection z c).
Proof.
  unfold try_set_zone_of_interface, try_except_else, nm_is_imported,
    nm_get_connection_of_interface, nm_set_zone_of_connection, bind, called,
    modify, gets, ret, raise.
  destruct (HAS_FIREWALLD_NM e); simpl; [|done].
  destruct (nm_imported (nm s)); simpl; [|done].
  destruct (nm_connection_of (nm s) i) as [x| |c]; simpl; try done.
  destruct (nm_set_fails (nm s) z c); simpl; [done|].
  intros [= <-]. exists c. simpl. by rewrite last_snoc.
Qed.

Lemma early_interface_item hf hn ds z o item :
  early (λ s, ds = disabled ∧ after_zone_reset s)
    (interface_item (Env hf hn true) ds z o item)
    (interface_item (Env hf hn false) ds z o item).
Proof.
  destruct ds; [apply early_refl|]. intros s.
  unfold interface_item, bind.
  change (try_set_zone_of_interface (Env hf hn true) "" item s)
    with (try_set_zone_of_interface (Env hf hn false) "" item s).
  destruct (try_set_zone_of_interface (Env hf hn false) "" item s)
    as [[[|]| | |] s'] eqn:Hfast; try by left.
  right. simpl. repeat split; try done.
  by apply try_set_zone_of_interface_true in Hfast.
Qed.

Lemma early_interface_section hf hn ds z o fixed items :
  early (λ s, ds = disabled ∧ after_zone_reset s)
    (interface_section (Env hf hn true) ds z o fixed items)
    (interface_section (Env hf hn false) ds z o fixed items).
Proof.
  unfold interface_section. apply early_when.
  apply early_bind; [apply early_refl| |].
  - intros zs. apply early_for_each; [|grow].
    intros x. apply early_interface_item.
  - grow.
Qed.

Lemma early_reconcile hf hn ds z o service port trust masq forward_port :
  early (λ s, ds = disabled ∧ after_zone_reset s)
    (reconcile (Env hf hn true) ds z o service port trust masq forward_port)
    (reconcile (Env hf hn false) ds z o service port trust masq forward_port).
Proof.
  unfold reconcile.
  do 4 (apply early_bind; [apply early_refl|intros ?|grow]).
  apply early_bind; [apply early_interface_section|intros ?|grow].
  apply early_bind; [apply early_interface_section|intros ?|grow].
  apply early_refl.
Qed.

Lemma grows_reconcile e ds z o service port trust masq forward_port :
  grows (reconcile e ds z o service port trust masq forward_port).
Proof. unfold reconcile. grow. Qed.

Lemma grows_nominal_zone z dz : grows (nominal_zone z dz).
Proof.
  unfold nominal_zone, fw_getZones, config_getZoneNames. grow.
Qed.

Lemma grows_fw_getDefaultZone : grows fw_getDefaultZone.
Proof. unfold fw_getDefaultZone. grow. Qed.

#[local] Hint Resolve grows_reconcile grows_nominal_zone
  grows_fw_getDefaultZone : grows.

Lemma early_main hf hn p :
  early (λ s, param_state p = disabled ∧ after_zone_reset s)
    (main (Env hf hn true) p) (main (Env hf hn false) p).
Proof.
  unfold main. simpl.
  do 3 (apply early_bind; [apply early_refl|intros ?|grow]).
  destruct hf; [|apply early_refl].
  do 6 (apply early_bind; [apply early_refl|intros ?|grow]).
  apply early_reconcile.
Qed.

Lemma triple_ret {A : Type} (P : state → Prop) (a : A) Q X F :
  (∀ s, P s → Q a s) → triple P (ret a) Q X F.
Proof. intros H s Hs. by apply H. Qed.

Lemma triple_bind {A B : Type} P (m : M A) (k : A → M B) Q1 Q X F :
  triple P m Q1 X F → (∀ a, triple (Q1 a) (k a) Q X F) →
  triple P (bind m k) Q X F.
Proof.
  intros Hm Hk s Hs. unfold bind. specialize (Hm s Hs).
  destruct (m s) as [[a| | |] s']; try done. by apply Hk.
Qed.

Lemma triple_conseq {A : Type} (P P' : state → Prop) (m : M A)
    (Q Q' : A → state → Prop) (X X' : bool → state → Prop)
    (F F' : state → Prop) :
  triple P' m Q' X' F' →
  (∀ s, P s → P' s) → (∀ a s, Q' a s → Q a s) →
  (∀ c s, X' c s → X c s) → (∀ s, F' s → F s) →
  triple P m Q X F.
Proof.
  intros Hm HP HQ HX HF s Hs. specialize (Hm s (HP s Hs)).
  destruct (m s) as [[a| | |] s']; auto.
Qed.

Lemma triple_when (P : state → Prop) b m (Q : unit → state → Prop) X F :
  (b = true → triple P m Q X F) → (b = false → ∀ s, P s → Q tt s) →
  triple P (when b m) Q X F.
Proof.
  destruct b; simpl; intros Ht Hf; [by apply Ht|].
  apply triple_ret. by apply Hf.
Qed.

(** A loop whose invariant is indexed by the elements already done. *)
Lemma triple_for_each {A : Type} (I : list A → state → Prop)
    (l : list A) body X F :
  (∀ pre x post, l = pre ++ x :: post →
     triple (I pre) (body x) (λ _, I (pre ++ [x])) X F) →
  triple (I []) (for_each l body) (λ _, I l) X F.
Proof.
  intros Hb.
  assert (Hgen : ∀ post pre, l = pre ++ post →
            triple (I pre) (for_each post body) (λ _, I l) X F).
  { induction post as [|x post IH]; intros pre Hl; simpl.
    - apply triple_ret. intros s. by rewrite Hl, app_nil_r.
    - eapply triple_bind; [by apply (Hb pre x post)|]. intros []. apply IH.
      by rewrite <- app_assoc. }
  by apply Hgen.
Qed.

Lemma triple_frame {A : Type} (I : state → Prop) (m : M A) :
  frame m → stable I → triple I m (λ _, I) (λ _ _, False) (λ _, True).
Proof.
  intros Hm HI s Hs. destruct (Hm s) as (Hcore & Hch & Hx).
  destruct (m s) as [[a| | |] s']; simpl in *; try done.
  - by eapply HI.
  - by eapply Hx.
Qed.

Lemma frame_ret {A : Type} (a : A) : frame (ret a).
Proof. by intros s. Qed.

Lemma frame_bind {A B : Type} (m : M A) (k : A → M B) :
  frame m → (∀ a, frame (k a)) → frame (bind m k).
Proof.
  intros Hm Hk s. unfold bind. destruct (Hm s) as (Hc & Hch & Hx).
  destruct (m s) as [[a| | |] s'] eqn:Hms; simpl in *; try done.
  - destruct (Hk a s') as (Hc' & Hch' & Hx').
    repeat split; [congruence|auto|done].
  - by destruct (Hx changed0).
Qed.

Lemma frame_gets {A : Type} (f : state → A) : frame (gets f).
Proof. by intros s. Qed.

Lemma frame_modify (f : state → state) :
  (∀ s, core (f s) = core s ∧ (changed s = true → changed (f s) = true)) →
  frame (modify f).
Proof. intros Hf s. destruct (Hf s). by repeat split. Qed.

Lemma frame_fail_json {A : Type} msg : frame (@fail_json A msg).
Proof. by intros s. Qed.

Lemma frame_raise {A : Type} x : frame (@raise A x).
Proof. by intros s. Qed.

Lemma frame_when b m : frame m → frame (when b m).
Proof. destruct b; [done|]. intros _. apply frame_ret. Qed.

Lemma frame_try_except_else {A B : Type} (m : M A) (h : M B) (k : A → M B) :
  frame m → frame h → (∀ a, frame (k a)) → frame (try_except_else m h k).
Proof.
  intros Hm Hh Hk s. unfold try_except_else.
  destruct (Hm s) as (Hc & Hch & Hx).
  destruct (m s) as [[a| | |] s'] eqn:Hms; simpl in *; try done.
  - destruct (Hk a s') as (Hc' & Hch' & Hx').
    repeat split; [congruence|auto|done].
  - by destruct (Hx changed0).
  - destruct (Hh s') as (Hc' & Hch' & Hx').
    repeat split; [congruence|auto|done].
Qed.

Lemma core_add_call c s :
  match c with GetSettings _ | Update _ _ => False | _ => True end →
  core (add_call c s) = core s.
Proof.
  intros Hc. unfold core, fetched, updates. simpl.
  rewrite !omap_app. destruct c; try done; simpl; by rewrite !app_nil_r.
Qed.

Lemma frame_called c :
  match c with GetSettings _ | Update _ _ => False | _ => True end →
  frame (called c).
Proof. intros Hc s. repeat split; [by apply core_add_call|done..]. Qed.

Create HintDb frame discriminated.

#[local] Hint Resolve frame_ret frame_bind frame_gets
  frame_fail_json frame_raise frame_when frame_try_except_else : frame.
#[local] Hint Extern 1 (frame (called _)) =>
  apply frame_called; exact I : frame.
#[local] Hint Extern 1 (frame (modify _)) =>
  apply frame_modify; intros ?; split; [reflexivity|simpl; auto] : frame.
#[local] Hint Extern 2 (frame (match ?x with _ => _ end)) =>
  destruct x : frame.
#[local] Hint Extern 2 (frame (if ?x then _ else _)) => destruct x : frame.
#[local] Hint Extern 3 (frame (let* _ := _ in _)) =>
  apply frame_bind; [|intros ?] : frame.

Ltac framed := repeat (intros; eauto 20 with frame).

Lemma frame_invalid_zone {A : Type} z : frame (@invalid_zone A z).
Proof. apply frame_fail_json. Qed.
#[local] Hint Resolve frame_invalid_zone : frame.

Lemma frame_fw_query z r : frame (fw_query z r).
Proof. unfold fw_query. framed. Qed.

Lemma frame_rt_alter f z : frame (rt_alter f z).
Proof.
  intros s. unfold rt_alter, bind, gets, modify, invalid_zone, fail_json.
  simpl. by destruct (runtime (fw s) !! rt_zone (fw s) z).
Qed.
#[local] Hint Resolve frame_fw_query frame_rt_alter : frame.

Lemma frame_fw_add z r : frame (fw_add z r).
Proof. unfold fw_add. framed. Qed.

Lemma frame_fw_remove z r : frame (fw_remove z r).
Proof. unfold fw_remove. framed. Qed.

Lemma frame_fw_changeZoneOfInterface z i : frame (fw_changeZoneOfInterface z i).
Proof.
  intros s.
  unfold fw_changeZoneOfInterface, bind, called, gets, modify, invalid_zone,
    fail_json.
  simpl. case_match; simpl; (repeat split; [|done..]);
    unfold core, fetched, updates; simpl; rewrite !omap_app; simpl;
    by rewrite !app_nil_r.
Qed.

Lemma frame_fw_getZoneOfInterface i : frame (fw_getZoneOfInterface i).
Proof. unfold fw_getZoneOfInterface. framed. Qed.

Lemma frame_config_getZoneByName z : frame (config_getZoneByName z).
Proof. unfold config_getZoneByName. framed. Qed.

Lemma frame_mark_changed : frame mark_changed.
Proof. unfold mark_changed. framed. Qed.

Lemma frame_try_set_zone_of_interface e z i :
  frame (try_set_zone_of_interface e z i).
Proof.
  unfold try_set_zone_of_interface, nm_is_imported,
    nm_get_connection_of_interface, nm_set_zone_of_connection.
  framed.
Qed.

#[local] Hint Resolve frame_fw_add frame_fw_remove
  frame_fw_changeZoneOfInterface frame_fw_getZoneOfInterface
  frame_config_getZoneByName frame_mark_changed
  frame_try_set_zone_of_interface : frame.

(** *** The dict of changed zones *)

Lemma dict_get_set_eq k v d : dict_get k (dict_set k v d) = Some v.
Proof.
  induction d as [|[k' v'] d IH]; simpl; repeat case_decide; simpl;
    repeat case_decide; congruence.
Qed.

Lemma dict_get_set_ne k k' v d :
  k ≠ k' → dict_get k' (dict_set k v d) = dict_get k' d.
Proof.
  intros Hne. induction d as [|[k'' v''] d IH]; simpl; repeat case_decide;
    simpl; repeat case_decide; congruence.
Qed.

Lemma dict_set_keys k v d :
  (dict_set k v d).*1 = if decide (k ∈ d.*1) then d.*1 else d.*1 ++ [k].
Proof.
  induction d as [|[k' v'] d IH].
  - cbn [dict_set fmap list_fmap fst].
    destruct (decide (k ∈ [])) as [Hin|]; [|done]. by apply elem_of_nil in Hin.
  - cbn [dict_set]. destruct (decide (k' = k)) as [->|Hne].
    + rewrite !fmap_cons. cbn [fst].
      destruct (decide (k ∈ k :: d.*1)) as [|Hin]; [done|].
      destruct Hin. apply elem_of_cons. by left.
    + rewrite !fmap_cons, IH. cbn [fst].
      destruct (decide (k ∈ d.*1)) as [Hin|Hnin];
        destruct (decide (k ∈ k' :: d.*1)) as [Hin'|Hnin']; try done.
      * destruct Hnin'. apply elem_of_cons. by right.
      * apply elem_of_cons in Hin' as [?|?]; congruence.
Qed.

Lemma dict_set_NoDup k v d : NoDup d.*1 → NoDup (dict_set k v d).*1.
Proof.
  intros Hd. rewrite dict_set_keys. case_decide; [done|].
  apply NoDup_app. repeat split; [done| |apply NoDup_singleton].
  intros x Hx ->%list_elem_of_singleton. done.
Qed.

Lemma dict_set_not_nil k v d : dict_set k v d ≠ [].
Proof. destruct d as [|[k' v'] d]; simpl; [done|]. by case_decide. Qed.

Lemma dict_get_Some_elem k v d : dict_get k d = Some v → (k, v) ∈ d.
Proof.
  induction d as [|[k' v'] d IH]; simpl; [done|].
  case_decide as Heq.
  - subst k'. intros [= ->]. apply elem_of_cons. by left.
  - intros H. apply elem_of_cons. right. by apply IH.
Qed.

Lemma dict_get_elem k v d : NoDup d.*1 → (k, v) ∈ d → dict_get k d = Some v.
Proof.
  induction d as [|[k' v'] d IH]; simpl.
  - by intros _ ?%elem_of_nil.
  - intros [Hk Hd]%NoDup_cons [[= -> ->]|Hin]%elem_of_cons.
    + case_decide; congruence.
    + case_decide as Heq; [|by apply IH]. subst k'.
      destruct Hk. apply list_elem_of_fmap. by exists (k, v).
Qed.

(** *** The permanent half of a rule *)

Lemma reconcile_permanent_run ds k o r s :
  reconcile_permanent ds k o r s
  = (Ret tt, if bool_decide (has (deref (heap s) o) r = wanted ds) then s
             else record_change ds k o r s).
Proof.
  unfold reconcile_permanent, settings_query, settings_add, settings_remove,
    mark_changed, register, record_change, bind, when, gets, modify, ret.
  destruct ds; simpl; destruct (has (deref (heap s) o) r); simpl; try done;
    by destruct s.
Qed.

(** *** The bookkeeping invariant *)

Section bookkeeping.
Context (P0 : gmap string settings) (zone : string).

Lemma stable_wf : stable (wf P0 zone).
Proof.
  intros s s' [= Hp Hh Hz Hf Hu] Hch [].
  unfold registered in *.
  split; unfold registered; rewrite ?Hp, ?Hh, ?Hz, ?Hf, ?Hu; auto.
Qed.

Lemma stable_live k o : stable (λ s, live s k o).
Proof.
  intros s s' [= Hp Hh Hz Hf Hu] Hch. unfold live, registered.
  by rewrite Hz, Hf.
Qed.

Lemma stable_and (I J : state → Prop) :
  stable I → stable J → stable (λ s, I s ∧ J s).
Proof. intros HI HJ s s' Hc Hch [? ?]. split; [eapply HI|eapply HJ]; eauto. Qed.

Lemma wf_live_nominal s : wf P0 zone s → live s zone 0.
Proof.
  intros Hwf. split.
  - destruct (decide (zone = "")); [by left|right].
    split; [done|]. by apply (wf_nominal _ _ _ Hwf).
  - intros o' Hreg.
    destruct (wf_registered _ _ _ Hwf _ _ Hreg) as [[_ ->]|[_ Hf]]; [done|].
    by apply (wf_nominal _ _ _ Hwf).
Qed.

Lemma wf_live_empty s : wf P0 zone s → live s "" 0.
Proof.
  intros Hwf. split; [by left|]. intros o' Hreg.
  by destruct (wf_registered _ _ _ Hwf _ _ Hreg) as [[_ ->]|[? _]].
Qed.

Lemma wf_record_change ds k o r s :
  wf P0 zone s → live s k o →
  wf P0 zone (record_change ds k o r s) ∧ live (record_change ds k o r s) k o.
Proof.
  intros Hwf [Horigin Honly].
  assert (Hreg' : ∀ k' o', registered (record_change ds k o r s) k' o' →
            (k' = k ∧ o' = o) ∨ (k' ≠ k ∧ registered s k' o')).
  { intros k' o'. unfold registered, record_change. simpl.
    destruct (decide (k = k')) as [<-|Hne].
    - rewrite dict_get_set_eq. intros [= <-]. by left.
    - rewrite dict_get_set_ne by done. intros ?. by right. }
  split; [split|split]; simpl.
  - apply Hwf.
  - rewrite length_insert. apply Hwf.
  - apply Hwf.
  - intros k' o' [[-> ->]|[Hne Hreg]]%Hreg'; [done|].
    by apply (wf_registered _ _ _ Hwf).
  - intros o' k' Hf.
    destruct (wf_objects _ _ _ Hwf _ _ Hf) as (x0 & Hx0 & Hcase).
    exists x0. split; [done|].
    unfold registered, record_change in *. simpl.
    destruct (decide (o' = o)) as [->|Hne].
    + right. destruct Horigin as [[-> ->]|[Hk Hfk]].
      * right. split; [done|]. apply dict_get_set_eq.
      * left. assert (k' = k) as -> by congruence. apply dict_get_set_eq.
    + rewrite list_lookup_insert_ne by done.
      destruct Hcase as [Hheap|[Hreg|[-> Hreg]]]; [by left| |].
      * right. left. destruct (decide (k = k')) as [<-|Hnk].
        -- by destruct Hne; apply Honly.
        -- by rewrite dict_get_set_ne.
      * right. right. split; [done|].
        destruct (decide (k = "")) as [->|Hnk].
        -- by destruct Hne; apply Honly.
        -- by rewrite dict_get_set_ne.
  - apply dict_set_NoDup, Hwf.
  - done.
  - apply Hwf.
  - done.
  - intros o' [[_ ->]|[Hne _]]%Hreg'; done.
Qed.

Lemma triple_reconcile_permanent ds k o r :
  triple (λ s, wf P0 zone s ∧ live s k o) (reconcile_permanent ds k o r)
    (λ _ s, wf P0 zone s ∧ live s k o) (λ _ _, False) (λ _, True).
Proof.
  intros s [Hwf Hlive]. rewrite reconcile_permanent_run.
  case_bool_decide; [done|]. by apply wf_record_change.
Qed.

Lemma triple_then_permanent {A : Type} (m : M A) ds k o r :
  frame m →
  triple (λ s, wf P0 zone s ∧ live s k o)
    (m ;; reconcile_permanent ds k o r)
    (λ _ s, wf P0 zone s ∧ live s k o) (λ _ _, False) (λ _, True).
Proof.
  intros Hm. eapply triple_bind.
  - apply triple_frame; [done|]. apply stable_and;
      [apply stable_wf|apply stable_live].
  - intros ?. apply triple_reconcile_permanent.
Qed.

Lemma wf_fetch k x s s' :
  wf P0 zone s → k ≠ zone → k ≠ "" →
  P0 !! k = Some x → dict_get k (changed_zones s) = None →
  permanent (fw s') = permanent (fw s) → heap s' = heap s ++ [x] →
  changed_zones s' = changed_zones s → changed s' = changed s →
  fetched (calls s') = fetched (calls s) ++ [k] →
  updates (calls s') = updates (calls s) →
  wf P0 zone s' ∧ live s' k (length (heap s)).
Proof.
  intros Hwf Hkz Hk Hx Hnone Hp Hh Hz Hch Hf Hu.
  assert (Hlen := wf_length _ _ _ Hwf).
  assert (Hold : ∀ o k', fetched (calls s') !! o = Some k' →
            (fetched (calls s) !! o = Some k' ∧ o < length (heap s))
            ∨ (o = length (heap s) ∧ k' = k)).
  { intros o k'. rewrite Hf. intros Hl.
    apply lookup_app_Some in Hl as [Hl|[Hge Hl]].
    - left. split; [done|]. apply lookup_lt_Some in Hl. lia.
    - right. apply list_lookup_singleton_Some in Hl as [Ho ->].
      split; [lia|done]. }
  assert (Hpos : 0 < length (heap s)).
  { rewrite Hlen. eapply lookup_lt_Some. by apply (wf_nominal _ _ _ Hwf). }
  split; [split|split]; unfold registered in *; rewrite ?Hp, ?Hz, ?Hu, ?Hch.
  - apply Hwf.
  - rewrite Hh, Hf, !length_app. simpl. lia.
  - intros o. split.
    + intros [[Hl _]|[-> ?]]%Hold; [by apply (wf_nominal _ _ _ Hwf)|done].
    + intros ->. rewrite Hf. apply lookup_app_l_Some.
      by apply (wf_nominal _ _ _ Hwf).
  - intros k' o Hreg.
    destruct (wf_registered _ _ _ Hwf _ _ Hreg) as [?|[? Hl]]; [by left|].
    right. split; [done|]. rewrite Hf. by apply lookup_app_l_Some.
  - intros o k' [[Hl Hlt]|[-> ->]]%Hold.
    + destruct (wf_objects _ _ _ Hwf _ _ Hl) as (x0 & Hx0 & Hcase).
      exists x0. split; [done|]. rewrite Hh.
      destruct Hcase as [Hheap|[Hreg|Hreg]]; [left|by right;left|by right;right].
      by apply lookup_app_l_Some.
    + exists x. split; [done|]. left. rewrite Hh.
      rewrite lookup_app_r by lia. by rewrite Nat.sub_diag.
  - apply Hwf.
  - apply Hwf.
  - apply Hwf.
  - right. split; [done|]. rewrite Hf, Hlen.
    rewrite lookup_app_r by lia. by rewrite Nat.sub_diag.
  - intros o'. by rewrite Hnone.
Qed.

Lemma triple_settings_of_zone k :
  k ≠ zone → k ≠ "" →
  triple (wf P0 zone) (settings_of_zone k)
    (λ o s, wf P0 zone s ∧ live s k o) (λ _ _, False) (λ _, True).
Proof.
  intros Hkz Hk s Hwf.
  assert (Hp := wf_permanent _ _ _ Hwf).
  unfold settings_of_zone, config_getZoneByName, zone_getSettings,
    invalid_zone, bind, called, modify, gets, ret, fail_json. simpl.
  destruct (permanent (fw s) !! k) as [x|] eqn:Hx; simpl; [|done].
  destruct (dict_get k (changed_zones s)) as [o|] eqn:Hreg; simpl.
  - assert (Hc : core (add_call (GetZoneByName k) s) = core s)
      by by apply core_add_call.
    split.
    + by eapply stable_wf.
    + apply (stable_live k o s); [done..|]. split.
      * destruct (wf_registered _ _ _ Hwf _ _ Hreg) as [[? _]|?]; [done|].
        by right.
      * unfold registered. intros o'. rewrite Hreg. by intros [= <-].
  - rewrite Hx. simpl.
    eapply (wf_fetch k x s); try done; simpl.
    + by rewrite <- Hp.
    + unfold fetched. rewrite !omap_app. simpl. by rewrite app_nil_r.
    + unfold updates. rewrite !omap_app. simpl. by rewrite !app_nil_r.
Qed.

Lemma triple_wf_live {A : Type} (m : M A) ds k o r :
  frame m → (∀ s, wf P0 zone s → live s k o) →
  triple (wf P0 zone) (m ;; reconcile_permanent ds k o r)
    (λ _, wf P0 zone) (λ _ _, False) (λ _, True).
Proof.
  intros Hm Hlive. eapply triple_conseq;
    [by apply (triple_then_permanent m ds k o r)|..]; simpl; try done.
  - intros s Hwf. split; [done|by apply Hlive].
  - by intros _ s [? _].
Qed.

Lemma triple_service_item ds item :
  triple (wf P0 zone) (service_item ds zone 0 item)
    (λ _, wf P0 zone) (λ _ _, False) (λ _, True).
Proof.
  destruct ds; apply triple_wf_live; try apply wf_live_nominal; framed.
Qed.

Lemma triple_port_item ds item :
  triple (wf P0 zone) (port_item ds zone 0 item)
    (λ _, wf P0 zone) (λ _ _, False) (λ _, True).
Proof.
  destruct item as [_port _protocol].
  destruct ds; apply triple_wf_live; try apply wf_live_nominal; framed.
Qed.

Lemma triple_interface_item e ds k o item :
  check_mode e = false →
  triple (λ s, wf P0 zone s ∧ live s k o) (interface_item e ds k o item)
    (λ _ s, wf P0 zone s ∧ live s k o) (λ _ _, False) (λ _, True).
Proof.
  intros Hcm.
  assert (Hst : stable (λ s, wf P0 zone s ∧ live s k o))
    by (apply stable_and; [apply stable_wf|apply stable_live]).
  unfold interface_item. rewrite Hcm.
  destruct ds;
    (eapply triple_bind;
       [apply triple_frame; [apply frame_try_set_zone_of_interface|done]|]);
    intros [|];
    first [by apply triple_then_permanent; framed
          |by apply triple_frame; [framed|done]].
Qed.

Lemma triple_fixed_zone fixed :
  fixed ≠ "" →
  triple (wf P0 zone) (fixed_zone zone 0 fixed)
    (λ zs s, wf P0 zone s ∧ live s zs.1 zs.2) (λ _ _, False) (λ _, True).
Proof.
  intros Hfixed. unfold fixed_zone. case_decide as Hz.
  - eapply triple_bind; [by apply triple_settings_of_zone|].
    intros o. by apply triple_ret.
  - apply triple_ret. intros s Hwf. split; [done|].
    by apply wf_live_nominal.
Qed.

Lemma triple_interface_section e ds fixed items :
  check_mode e = false → fixed ≠ "" →
  triple (wf P0 zone) (interface_section e ds zone 0 fixed items)
    (λ _, wf P0 zone) (λ _ _, False) (λ _, True).
Proof.
  intros Hcm Hfixed. unfold interface_section.
  apply triple_when; [intros _|done].
  eapply triple_bind; [by apply triple_fixed_zone|]. intros [k o]. simpl.
  eapply triple_conseq;
    [apply (triple_for_each (λ _ s, wf P0 zone s ∧ live s k o))|..];
    simpl; try done.
  - intros pre x post _. by apply triple_interface_item.
  - by intros _ s [? _].
  - by intros c s.
Qed.

Lemma triple_forward_port_item ds item :
  triple (wf P0 zone) (forward_port_item ds zone 0 item)
    (λ _, wf P0 zone) (λ _ _, False) (λ _, True).
Proof.
  destruct item as [[[[_interface _port] _protocol] _to_port] _to_addr].
  unfold forward_port_item.
  eapply triple_bind.
  { apply (triple_frame (wf P0 zone)); [framed|apply stable_wf]. }
  intros _zone. cbv beta.
  eapply (triple_bind _ _ _ (λ o s, wf P0 zone s ∧ live s _zone o)).
  { case_decide as Hz.
    - apply triple_settings_of_zone; tauto.
    - apply triple_ret. intros s Hwf. split; [done|].
      destruct (decide (_zone = "")) as [->|Hne];
        [by eapply wf_live_empty|].
      destruct (decide (_zone = zone)) as [->|Hne'];
        [by eapply wf_live_nominal|tauto]. }
  intros o. eapply triple_conseq.
  - destruct ds; apply (triple_then_permanent _ _ _zone o); framed.
  - done.
  - by intros _ s [Hwf _].
  - by intros c s.
  - done.
Qed.
End bookkeeping.

(** *** The write-back *)

Lemma commit_loop_run (l : list (string * nat)) (s : state) :
  match for_each l (λ zo, let* _fw_zone := config_getZoneByName zo.1 in
                          zone_update _fw_zone zo.2) s with
  | (Ret _, s') =>
      heap s' = heap s ∧ changed_zones s' = changed_zones s
      ∧ changed s' = changed s ∧ nm s' = nm s
      ∧ fetched (calls s') = fetched (calls s)
      ∧ updates (calls s')
        = updates (calls s) ++ ((λ zo, (zo.1, deref (heap s) zo.2)) <$> l)
      ∧ permanent (fw s') = write_back (heap s) (permanent (fw s)) l
      ∧ runtime (fw s') = runtime (fw s)
      ∧ default_zone (fw s') = default_zone (fw s)
      ∧ connected (fw s') = connected (fw s)
      ∧ Forall (λ zo, is_Some (permanent (fw s) !! zo.1)) l
  | (ExitJson _, _) => False
  | _ => True
  end.
Proof.
  revert s. induction l as [|[z o] l IH]; intros s.
  - simpl. rewrite app_nil_r. by repeat split.
  - cbn [for_each]. unfold bind at 1. unfold bind at 1.
    unfold config_getZoneByName, invalid_zone, bind, called, modify, gets,
      ret, fail_json. simpl.
    destruct (permanent (fw s) !! z) as [x|] eqn:Hz; simpl; [|done].
    unfold zone_update, bind, called, modify, gets. simpl.
    match goal with |- context [for_each l ?b ?st] => set (s1 := st) end.
    specialize (IH s1).
    destruct (for_each l _ s1) as [[[]| | |] s'] eqn:Hrun; try done.
    destruct IH as (Hh & Hcz & Hch & Hnm & Hf & Hu & Hp & Hr & Hd & Hc & Hex).
    subst s1. simpl in *. repeat split; try done.
    + rewrite Hf. unfold fetched. rewrite !omap_app. simpl.
      by rewrite !app_nil_r.
    + rewrite Hu. unfold updates. rewrite !omap_app. simpl.
      by rewrite app_nil_r, <- app_assoc.
    + constructor; [by exists x|].
      eapply Forall_impl; [exact Hex|]. intros [z' o']. simpl.
      rewrite lookup_insert_is_Some. intros [<-|[_ ?]]; [by exists x|done].
Qed.

Lemma apply_changes_run (s : state) :
  match apply_changes s with
  | (Ret _, s') => s' = s ∧ changed s = false
  | (ExitJson c, s') => c = true ∧ changed s = true ∧ commits s s'
  | _ => True
  end.
Proof.
  unfold apply_changes. unfold bind at 1, gets at 1.
  destruct (changed s) eqn:Hch; simpl; [|done].
  unfold bind at 1, gets at 1. unfold bind at 1.
  pose proof (commit_loop_run (changed_zones s) s) as Hloop.
  destruct (for_each (changed_zones s) _ s) as [[[]| | |] s'] eqn:Hrun;
    try done.
  simpl. destruct Hloop as (? & ? & ? & ? & ? & ? & ? & ? & ? & ? & ?).
  by repeat split.
Qed.

Lemma write_back_exists h P cz k :
  is_Some (write_back h P cz !! k) ↔ is_Some (P !! k) ∨ k ∈ cz.*1.
Proof.
  unfold write_back. revert P.
  induction cz as [|[z o] cz IH]; intros P; simpl.
  - rewrite elem_of_nil. tauto.
  - rewrite IH, lookup_insert_is_Some, elem_of_cons.
    destruct (decide (z = k)) as [->|Hne]; [tauto|intuition congruence].
Qed.

(** *** From [main] to [reconcile] *)

Lemma main_reconcile e p d n zone x0 port forward_port :
  reaches e p d zone x0 port forward_port →
  main e p (start d n)
  = reconcile e (param_state p) zone 0 (param_service p) port
      (param_trust p) (param_masq p) forward_port
      (State d n [x0] false [] (opening_calls p zone)).
Proof.
  intros [Hfw Hconn Hport Hfwd Hzone Hvalid Hperm].
  unfold main, opening_calls. rewrite Hfw, Hport, Hfwd.
  unfold nominal_zone, fw_getDefaultZone, fw_getZones, config_getZoneNames,
    config_getZoneByName, zone_getSettings, invalid_zone, bind, when, lift,
    called, modify, gets, ret, fail_json.
  simpl. rewrite Hconn. simpl.
  destruct (param_zone p) as [z|] eqn:Hz; simpl in *; subst zone.
  - destruct (Hvalid z eq_refl) as [Hrt Hpm].
    rewrite !bool_decide_eq_false_2 by (by intros ?). simpl.
    by rewrite Hperm; simpl; rewrite Hperm.
  - by rewrite Hperm; simpl; rewrite Hperm.
Qed.

Lemma main_exit_reaches e p d n c :
  (main e p (start d n)).1 = ExitJson c →
  ∃ zone x0 port forward_port, reaches e p d zone x0 port forward_port.
Proof.
  unfold main.
  unfold nominal_zone, fw_getDefaultZone, fw_getZones, config_getZoneNames,
    config_getZoneByName, zone_getSettings, invalid_zone, bind, when, lift,
    called, modify, gets, ret, fail_json.
  simpl.
  destruct (HAS_FIREWALLD e) eqn:Hfw; simpl; [|done].
  destruct (parse_all parse_port (param_port p)) as [port|c'|m|x] eqn:Hport;
    simpl; try done.
  2:{ intros _. by destruct (parse_all_not_exit parse_port (param_port p) c'
                               parse_port_not_exit). }
  destruct (parse_all _ (param_forward_port p)) as [fwd|c'|m|x] eqn:Hfwd;
    simpl; try done.
  2:{ intros _. by destruct (parse_all_not_exit _ (param_forward_port p) c'
                               parse_forward_port_not_exit). }
  destruct (connected d) eqn:Hconn; simpl; [|done].
  destruct (param_zone p) as [z|] eqn:Hz; simpl.
  - destruct (bool_decide (z ∉ dom (runtime d))) eqn:Hrt; simpl; [done|].
    destruct (bool_decide (z ∉ dom (permanent d))) eqn:Hpm; simpl; [done|].
    destruct (permanent d !! z) as [x0|] eqn:Hx0; simpl; [|done].
    intros _. exists z, x0, port, fwd. split; try done.
    + by rewrite Hz.
    + intros z'. rewrite Hz. intros [= <-].
      apply bool_decide_eq_false in Hrt, Hpm.
      split; by apply dec_stable.
  - destruct (permanent d !! default_zone d) as [x0|] eqn:Hx0; simpl; [|done].
    intros _. exists (default_zone d), x0, port, fwd. split; try done.
    + by rewrite Hz.
    + intros z'. by rewrite Hz.
Qed.

(** *** The whole pass *)

Section pass.
Context (P0 : gmap string settings) (zone : string).

Lemma wf_unchanged_committed s :
  wf P0 zone s → changed s = false → committed P0 zone s.
Proof.
  intros Hwf Hch.
  assert (Hcz : changed_zones s = []).
  { destruct (changed_zones s) eqn:Hcz; [done|].
    assert (changed s = true) by (apply (wf_changed _ _ _ Hwf); by rewrite Hcz).
    congruence. }
  split; unfold registered; rewrite ?Hcz; simpl; try done.
  - apply (wf_updates _ _ _ Hwf).
  - constructor.
  - apply Hwf.
  - intros o k Hf. destruct (wf_objects _ _ _ Hwf _ _ Hf) as (x0 & ? & Hc).
    exists x0. split; [done|]. unfold registered in Hc. by rewrite Hcz in Hc.
  - apply Hwf.
Qed.

Lemma wf_commits_committed s s' :
  wf P0 zone s → commits s s' → committed P0 zone s'.
Proof.
  intros Hwf Hcm.
  assert (Hp := wf_permanent _ _ _ Hwf).
  split; unfold registered;
    rewrite ?(cm_heap _ _ Hcm), ?(cm_changed_zones _ _ Hcm),
      ?(cm_fetched _ _ Hcm).
  - by rewrite (cm_updates _ _ Hcm), (wf_updates _ _ _ Hwf).
  - apply Hwf.
  - intros k o Hreg. pose proof (cm_exist _ _ Hcm) as Hex.
    rewrite Forall_forall in Hex. rewrite <- Hp.
    by apply (Hex (k, o)), dict_get_Some_elem.
  - apply Hwf.
  - apply Hwf.
  - apply Hwf.
  - by rewrite (cm_permanent _ _ Hcm), Hp.
Qed.

Lemma triple_reconcile e ds service port trust masq forward_port x0 :
  check_mode e = false →
  triple
    (λ s, permanent (fw s) = P0 ∧ P0 !! zone = Some x0 ∧ heap s = [x0]
          ∧ fetched (calls s) = [zone] ∧ updates (calls s) = [])
    (reconcile e ds zone 0 service port trust masq forward_port)
    (λ _ _, False) (λ _ s, committed P0 zone s) (λ _, True).
Proof.
  intros Hcm. unfold reconcile.
  eapply (triple_bind _ _ _ (λ _ s,
    permanent (fw s) = P0 ∧ P0 !! zone = Some x0 ∧ heap s = [x0]
    ∧ fetched (calls s) = [zone] ∧ updates (calls s) = []
    ∧ changed s = false)).
  { by intros s (? & ? & ? & ? & ?). }
  intros [].
  eapply (triple_bind _ _ _ (λ _, wf P0 zone)).
  { intros s (Hp & Hx & Hh & Hf & Hu & Hch). simpl.
    split; unfold registered; simpl; rewrite ?Hh, ?Hf; try done.
    - intros o. destruct o; simpl; [done|]. split; [|done].
      by rewrite lookup_nil.
    - intros [|o] k; simpl; [|by rewrite lookup_nil].
      intros [= <-]. exists x0. split; [done|]. by left.
    - constructor. }
  intros [].
  assert (Hweak : ∀ (m : M unit),
    triple (wf P0 zone) m (λ _, wf P0 zone) (λ _ _, False) (λ _, True) →
    triple (wf P0 zone) m (λ _, wf P0 zone) (λ _ s, committed P0 zone s)
      (λ _, True)).
  { intros m Hm. eapply triple_conseq; [exact Hm|done..]. }
  eapply triple_bind.
  { apply Hweak.
    apply (triple_for_each (λ _, wf P0 zone)). intros.
    apply triple_service_item. }
  intros []. eapply triple_bind.
  { apply Hweak.
    apply (triple_for_each (λ _, wf P0 zone)). intros.
    apply triple_port_item. }
  intros []. eapply triple_bind.
  { apply Hweak. by apply triple_interface_section. }
  intros []. eapply triple_bind.
  { apply Hweak. by apply triple_interface_section. }
  intros []. eapply triple_bind.
  { apply Hweak. apply triple_when; [intros _|done].
    apply (triple_for_each (λ _, wf P0 zone)). intros.
    apply triple_forward_port_item. }
  intros []. intros s Hwf. unfold bind.
  pose proof (apply_changes_run s) as Hrun.
  destruct (apply_changes s) as [[[]|c| |] s']; try done.
  - destruct Hrun as [-> Hch]. simpl. by apply wf_unchanged_committed.
  - destruct Hrun as (_ & _ & Hcommits). by eapply wf_commits_committed.
Qed.
End pass.

(** Once a zone is recorded, a later rule for it gets the recorded object
    and the settings are not fetched again. *)
Lemma settings_of_zone_registered s k o :
  registered s k o → is_Some (permanent (fw s) !! k) →
  settings_of_zone k s = (Ret o, add_call (GetZoneByName k) s).
Proof.
  intros Hreg [x Hx].
  unfold settings_of_zone, config_getZoneByName, bind, called, modify, gets,
    ret. simpl. rewrite Hx. simpl. unfold registered in Hreg.
  by rewrite Hreg.
Qed.

(** C3, as stated, fails: two forward rules name [eth0], which [dmz] owns,
    and neither changes the settings of [dmz]; they are fetched once for
    each rule. *)
Lemma settings_fetched_once_per_rule :
  let p := Params [] [] [] [] ["eth0;80/tcp;;"; "eth0;81/tcp;;"] None
             disabled in
  let r := run plain p host_eth0_dmz no_nm in
  r.1 = ExitJson false
  ∧ fetched (calls r.2) = ["public"; "dmz"; "dmz"]
  ∧ calls r.2
    = [GetDefaultZone; GetZoneByName "public"; GetSettings "public";
       GetZoneOfInterface "eth0"; GetZoneByName "dmz"; GetSettings "dmz";
       Query "dmz" (ForwardPort "80" "tcp" None None);
       GetZoneOfInterface "eth0"; GetZoneByName "dmz"; GetSettings "dmz";
       Query "dmz" (ForwardPort "81" "tcp" None None)].
Proof. vm_compute. repeat split; reflexivity. Qed.

(** A service and a port for the same zone end in one write-back that
    holds both. *)
Example service_and_port_one_commit :
  let p := Params ["http"] ["80/tcp"] [] [] [] None enabled in
  updates (calls (run plain p host no_nm).2)
  = [("public", with_rule (with_rule empty_settings (Service "http"))
                   (Port "80" "tcp"))].
Proof. vm_compute. reflexivity. Qed.


(** ** The ifcfg file reader *)

Section ifcfg_properties.
Context (isspace : Ascii.ascii → bool).

Lemma lstrip_head s :
  lstrip isspace s = ""
  ∨ ∃ c t, lstrip isspace s = String c t ∧ isspace c = false.
Proof.
  induction s as [|c s IH]; simpl; [by left|].
  destruct (isspace c) eqn:Hc; [done|]. right. by exists c, s.
Qed.

Lemma lstrip_clean c t :
  isspace c = false → lstrip isspace (String c t) = String c t.
Proof. intros Hc. simpl. by rewrite Hc. Qed.

Lemma rstrip_head c t :
  isspace c = false → ∃ t', rstrip isspace (String c t) = String c t'.
Proof.
  intros Hc. simpl. destruct (rstrip isspace t); [|by eexists].
  rewrite Hc. by eexists.
Qed.

Lemma rstrip_idem s : rstrip isspace (rstrip isspace s) = rstrip isspace s.
Proof.
  induction s as [|c s IH]; simpl; [done|].
  destruct (rstrip isspace s) as [|c' t] eqn:Hs.
  - destruct (isspace c) eqn:Hc; simpl; [done|]. by rewrite Hc.
  - change (rstrip isspace (String c (String c' t)))
      with (match rstrip isspace (String c' t) with
            | "" => if isspace c then "" else String c ""
            | t' => String c t'
            end).
    rewrite IH. done.
Qed.

Lemma lstrip_idem s : lstrip isspace (lstrip isspace s) = lstrip isspace s.
Proof.
  destruct (lstrip_head s) as [->|(c & t & -> & Hc)]; [done|].
  by apply lstrip_clean.
Qed.

(** Stripping twice is stripping once. *)
Lemma strip_idem s : strip isspace (strip isspace s) = strip isspace s.
Proof.
  unfold strip. destruct (lstrip_head s) as [->|(c & t & -> & Hc)]; [done|].
  destruct (rstrip_head c t Hc) as [t' Ht']. rewrite Ht'.
  rewrite (lstrip_clean c t' Hc). rewrite <- Ht'. apply rstrip_idem.
Qed.

Lemma parse_line_Some line k v :
  parse_line isspace line = Some (k, v) →
  v ≠ "" ∧ strip isspace k = k.
Proof.
  unfold parse_line.
  destruct (_ || _ || _); [done|].
  destruct (split_once "=" (strip isspace line)) as [|a [|b [|? ?]]];
    simpl; try done.
  case_decide as Hv; [done|]. intros [= <- <-]. split; [done|].
  apply strip_idem.
Qed.

Lemma read_lines_lookup lines config k :
  Forall (λ line, line ≠ "") lines →
  read_lines isspace lines config !! k
  = match config !! k with
    | Some v => Some v
    | None => first_value isspace k lines
    end.
Proof.
  unfold first_value. intros Hlines. revert config.
  induction Hlines as [|line lines Hline _ IH]; intros config; simpl.
  - by destruct (config !! k).
  - rewrite decide_False by done.
    destruct (parse_line isspace line) as [[k' v']|] eqn:Hp; [|apply IH].
    destruct (config !! k') as [w|] eqn:Hk'.
    + rewrite IH. destruct (decide (k' = k)) as [->|Hne]; [|done].
      by rewrite Hk'.
    + rewrite IH. destruct (decide (k' = k)) as [->|Hne].
      * by rewrite lookup_insert_eq, Hk'.
      * by rewrite lookup_insert_ne.
Qed.

Lemma read_lines_entries lines config k v :
  read_lines isspace lines config !! k = Some v →
  config !! k = Some v
  ∨ ∃ line, line ∈ lines ∧ parse_line isspace line = Some (k, v).
Proof.
  revert config. induction lines as [|line lines IH]; intros config; simpl.
  - by left.
  - case_decide; [by left|].
    destruct (parse_line isspace line) as [[k' v']|] eqn:Hp.
    + destruct (config !! k') eqn:Hk'.
      * intros [?|(l & ? & ?)]%IH; [by left|right].
        exists l. split; [by apply elem_of_cons; right|done].
      * intros [Hl|(l & ? & ?)]%IH.
        -- destruct (decide (k' = k)) as [->|Hne].
           ++ rewrite lookup_insert_eq in Hl. injection Hl as ->.
              right. exists line. split; [by apply elem_of_cons; left|done].
           ++ rewrite lookup_insert_ne in Hl by done. by left.
        -- right. exists l. split; [by apply elem_of_cons; right|done].
    + intros [?|(l & ? & ?)]%IH; [by left|right].
      exists l. split; [by apply elem_of_cons; right|done].
Qed.
End ifcfg_properties.

(** X1. After [read], a key has the value of the first line of the file
    that assigns it; later assignments of the same key are ignored, and a
    key that no line assigns is absent. *)
Theorem ifcfg_read_first_assignment_wins
    (isspace : Ascii.ascii → bool) (lines : list string) (self : ifcfg)
    (key : string) :
  Forall (λ line, line ≠ "") lines →
  _config (ifcfg_read isspace (Some lines) self).2 !! key
  = first_value isspace key lines.
Proof.
  intros Hlines. simpl. by rewrite read_lines_lookup.
Qed.

Lemma ifcfg_read_first_assignment_wins_witness :
  let nl := String "010" "" in
  let lines := ["# interface" +:+ nl; "DEVICE=eth0" +:+ nl;
                " ZONE = public " +:+ nl; "DEVICE=eth1" +:+ nl] in
  _config (ifcfg_read ascii_isspace (Some lines) (ifcfg_init "ifcfg-eth0")).2
    !! "DEVICE" = Some "eth0".
Proof.
  intros nl lines.
  rewrite (ifcfg_read_first_assignment_wins ascii_isspace lines
             (ifcfg_init "ifcfg-eth0") "DEVICE").
  - reflexivity.
  - by repeat constructor.
Defined.

(** X2. Every entry that [read] leaves in the object comes from a line of
    the file, has a non-empty value, and is found by [get] under its key,
    with or without whitespace around the key. *)
Theorem ifcfg_read_entries
    (isspace : Ascii.ascii → bool) (lines : list string) (self : ifcfg)
    (key value : string) :
  let self' := (ifcfg_read isspace (Some lines) self).2 in
  _config self' !! key = Some value →
  value ≠ ""
  ∧ (∃ line, line ∈ lines ∧ parse_line isspace line = Some (key, value))
  ∧ ifcfg_get isspace self' key = Some value
  ∧ ∀ padded, strip isspace padded = key →
      ifcfg_get isspace self' padded = Some value.
Proof.
  intros self' Hk. subst self'. simpl in *.
  apply read_lines_entries in Hk as Hsrc.
  destruct Hsrc as [Hempty|(line & Hin & Hp)]; [by rewrite lookup_empty in Hempty|].
  destruct (parse_line_Some isspace _ _ _ Hp) as [Hv Hstrip].
  split; [done|]. split; [by exists line|].
  unfold ifcfg_get. simpl. split.
  - by rewrite Hstrip.
  - intros padded <-. exact Hk.
Qed.

Lemma ifcfg_read_entries_witness :
  let nl := String "010" "" in
  let lines := ["ZONE = public " +:+ nl] in
  ifcfg_get ascii_isspace
    (ifcfg_read ascii_isspace (Some lines) (ifcfg_init "ifcfg-eth0")).2
    "  ZONE " = Some "public".
Proof.
  intros nl lines.
  apply (ifcfg_read_entries ascii_isspace lines (ifcfg_init "ifcfg-eth0")
           "ZONE" "public"); reflexivity.
Defined.

(** X4. [set] followed by [get] gives back the stripped value, whatever
    whitespace surrounds the key in either call, and leaves the value of
    every other key as it was. *)
Theorem ifcfg_set_get
    (isspace : Ascii.ascii → bool) (self : ifcfg) (key value key' : string) :
  (strip isspace key' = strip isspace key →
   ifcfg_get isspace (ifcfg_set isspace self key value) key'
   = Some (strip isspace value))
  ∧ (strip isspace key' ≠ strip isspace key →
     ifcfg_get isspace (ifcfg_set isspace self key value) key'
     = ifcfg_get isspace self key').
Proof.
  unfold ifcfg_get, ifcfg_set. simpl. split.
  - intros ->. apply lookup_insert_eq.
  - intros Hne. by apply lookup_insert_ne.
Qed.

Lemma ifcfg_set_get_witness :
  ifcfg_get ascii_isspace
    (ifcfg_set ascii_isspace (ifcfg_init "f") " ZONE" " public ") "ZONE  "
  = Some "public".
Proof.
  apply (proj1 (ifcfg_set_get ascii_isspace (ifcfg_init "f") " ZONE"
                  " public " "ZONE  ")).
  reflexivity.
Defined.

(** X5. Nothing in the class ever puts a key into [_deleted] or changes
    [filename]: after any sequence of [clear], [cleanup], [set] and [read]
    on a new object, [_deleted] is empty and [filename] is the one given to
    the constructor. *)
Theorem ifcfg_deleted_stays_empty
    (isspace : Ascii.ascii → bool) (name : string)
    (calls : list ifcfg_call) :
  let self := foldl (ifcfg_do isspace) (ifcfg_init name) calls in
  _deleted self = [] ∧ filename self = name.
Proof.
  simpl. assert (Hgen : ∀ self, _deleted self = [] → filename self = name →
    _deleted (foldl (ifcfg_do isspace) self calls) = []
    ∧ filename (foldl (ifcfg_do isspace) self calls) = name).
  { induction calls as [|c calls IH]; intros self Hd Hf; [done|].
    simpl. apply IH; destruct c as [| |k v|[lines|]]; simpl; try done.
    rewrite Hd. by case_decide. }
  by apply Hgen.
Qed.


(** ** What a pass never does *)

Section emits.
Context (P : call → Prop).

Lemma emits_ret {A : Type} (a : A) : emits P (ret a).
Proof. intros s. exists []. by rewrite app_nil_r. Qed.

Lemma emits_bind {A B : Type} (m : M A) (k : A → M B) :
  emits P m → (∀ a, emits P (k a)) → emits P (bind m k).
Proof.
  intros Hm Hk s. unfold bind. destruct (Hm s) as (cs & Hcs & HP).
  destruct (m s) as [[a| | |] s'] eqn:Hms; simpl in *; try by exists cs.
  destruct (Hk a s') as (cs' & Hcs' & HP').
  exists (cs ++ cs'). rewrite Hcs', Hcs, app_assoc. split; [done|].
  by apply Forall_app.
Qed.

Lemma emits_gets {A : Type} (f : state → A) : emits P (gets f).
Proof. intros s. exists []. by rewrite app_nil_r. Qed.

Lemma emits_modify (f : state → state) :
  (∀ s, calls (f s) = calls s) → emits P (modify f).
Proof. intros Hf s. exists []. simpl. by rewrite Hf, app_nil_r. Qed.

Lemma emits_called c : P c → emits P (called c).
Proof. intros Hc s. exists [c]. split; [done|]. by repeat constructor. Qed.

Lemma emits_exit_json {A : Type} c : emits P (@exit_json A c).
Proof. intros s. exists []. by rewrite app_nil_r. Qed.

Lemma emits_fail_json {A : Type} msg : emits P (@fail_json A msg).
Proof. intros s. exists []. by rewrite app_nil_r. Qed.

Lemma emits_raise {A : Type} x : emits P (@raise A x).
Proof. intros s. exists []. by rewrite app_nil_r. Qed.

Lemma emits_lift {A : Type} (o : outcome A) : emits P (lift o).
Proof. intros s. exists []. by rewrite app_nil_r. Qed.

Lemma emits_when b m : emits P m → emits P (when b m).
Proof. destruct b; [done|]. intros _. apply emits_ret. Qed.

Lemma emits_for_each {A : Type} (l : list A) body :
  (∀ x, emits P (body x)) → emits P (for_each l body).
Proof.
  intros Hb. induction l as [|x l IH]; simpl; [apply emits_ret|].
  by apply emits_bind.
Qed.

Lemma emits_try_except_else {A B : Type} (m : M A) (h : M B) (k : A → M B) :
  emits P m → emits P h → (∀ a, emits P (k a)) →
  emits P (try_except_else m h k).
Proof.
  intros Hm Hh Hk s. unfold try_except_else.
  destruct (Hm s) as (cs & Hcs & HP).
  destruct (m s) as [[a| | |] s'] eqn:Hms; simpl in *; try by exists cs.
  - destruct (Hk a s') as (cs' & Hcs' & HP').
    exists (cs ++ cs'). rewrite Hcs', Hcs, app_assoc. split; [done|].
    by apply Forall_app.
  - destruct (Hh s') as (cs' & Hcs' & HP').
    exists (cs ++ cs'). rewrite Hcs', Hcs, app_assoc. split; [done|].
    by apply Forall_app.
Qed.
End emits.

Create HintDb emits discriminated.

#[local] Hint Resolve emits_ret emits_bind emits_gets emits_exit_json
  emits_fail_json emits_raise emits_lift emits_when emits_for_each
  emits_try_except_else : emits.
#[local] Hint Extern 1 (emits _ (called _)) =>
  apply emits_called; exact I : emits.
#[local] Hint Extern 1 (emits _ (modify _)) =>
  apply emits_modify; intros ?; reflexivity : emits.
#[local] Hint Extern 2 (emits _ (match ?x with _ => _ end)) =>
  destruct x : emits.
#[local] Hint Extern 2 (emits _ (if ?x then _ else _)) => destruct x : emits.
#[local] Hint Extern 3 (emits _ (let* _ := _ in _)) =>
  apply emits_bind; [|intros ?] : emits.

Ltac emit := repeat (intros; eauto 20 with emits).


Section calls_of_a_pass.
Context (P : call → Prop) (e : env).
Hypothesis routine_allowed : ∀ c, routine c → P c.


#[local] Hint Extern 1 (emits _ (called _)) =>
  apply emits_called; apply routine_allowed; exact I : emits.

Lemma emits_invalid_zone {A : Type} z : emits P (@invalid_zone A z).
Proof. apply emits_fail_json. Qed.
#[local] Hint Resolve emits_invalid_zone : emits.

Lemma emits_fw_query z r : emits P (fw_query z r).
Proof. unfold fw_query. emit. Qed.

Lemma emits_rt_alter f z : emits P (rt_alter f z).
Proof. unfold rt_alter. emit. Qed.
#[local] Hint Resolve emits_fw_query emits_rt_alter : emits.

Lemma emits_fw_add z r : add_allowed P enabled → emits P (fw_add z r).
Proof.
  intros Ha. unfold fw_add. apply emits_bind; [|emit].
  apply emits_called. by apply Ha.
Qed.

Lemma emits_fw_changeZoneOfInterface z i :
  add_allowed P enabled → emits P (fw_changeZoneOfInterface z i).
Proof.
  intros Ha. unfold fw_changeZoneOfInterface. apply emits_bind; [|emit].
  apply emits_called. by apply Ha.
Qed.

Lemma emits_fw_remove z r : remove_allowed P disabled → emits P (fw_remove z r).
Proof.
  intros Hd. unfold fw_remove. apply emits_bind; [|emit].
  apply emits_called. by apply Hd.
Qed.

Lemma emits_fw_getZoneOfInterface i : emits P (fw_getZoneOfInterface i).
Proof. unfold fw_getZoneOfInterface. emit. Qed.

Lemma emits_config_getZoneByName z : emits P (config_getZoneByName z).
Proof. unfold config_getZoneByName. emit. Qed.

Lemma emits_zone_getSettings z : emits P (zone_getSettings z).
Proof. unfold zone_getSettings. emit. Qed.

Lemma emits_zone_update z o : emits P (zone_update z o).
Proof. unfold zone_update. emit. Qed.

Lemma emits_reconcile_permanent ds k o r :
  emits P (reconcile_permanent ds k o r).
Proof.
  unfold reconcile_permanent, settings_query, settings_add, settings_remove,
    mark_changed, register. emit.
Qed.

Lemma emits_mark_changed : emits P mark_changed.
Proof. unfold mark_changed. emit. Qed.

#[local] Hint Resolve emits_fw_getZoneOfInterface emits_config_getZoneByName
  emits_zone_getSettings emits_zone_update emits_reconcile_permanent
  emits_mark_changed : emits.

Lemma emits_settings_of_zone z : emits P (settings_of_zone z).
Proof. unfold settings_of_zone. emit. Qed.
#[local] Hint Resolve emits_settings_of_zone : emits.

Lemma emits_service_item ds z o item :
  add_allowed P ds → remove_allowed P ds → emits P (service_item ds z o item).
Proof.
  intros Ha Hd.
  unfold service_item. destruct ds.
  - pose proof (λ z r, emits_fw_add z r Ha). emit.
  - pose proof (λ z r, emits_fw_remove z r Hd). emit.
Qed.

Lemma emits_port_item ds z o item :
  add_allowed P ds → remove_allowed P ds → emits P (port_item ds z o item).
Proof.
  intros Ha Hd.
  unfold port_item. destruct item. destruct ds.
  - pose proof (λ z r, emits_fw_add z r Ha). emit.
  - pose proof (λ z r, emits_fw_remove z r Hd). emit.
Qed.

Lemma emits_forward_port_item ds z o item :
  add_allowed P ds → remove_allowed P ds →
  emits P (forward_port_item ds z o item).
Proof.
  intros Ha Hd.
  unfold forward_port_item. destruct item as [[[[? ?] ?] ?] ?].
  destruct ds.
  - pose proof (λ z r, emits_fw_add z r Ha). emit.
  - pose proof (λ z r, emits_fw_remove z r Hd). emit.
Qed.

Lemma emits_apply_changes : emits P apply_changes.
Proof. unfold apply_changes. emit. Qed.

(** The fast path is the only place where the connection manager is
    called. *)
Lemma emits_try_set_zone_of_interface z i :
  (HAS_FIREWALLD_NM e = true → ∀ c, nm_call c → P c) →
  emits P (try_set_zone_of_interface e z i).
Proof.
  intros Hnm. unfold try_set_zone_of_interface.
  destruct (HAS_FIREWALLD_NM e); simpl; [|apply emits_ret].
  specialize (Hnm eq_refl).
  unfold nm_is_imported, nm_get_connection_of_interface,
    nm_set_zone_of_connection.
  assert (∀ c, nm_call c → emits P (called c))
    by (intros; by apply emits_called, Hnm).
  repeat first
    [ apply emits_bind; [|intros ?]
    | apply emits_try_except_else; [| |intros ?]
    | apply emits_ret | apply emits_gets | apply emits_raise
    | by apply H
    | apply emits_modify; intros ?; reflexivity
    | match goal with |- emits _ (if ?x then _ else _) => destruct x end
    | match goal with |- emits _ (match ?x with _ => _ end) => destruct x end ].
Qed.

Lemma emits_interface_item ds z o item :
  add_allowed P ds → remove_allowed P ds →
  (HAS_FIREWALLD_NM e = true → ∀ c, nm_call c → P c) →
  emits P (interface_item e ds z o item).
Proof.
  intros Ha Hd Hnm. pose proof (λ z i, emits_try_set_zone_of_interface z i Hnm).
  unfold interface_item. destruct ds.
  - pose proof (λ z i, emits_fw_changeZoneOfInterface z i Ha). emit.
  - pose proof (λ z r, emits_fw_remove z r Hd). emit.
Qed.

Lemma emits_interface_section ds z o fixed items :
  add_allowed P ds → remove_allowed P ds →
  (HAS_FIREWALLD_NM e = true → items ≠ [] → ∀ c, nm_call c → P c) →
  emits P (interface_section e ds z o fixed items).
Proof.
  intros Ha Hd Hnm. unfold interface_section, fixed_zone.
  destruct items as [|i items]; [apply emits_ret|].
  pose proof (λ z o item, emits_interface_item ds z o item Ha Hd
    (λ H, Hnm H ltac:(done))).
  emit.
Qed.

Lemma emits_reconcile ds z o service port trust masq forward_port :
  add_allowed P ds → remove_allowed P ds →
  (HAS_FIREWALLD_NM e = true → trust ++ masq ≠ [] → ∀ c, nm_call c → P c) →
  emits P (reconcile e ds z o service port trust masq forward_port).
Proof.
  intros Ha Hd Hnm. unfold reconcile.
  pose proof (λ z o item, emits_service_item ds z o item Ha Hd).
  pose proof (λ z o item, emits_port_item ds z o item Ha Hd).
  pose proof (λ z o item, emits_forward_port_item ds z o item Ha Hd).
  pose proof emits_apply_changes.
  assert (emits P (interface_section e ds z o "trusted" trust)).
  { apply emits_interface_section; [done..|]. intros ? Ht. apply Hnm; [done|].
    by destruct trust. }
  assert (emits P (interface_section e ds z o "external" masq)).
  { apply emits_interface_section; [done..|]. intros ? Hm. apply Hnm; [done|].
    destruct trust; [done|]. done. }
  emit.
Qed.
End calls_of_a_pass.

Lemma emits_main (P : call → Prop) e p :
  (∀ c, routine c → P c) →
  (param_state p = enabled →
   (∀ z r, P (Add z r)) ∧ (∀ z i, P (ChangeZoneOfInterface z i))) →
  (param_state p = disabled → ∀ z r, P (Remove z r)) →
  (HAS_FIREWALLD_NM e = true → param_trust p ++ param_masq p ≠ [] →
   ∀ c, nm_call c → P c) →
  emits P (main e p).
Proof.
  intros Hr Ha Hd Hnm. unfold main.
  pose proof (λ z o port fwd, emits_reconcile P e Hr (param_state p) z o
    (param_service p) port (param_trust p) (param_masq p) fwd Ha Hd Hnm).
  assert (∀ z dz, emits P (nominal_zone z dz)).
  { intros. unfold nominal_zone, fw_getZones, config_getZoneNames.
    repeat first
      [ apply emits_bind; [|intros ?] | apply emits_when
      | apply emits_ret | apply emits_gets | apply emits_fail_json
      | by apply emits_called, Hr
      | match goal with |- emits _ (match ?x with _ => _ end) => destruct x end ]. }
  assert (emits P fw_getDefaultZone).
  { unfold fw_getDefaultZone. apply emits_bind; [|intros ?; apply emits_gets].
    by apply emits_called, Hr. }
  pose proof (emits_config_getZoneByName P Hr).
  pose proof (emits_zone_getSettings P Hr).
  emit.
Qed.

Lemma emits_calls (P : call → Prop) {A : Type} (m : M A) d n :
  emits P m → Forall P (calls (m (start d n)).2).
Proof. intros Hm. destruct (Hm (start d n)) as (cs & -> & HP). done. Qed.

(** X6. A pass that enables rules never calls a remove method of the
    daemon; a pass that disables rules never calls an add method nor
    [changeZoneOfInterface]. *)
Theorem pass_calls_fit_intent
    (e : env) (p : params) (d : daemon) (n : netman) :
  Forall (fits (param_state p)) (calls (run e p d n).2).
Proof.
  apply emits_calls, emits_main.
  - intros c Hc. by destruct (param_state p), c.
  - intros ->. by split.
  - by intros ->.
  - intros _ _ c Hc. by destruct (param_state p), c.
Qed.



(** ** Validation comes first *)

Lemma parse_all_failure {A : Type} (f : string → outcome A) l item :
  (∀ x c, f x ≠ ExitJson c) →
  item ∈ l → is_failure (f item) → is_failure (parse_all f l).
Proof.
  intros Hf Hin Hfail. induction l as [|x l IH]; [by apply elem_of_nil in Hin|].
  simpl. apply elem_of_cons in Hin as [<-|Hin].
  - by destruct (f item).
  - specialize (IH Hin). destruct (f x) eqn:Hx; try done.
    + by destruct (parse_all f l).
    + by apply Hf in Hx.
Qed.

Lemma parse_all_Forall2 {A : Type} (f : string → outcome A) l r :
  parse_all f l = Ret r ↔ Forall2 (λ x a, f x = Ret a) l r.
Proof.
  revert r. induction l as [|x l IH]; intros r; simpl.
  - split; [intros [= <-]; constructor|by intros ->%Forall2_nil_inv_l].
  - split.
    + destruct (f x) as [a| | |] eqn:Hx; try done.
      destruct (parse_all f l) as [r'| | |] eqn:Hl; try done.
      intros [= <-]. constructor; [done|]. by apply IH.
    + intros (a & r' & Ha & Hr & ->)%Forall2_cons_inv_l.
      rewrite Ha. apply IH in Hr. by rewrite Hr.
Qed.

Lemma free_of_app sep a b :
  free_of sep (a +:+ b) = free_of sep a && free_of sep b.
Proof.
  induction a as [|c a IH]; simpl; [done|]. by rewrite IH, andb_assoc.
Qed.

(** A string is its fields joined by the separator, and no field holds the
    separator. *)
Lemma join_split sep s :
  join sep (split sep s) = s
  ∧ Forall (λ w, free_of sep w = true) (split sep s).
Proof.
  induction s as [|c s [IHj IHf]]; simpl; [by repeat constructor|].
  destruct (Ascii.eqb c sep) eqn:Hc.
  - apply Ascii.eqb_eq in Hc as ->.
    pose proof (split_not_nil sep s) as Hne.
    destruct (split sep s) as [|w ws] eqn:Hs; [done|].
    split; [|by constructor].
    change (join sep ("" :: w :: ws)) with ("" +:+ String sep (join sep (w :: ws))).
    by rewrite IHj.
  - pose proof (split_not_nil sep s) as Hne.
    destruct (split sep s) as [|w ws] eqn:Hs; [done|].
    apply Forall_cons in IHf as [Hw Hws]. split.
    + destruct ws as [|w' ws]; simpl in *; by rewrite <-IHj.
    + constructor; [|done]. simpl. by rewrite Hc, Hw.
Qed.

(** X8. A port string is accepted exactly when it holds one [/], and then
    it is cut there; what [main] makes of the [port] parameter is the list
    of these pairs, in order, when every string is accepted. *)
Theorem parse_port_one_slash (port_proto _port _protocol : string) :
  (parse_port port_proto = Ret (_port, _protocol)
   ↔ port_proto = _port +:+ "/" +:+ _protocol
     ∧ free_of "/" _port = true ∧ free_of "/" _protocol = true)
  ∧ ∀ l r, parse_all parse_port l = Ret r
           ↔ Forall2 (λ x pp, x = pp.1 +:+ "/" +:+ pp.2
                               ∧ free_of "/" pp.1 = true
                               ∧ free_of "/" pp.2 = true) l r.
Proof.
  assert (Hone : ∀ s a b, parse_port s = Ret (a, b)
    ↔ s = a +:+ "/" +:+ b ∧ free_of "/" a = true ∧ free_of "/" b = true).
  { intros s a b. unfold parse_port, unpack2. split.
    - destruct (join_split "/" s) as [Hj Hf].
      destruct (split "/" s) as [|a' [|b' [|? ?]]]; try done.
      intros [= -> ->]. apply Forall_cons in Hf as [Ha Hf].
      apply Forall_cons in Hf as [Hb _]. by rewrite <-Hj.
    - intros (-> & Ha & Hb).
      change (a +:+ "/" +:+ b) with (a +:+ String "/" b).
      rewrite split_app_sep by done. by rewrite split_free. }
  split; [apply Hone|].
  intros l r. rewrite parse_all_Forall2. split; intros H.
  - eapply Forall2_impl; [done|]. intros x [a b] Hx. by apply Hone.
  - eapply Forall2_impl; [done|]. intros x [a b] Hx. by apply Hone.
Qed.

(** X9. Validation comes before any contact with the daemon: when the
    backend is missing, a port or forward-port string is not accepted, or
    the daemon is not connected, the pass ends in an error without having
    made a call, and nothing has changed. *)
Theorem invalid_input_contacts_nothing
    (e : env) (p : params) (d : daemon) (n : netman) :
  HAS_FIREWALLD e = false
  ∨ (∃ item, item ∈ param_port p ∧ is_failure (parse_port item))
  ∨ (∃ item, item ∈ param_forward_port p
             ∧ is_failure (parse_forward_port item None))
  ∨ connected d = false →
  is_failure (run e p d n).1 ∧ (run e p d n).2 = start d n.
Proof.
  intros H. unfold run, main.
  unfold bind, when, lift, gets, ret, fail_json.
  destruct (HAS_FIREWALLD e) eqn:Hfw; simpl; [|done].
  destruct H as [|H]; [done|].
  pose proof (parse_all_not_exit parse_port (param_port p)) as Hx1.
  pose proof (parse_all_not_exit (λ item, parse_forward_port item None)
                (param_forward_port p)) as Hx2.
  destruct (parse_all parse_port (param_port p)) as [port|c|m|x] eqn:Hport;
    simpl; try done.
  2:{ by destruct (Hx1 c parse_port_not_exit). }
  destruct H as [(item & Hin & Hfail)|H].
  { pose proof (parse_all_failure _ _ _ parse_port_not_exit Hin Hfail) as Hf.
    by rewrite Hport in Hf. }
  destruct (parse_all _ (param_forward_port p)) as [fwd|c|m|x] eqn:Hfwd;
    simpl; try done.
  2:{ by destruct (Hx2 c parse_forward_port_not_exit). }
  destruct H as [(item & Hin & Hfail)|H].
  { pose proof (parse_all_failure _ _ _ parse_forward_port_not_exit Hin Hfail)
      as Hf.
    by rewrite Hfwd in Hf. }
  by rewrite H.
Qed.

Lemma invalid_input_contacts_nothing_witness :
  is_failure (run plain (Params [] ["80"] [] [] [] None enabled) host no_nm).1
  ∧ (run plain (Params [] ["80"] [] [] [] None enabled) host no_nm).2
    = start host no_nm.
Proof.
  apply invalid_input_contacts_nothing. right. left. exists "80".
  split; [apply list_elem_of_singleton; reflexivity|exact I].
Defined.


(** ** What every pass keeps *)

Section keeps.
Context {R : relation state} `{!PreOrder R}.

Lemma keeps_ret {A : Type} (a : A) : keeps R (ret a).
Proof. intros s. simpl. reflexivity. Qed.

Lemma keeps_bind {A B : Type} (m : M A) (k : A → M B) :
  keeps R m → (∀ a, keeps R (k a)) → keeps R (bind m k).
Proof.
  intros Hm Hk s. unfold bind. specialize (Hm s).
  destruct (m s) as [[a| | |] s'] eqn:Hms; simpl in *; try done.
  by etrans; [|apply Hk].
Qed.

Lemma keeps_gets {A : Type} (f : state → A) : keeps R (gets f).
Proof. intros s. simpl. reflexivity. Qed.

Lemma keeps_modify (f : state → state) :
  (∀ s, R s (f s)) → keeps R (modify f).
Proof. intros Hf s. apply Hf. Qed.

Lemma keeps_exit_json {A : Type} c : keeps R (@exit_json A c).
Proof. intros s. simpl. reflexivity. Qed.

Lemma keeps_fail_json {A : Type} msg : keeps R (@fail_json A msg).
Proof. intros s. simpl. reflexivity. Qed.

Lemma keeps_raise {A : Type} x : keeps R (@raise A x).
Proof. intros s. simpl. reflexivity. Qed.

Lemma keeps_lift {A : Type} (o : outcome A) : keeps R (lift o).
Proof. intros s. simpl. reflexivity. Qed.

Lemma keeps_when b m : keeps R m → keeps R (when b m).
Proof. destruct b; [done|]. intros _. apply keeps_ret. Qed.

Lemma keeps_for_each {A : Type} (l : list A) body :
  (∀ x, keeps R (body x)) → keeps R (for_each l body).
Proof.
  intros Hb. induction l as [|x l IH]; simpl; [apply keeps_ret|].
  by apply keeps_bind.
Qed.

Lemma keeps_try_except_else {A B : Type} (m : M A) (h : M B) (k : A → M B) :
  keeps R m → keeps R h → (∀ a, keeps R (k a)) →
  keeps R (try_except_else m h k).
Proof.
  intros Hm Hh Hk s. unfold try_except_else. specialize (Hm s).
  destruct (m s) as [[a| | |] s'] eqn:Hms; simpl in *; try done.
  - by etrans; [|apply Hk].
  - by etrans; [|apply Hh].
Qed.
End keeps.

Create HintDb keeps discriminated.

#[local] Hint Extern 1 (keeps _ (ret _)) => apply keeps_ret : keeps.
#[local] Hint Extern 1 (keeps _ (gets _)) => apply keeps_gets : keeps.
#[local] Hint Extern 1 (keeps _ (exit_json _)) => apply keeps_exit_json : keeps.
#[local] Hint Extern 1 (keeps _ (fail_json _)) => apply keeps_fail_json : keeps.
#[local] Hint Extern 1 (keeps _ (invalid_zone _)) =>
  apply keeps_fail_json : keeps.
#[local] Hint Extern 1 (keeps _ (raise _)) => apply keeps_raise : keeps.
#[local] Hint Extern 1 (keeps _ (lift _)) => apply keeps_lift : keeps.
#[local] Hint Extern 1 (keeps _ (when _ _)) => apply keeps_when : keeps.
#[local] Hint Extern 1 (keeps _ (for_each _ _)) =>
  apply keeps_for_each; intros ? : keeps.
#[local] Hint Extern 1 (keeps _ (try_except_else _ _ _)) =>
  apply keeps_try_except_else; [| |intros ?] : keeps.
#[local] Hint Extern 2 (keeps _ (match ?x with _ => _ end)) =>
  destruct x : keeps.
#[local] Hint Extern 2 (keeps _ (if ?x then _ else _)) => destruct x : keeps.
#[local] Hint Extern 3 (keeps _ (let* _ := _ in _)) =>
  apply keeps_bind; [|intros ?] : keeps.

Ltac kept :=
  intros;
  repeat first
    [ solve [eauto 3 with keeps]
    | apply keeps_bind; [|intros ?]
    | apply keeps_when
    | apply keeps_for_each; intros ?
    | apply keeps_try_except_else; [| |intros ?]
    | match goal with
      | |- keeps _ (match ?x with _ => _ end) => destruct x
      end ].

(** *** The zones of the daemon *)

#[local] Instance same_zones_preorder : PreOrder same_zones.
Proof.
  split.
  - by intros s.
  - intros s1 s2 s3 (? & ? & ? & ?) (? & ? & ? & ?).
    repeat split; congruence.
Qed.

Lemma same_zones_fw s s' : fw s' = fw s → same_zones s s'.
Proof. intros H. unfold same_zones. by rewrite H. Qed.

#[local] Hint Extern 1 (keeps same_zones (called _)) =>
  apply keeps_modify; intros ?; by apply same_zones_fw : keeps.
#[local] Hint Extern 1 (keeps same_zones (modify _)) =>
  apply keeps_modify; intros ?; by apply same_zones_fw : keeps.

Lemma dom_insert_present (m : gmap string settings) k x y :
  m !! k = Some x → dom (<[k := y]> m) = dom m.
Proof.
  intros Hk. rewrite dom_insert_L. apply elem_of_dom_2 in Hk. set_solver.
Qed.

Lemma same_zones_rt_alter f z : keeps same_zones (rt_alter f z).
Proof.
  intros s. unfold rt_alter, bind, gets, modify, invalid_zone, fail_json.
  simpl. destruct (runtime (fw s) !! rt_zone (fw s) z) eqn:Hz; [|done].
  repeat split; simpl. by eapply dom_insert_present.
Qed.

Lemma same_zones_fw_changeZoneOfInterface z i :
  keeps same_zones (fw_changeZoneOfInterface z i).
Proof.
  intros s.
  unfold fw_changeZoneOfInterface, bind, called, gets, modify, invalid_zone,
    fail_json.
  simpl. case_match eqn:Hz; [|done].
  repeat split; simpl.
  erewrite dom_insert_present by done. by rewrite dom_fmap_L.
Qed.

(** A write-back goes to a zone that the permanent layer has. *)
Lemma same_zones_commit z o :
  keeps same_zones
    (let* _fw_zone := config_getZoneByName z in zone_update _fw_zone o).
Proof.
  intros s.
  unfold config_getZoneByName, zone_update, bind, called, gets, modify,
    invalid_zone, fail_json, ret.
  simpl. destruct (permanent (fw s) !! z) eqn:Hz; [|done].
  repeat split; simpl. by eapply dom_insert_present.
Qed.

#[local] Hint Resolve same_zones_rt_alter same_zones_fw_changeZoneOfInterface
  : keeps.

Lemma same_zones_reconcile e ds z o service port trust masq forward_port :
  keeps same_zones (reconcile e ds z o service port trust masq forward_port).
Proof.
  assert (Hq : ∀ z r, keeps same_zones (fw_query z r))
    by (unfold fw_query; kept).
  assert (Ha : ∀ z r, keeps same_zones (fw_add z r))
    by (unfold fw_add; kept).
  assert (Hr : ∀ z r, keeps same_zones (fw_remove z r))
    by (unfold fw_remove; kept).
  assert (Hp : ∀ ds z o r, keeps same_zones (reconcile_permanent ds z o r)).
  { unfold reconcile_permanent, settings_query, settings_add, settings_remove,
      mark_changed, register. kept. }
  assert (Hm : keeps same_zones mark_changed) by (unfold mark_changed; kept).
  assert (Hs : ∀ z, keeps same_zones (settings_of_zone z)).
  { unfold settings_of_zone, config_getZoneByName, zone_getSettings. kept. }
  assert (Ht : ∀ z i, keeps same_zones (try_set_zone_of_interface e z i)).
  { unfold try_set_zone_of_interface, nm_is_imported,
      nm_get_connection_of_interface, nm_set_zone_of_connection. kept. }
  assert (Hg : ∀ i, keeps same_zones (fw_getZoneOfInterface i))
    by (unfold fw_getZoneOfInterface; kept).
  assert (H1 : ∀ z o item, keeps same_zones (service_item ds z o item))
    by (unfold service_item; kept).
  assert (H2 : ∀ z o item, keeps same_zones (port_item ds z o item))
    by (unfold port_item; kept).
  assert (H3 : ∀ z o item, keeps same_zones (interface_item e ds z o item))
    by (unfold interface_item; kept).
  assert (H4 : ∀ z o item, keeps same_zones (forward_port_item ds z o item)).
  { intros ? ? [[[[? ?] ?] ?] ?]. unfold forward_port_item. kept. }
  assert (H5 : ∀ z o fixed items,
    keeps same_zones (interface_section e ds z o fixed items))
    by (unfold interface_section, fixed_zone; kept).
  assert (H6 : keeps same_zones apply_changes).
  { unfold apply_changes. pose proof same_zones_commit.
    apply keeps_bind; [kept|]. intros c. apply keeps_when.
    apply keeps_bind; [kept|]. intros cz.
    apply keeps_bind; [|kept]. by apply keeps_for_each. }
  unfold reconcile. kept.
Qed.

Lemma same_zones_main e p : keeps same_zones (main e p).
Proof.
  pose proof (same_zones_reconcile e).
  unfold main, nominal_zone, fw_getDefaultZone, fw_getZones,
    config_getZoneNames, config_getZoneByName, zone_getSettings.
  kept.
Qed.

(** X10. A pass never creates or deletes a zone in either layer, never
    changes the default zone and never disconnects, however it ends. *)
Theorem pass_keeps_zones (e : env) (p : params) (d : daemon) (n : netman) :
  let d' := fw (run e p d n).2 in
  connected d' = connected d
  ∧ default_zone d' = default_zone d
  ∧ dom (runtime d') = dom (runtime d)
  ∧ dom (permanent d') = dom (permanent d).
Proof. apply (same_zones_main e p (start d n)). Qed.


(** ** What a pass that reports no change has done *)

#[local] Instance discreet_preorder ds : PreOrder (discreet ds).
Proof.
  split.
  - intros s. exists []. rewrite app_nil_r. by repeat split.
  - intros s1 s2 s3 (cs & Hcs & Hf & Hq) (cs' & Hcs' & Hf' & Hq').
    exists (cs ++ cs'). rewrite Hcs', Hcs, app_assoc.
    split; [done|]. split; [auto|]. intros H3.
    assert (H2 : changed s2 = false).
    { destruct (changed s2); [|done]. by rewrite Hf' in H3. }
    destruct (Hq H2) as (Hc1 & Hp1 & He1), (Hq' H3) as (Hc2 & Hp2 & He2).
    split; [by apply Forall_app|]. split; [congruence|].
    intros Hds. destruct (He1 Hds), (He2 Hds). split; congruence.
Qed.

Lemma discreet_same ds s s' :
  calls s' = calls s → fw s' = fw s → nm s' = nm s →
  (changed s = true → changed s' = true) → discreet ds s s'.
Proof.
  intros Hc Hfw Hnm Hf. exists []. rewrite app_nil_r.
  by repeat split; try rewrite Hfw.
Qed.

Lemma discreet_call ds c s : quiet ds c → discreet ds s (add_call c s).
Proof.
  intros Hq. exists [c]. repeat split; try done. by repeat constructor.
Qed.

Lemma discreet_flagged ds s s' :
  calls s `prefix_of` calls s' → changed s' = true → discreet ds s s'.
Proof. intros [cs Hcs] Hf. exists cs. by rewrite Hf. Qed.

#[local] Hint Extern 1 (keeps (discreet _) (called _)) =>
  apply keeps_modify; intros ?; apply discreet_call; by simpl : keeps.
#[local] Hint Extern 1 (keeps (discreet _) (modify _)) =>
  apply keeps_modify; intros ?; apply discreet_same;
  [reflexivity..|simpl; auto] : keeps.

Section candid.
Context (ds : intent).

Lemma candid_keeps {A : Type} (m : M A) :
  keeps (discreet ds) m → (∀ s c, (m s).1 ≠ ExitJson c) → candid ds m.
Proof.
  intros Hm Hx s. specialize (Hm s). specialize (Hx s).
  destruct (m s) as [[a|c| |] s']; simpl in *; try done.
  by destruct (Hx c).
Qed.

Lemma candid_ret {A : Type} (a : A) : candid ds (ret a).
Proof. intros s. simpl. reflexivity. Qed.

(** What [m] does from [s1] on, seen from an earlier state [s]. *)
Lemma candid_from {A : Type} (m : M A) s s1 :
  discreet ds s s1 → candid ds m →
  match (m s1).1 with
  | Ret _ => discreet ds s (m s1).2
  | ExitJson c => discreet ds s (m s1).2 ∧ (c = false → changed (m s1).2 = false)
  | FailJson _ | Raised _ => True
  end.
Proof.
  intros Hs Hm. specialize (Hm s1).
  destruct (m s1) as [[a|c| |] s2]; simpl in *; try done.
  - by etrans.
  - destruct Hm. split; [by etrans|done].
Qed.

Lemma candid_bind {A B : Type} (m : M A) (k : A → M B) :
  candid ds m → (∀ a, candid ds (k a)) → candid ds (bind m k).
Proof.
  intros Hm Hk s. unfold bind. specialize (Hm s).
  destruct (m s) as [[a|c| |] s1] eqn:Hms; simpl in *; try done.
  by apply candid_from.
Qed.

Lemma candid_gets {A : Type} (f : state → A) : candid ds (gets f).
Proof. intros s. simpl. reflexivity. Qed.

Lemma candid_modify (f : state → state) :
  (∀ s, discreet ds s (f s)) → candid ds (modify f).
Proof. intros Hf s. apply Hf. Qed.

Lemma candid_exit_json_true {A : Type} : candid ds (@exit_json A true).
Proof. intros s. simpl. split; [reflexivity|done]. Qed.

Lemma candid_fail_json {A : Type} msg : candid ds (@fail_json A msg).
Proof. by intros s. Qed.

Lemma candid_when b m : candid ds m → candid ds (when b m).
Proof. destruct b; [done|]. intros _. apply candid_ret. Qed.

Lemma candid_for_each {A : Type} (l : list A) body :
  (∀ x, candid ds (body x)) → candid ds (for_each l body).
Proof.
  intros Hb. induction l as [|x l IH]; simpl; [apply candid_ret|].
  by apply candid_bind.
Qed.

(** A change that is followed by [changed = True]. *)
Lemma candid_marked {A : Type} (m : M A) :
  grows m → frame m → candid ds (m ;; mark_changed).
Proof.
  intros Hg Hf s. unfold bind. specialize (Hg s).
  destruct (Hf s) as (_ & _ & Hx).
  destruct (m s) as [[a|c| |] s1] eqn:Hms; simpl in *; try done.
  - by apply discreet_flagged.
  - by destruct (Hx c).
Qed.
End candid.

Create HintDb candid discriminated.

#[local] Hint Extern 1 (candid _ (ret _)) => apply candid_ret : candid.
#[local] Hint Extern 1 (candid _ (gets _)) => apply candid_gets : candid.
#[local] Hint Extern 1 (candid _ (exit_json true)) =>
  apply candid_exit_json_true : candid.
#[local] Hint Extern 1 (candid _ (fail_json _)) =>
  apply candid_fail_json : candid.
#[local] Hint Extern 1 (candid _ (invalid_zone _)) =>
  apply candid_fail_json : candid.
#[local] Hint Extern 1 (candid _ (called _)) =>
  apply candid_modify; intros ?; apply discreet_call; by simpl : candid.
#[local] Hint Extern 1 (candid _ (modify _)) =>
  apply candid_modify; intros ?; apply discreet_same;
  [reflexivity..|simpl; auto] : candid.
#[local] Hint Extern 1 (candid _ (_ ;; mark_changed)) =>
  apply candid_marked; [grow|framed] : candid.

Ltac cand :=
  intros;
  repeat first
    [ solve [eauto 3 with candid]
    | apply candid_bind; [|intros ?]
    | apply candid_when
    | apply candid_for_each; intros ?
    | match goal with
      | |- candid _ (match ?x with _ => _ end) => destruct x
      end ].

(** The runtime removal of a service is the one change of the daemon that
    no [changed = True] follows. *)
Lemma candid_remove_service z name :
  candid disabled (fw_remove z (Service name)).
Proof.
  intros s. unfold fw_remove, rt_alter, bind, called, gets, modify,
    invalid_zone, fail_json.
  simpl. destruct (runtime (fw s) !! rt_zone (fw s) z); simpl; [|done].
  exists [Remove z (Service name)]. repeat split; try done.
  repeat constructor; by eauto.
Qed.

(** The fast path without a connection to set. *)
Lemma try_set_zone_of_interface_False ds e z i s :
  (try_set_zone_of_interface e z i s).1 = Ret false →
  discreet ds s (try_set_zone_of_interface e z i s).2.
Proof.
  unfold try_set_zone_of_interface, nm_is_imported,
    nm_get_connection_of_interface, nm_set_zone_of_connection,
    try_except_else, bind, called, gets, modify, ret, raise.
  simpl. destruct (HAS_FIREWALLD_NM e); simpl; [|reflexivity].
  destruct (nm_imported (nm s)); simpl.
  2:{ intros _. by apply discreet_call. }
  assert (discreet ds s
    (add_call (NmGetConnectionOfInterface i) (add_call NmIsImported s))).
  { etrans; by apply discreet_call. }
  destruct (nm_connection_of (nm s) i); simpl; try done.
  by destruct (nm_set_fails (nm s) z c).
Qed.

(** Under [disabled] the fast path resets the zone of the connection, and
    nothing reports it. *)
Lemma discreet_reset e i :
  keeps (discreet disabled) (try_set_zone_of_interface e "" i).
Proof.
  unfold try_set_zone_of_interface, nm_is_imported,
    nm_get_connection_of_interface, nm_set_zone_of_connection.
  assert (∀ n, keeps (discreet disabled) (modify (set_nm n))).
  { intros n. apply keeps_modify. intros s. exists []. rewrite app_nil_r.
    by repeat split. }
  kept.
Qed.

Lemma candid_reconcile_permanent ds z o r :
  candid ds (reconcile_permanent ds z o r).
Proof.
  unfold reconcile_permanent, settings_query, settings_add, settings_remove,
    mark_changed, register.
  destruct ds; cand.
Qed.

Lemma candid_fw_query ds z r : candid ds (fw_query z r).
Proof. unfold fw_query. cand. Qed.

Lemma candid_settings_of_zone ds z : candid ds (settings_of_zone z).
Proof.
  unfold settings_of_zone, config_getZoneByName, zone_getSettings. cand.
Qed.

#[local] Hint Resolve candid_reconcile_permanent candid_fw_query
  candid_settings_of_zone candid_remove_service : candid.

Lemma candid_service_item ds z o item : candid ds (service_item ds z o item).
Proof. unfold service_item. destruct ds; cand. Qed.

Lemma candid_port_item ds z o item : candid ds (port_item ds z o item).
Proof. unfold port_item. destruct item. destruct ds; cand. Qed.

Lemma candid_forward_port_item ds z o item :
  candid ds (forward_port_item ds z o item).
Proof.
  unfold forward_port_item, fw_getZoneOfInterface.
  destruct item as [[[[? ?] ?] ?] ?]. destruct ds; cand.
Qed.

Lemma candid_interface_item e ds z o item :
  candid ds (interface_item e ds z o item).
Proof.
  unfold interface_item. destruct ds.
  - match goal with |- candid _ (bind _ ?k) => set (rest := k) end.
    assert (Hrest : candid enabled (rest false))
      by (unfold rest; cbv beta iota; cand).
    assert (Hmark : rest true = mark_changed) by done.
    clearbody rest. intros s. unfold bind.
    pose proof (grows_try_set_zone_of_interface e z item s) as Hg.
    destruct (frame_try_set_zone_of_interface e z item s) as (_ & _ & Hx).
    pose proof (try_set_zone_of_interface_False enabled e z item s) as Hn.
    destruct (try_set_zone_of_interface e z item s) as [[[|]|c| |] s1];
      cbn [fst snd] in *; try done.
    + rewrite Hmark. by apply discreet_flagged.
    + by apply candid_from; [apply Hn|].
    + by destruct (Hx c).
  - apply candid_bind.
    + apply candid_keeps; [apply discreet_reset|].
      intros s. by destruct (frame_try_set_zone_of_interface e "" item s)
        as (_ & _ & Hx).
    + cand.
Qed.

Lemma candid_interface_section e ds z o fixed items :
  candid ds (interface_section e ds z o fixed items).
Proof.
  pose proof (candid_interface_item e ds).
  unfold interface_section, fixed_zone. cand.
Qed.

(** The end of the pass: the write-back happens only with the flag set. *)
Lemma candid_finish ds {A : Type} :
  candid ds (apply_changes ;; @exit_json A false).
Proof.
  intros s. unfold bind. pose proof (apply_changes_run s) as Hrun.
  pose proof (grows_apply_changes s) as Hg.
  destruct (apply_changes s) as [[[]|c| |] s1]; simpl in *; try done.
  - destruct Hrun as [-> Hch]. split; [reflexivity|done].
  - destruct Hrun as (-> & Hch & Hcm). split; [|done].
    apply discreet_flagged; [done|]. by rewrite (cm_changed _ _ Hcm).
Qed.

Lemma reconcile_report e ds z o service port trust masq forward_port s :
  changed s = false →
  let r := reconcile e ds z o service port trust masq forward_port s in
  r.1 = ExitJson false → discreet ds s r.2 ∧ changed r.2 = false.
Proof.
  intros Hs r. subst r. unfold reconcile.
  pose proof candid_service_item. pose proof candid_port_item.
  pose proof candid_forward_port_item. pose proof candid_interface_section.
  pose proof (candid_finish ds (A:=Empty_set)).
  match goal with |- context [bind (modify (set_changed false)) ?k] =>
    set (rest := k)
  end.
  assert (Hm : candid ds (rest tt)) by (unfold rest; cbv beta; cand).
  clearbody rest. unfold bind, modify. cbn [fst snd].
  assert (Heq : set_changed false s = s) by (destruct s; simpl in *; by subst).
  rewrite Heq. specialize (Hm s).
  destruct (rest tt s) as [[?|c| |] s1]; cbn [fst snd] in *; try done.
  intros [= ->]. destruct Hm. auto.
Qed.

(** X11. The report [changed = False] is honest up to two omissions. A
    pass that ends with it has made no call that adds a rule, binds an
    interface or writes settings back, and the permanent layer is what it
    was; the only changes it can have made are runtime removals of services
    and resets of a connection's zone, both under [disabled]. Under
    [enabled] the daemon and the connection manager are exactly as they
    were. *)
Theorem unchanged_report_is_honest
    (e : env) (p : params) (d : daemon) (n : netman) :
  (run e p d n).1 = ExitJson false →
  Forall (quiet (param_state p)) (calls (run e p d n).2)
  ∧ permanent (fw (run e p d n).2) = permanent d
  ∧ (param_state p = enabled →
     fw (run e p d n).2 = d ∧ nm (run e p d n).2 = n).
Proof.
  intros Hexit.
  destruct (main_exit_reaches _ _ _ _ _ Hexit)
    as (zone & x0 & port & fwd & Hr).
  unfold run in *. rewrite (main_reconcile _ _ _ n _ _ _ _ Hr) in *.
  destruct (reconcile_report _ _ _ _ _ _ _ _ _
              (State d n [x0] false [] (opening_calls p zone)) eq_refl Hexit)
    as [(cs & Hcs & _ & Hq) Hch].
  destruct (Hq Hch) as (Hcalls & Hperm & Hen). simpl in *.
  split; [|done]. rewrite Hcs. apply Forall_app. split; [|done].
  unfold opening_calls. destruct (param_zone p); by repeat constructor.
Qed.

Lemma unchanged_report_is_honest_witness :
  let r := run plain (Params ["http"] [] [] [] [] None disabled)
             host_http_runtime no_nm in
  Forall (quiet disabled) (calls r.2)
  ∧ permanent (fw r.2) = permanent host_http_runtime
  ∧ (disabled = enabled → fw r.2 = host_http_runtime ∧ nm r.2 = no_nm).
Proof.
  apply (unchanged_report_is_honest plain
    (Params ["http"] [] [] [] [] None disabled) host_http_runtime no_nm).
  vm_compute. reflexivity.
Defined.


(** *** The connection manager *)

#[local] Instance same_nm_preorder : PreOrder same_nm.
Proof. split; [by intros s|]. intros s1 s2 s3. unfold same_nm. congruence. Qed.

#[local] Hint Extern 1 (keeps same_nm (called _)) =>
  apply keeps_modify; intros ?; reflexivity : keeps.
#[local] Hint Extern 1 (keeps same_nm (modify _)) =>
  apply keeps_modify; intros ?; reflexivity : keeps.

Lemma same_nm_reconcile e ds z o service port trust masq forward_port :
  HAS_FIREWALLD_NM e = false ∨ trust ++ masq = [] →
  keeps same_nm (reconcile e ds z o service port trust masq forward_port).
Proof.
  intros Hno.
  assert (Hq : ∀ z r, keeps same_nm (fw_query z r))
    by (unfold fw_query; kept).
  assert (Hrt : ∀ f z, keeps same_nm (rt_alter f z))
    by (unfold rt_alter; kept).
  assert (Ha : ∀ z r, keeps same_nm (fw_add z r))
    by (unfold fw_add; kept).
  assert (Hr : ∀ z r, keeps same_nm (fw_remove z r))
    by (unfold fw_remove; kept).
  assert (Hc : ∀ z i, keeps same_nm (fw_changeZoneOfInterface z i))
    by (unfold fw_changeZoneOfInterface; kept).
  assert (Hp : ∀ ds z o r, keeps same_nm (reconcile_permanent ds z o r)).
  { unfold reconcile_permanent, settings_query, settings_add, settings_remove,
      mark_changed, register. kept. }
  assert (Hm : keeps same_nm mark_changed) by (unfold mark_changed; kept).
  assert (Hs : ∀ z, keeps same_nm (settings_of_zone z)).
  { unfold settings_of_zone, config_getZoneByName, zone_getSettings. kept. }
  assert (Hg : ∀ i, keeps same_nm (fw_getZoneOfInterface i))
    by (unfold fw_getZoneOfInterface; kept).
  assert (H1 : ∀ z o item, keeps same_nm (service_item ds z o item))
    by (unfold service_item; kept).
  assert (H2 : ∀ z o item, keeps same_nm (port_item ds z o item))
    by (unfold port_item; kept).
  assert (H4 : ∀ z o item, keeps same_nm (forward_port_item ds z o item)).
  { intros ? ? [[[[? ?] ?] ?] ?]. unfold forward_port_item. kept. }
  assert (H5 : ∀ z o fixed items, items ∈ [trust; masq] →
    keeps same_nm (interface_section e ds z o fixed items)).
  { intros z' o' fixed items Hin. destruct Hno as [Hnm|Hnil].
    - assert (Ht : ∀ z i, keeps same_nm (try_set_zone_of_interface e z i)).
      { intros. unfold try_set_zone_of_interface. rewrite Hnm. simpl.
        apply keeps_ret. }
      assert (H3 : ∀ z o item, keeps same_nm (interface_item e ds z o item))
        by (unfold interface_item; kept).
      unfold interface_section, fixed_zone. kept.
    - apply app_eq_nil in Hnil as [-> ->].
      assert (items = []) as -> by set_solver.
      unfold interface_section. simpl. apply keeps_ret. }
  assert (H6 : keeps same_nm apply_changes).
  { unfold apply_changes, config_getZoneByName, zone_update. kept. }
  pose proof (H5 z o "trusted" trust ltac:(set_solver)).
  pose proof (H5 z o "external" masq ltac:(set_solver)).
  clear H5. unfold reconcile. kept.
Qed.

(** X7. The connection manager is called only by the fast path: without
    the integration, or in a pass without trust and masquerade rules, no
    call to it is made and its state is what it was. *)
Theorem pass_without_fast_path_leaves_connection_manager
    (e : env) (p : params) (d : daemon) (n : netman) :
  HAS_FIREWALLD_NM e = false ∨ param_trust p ++ param_masq p = [] →
  Forall (λ c, ¬ nm_call c) (calls (run e p d n).2)
  ∧ nm (run e p d n).2 = n.
Proof.
  intros Hno. split.
  2:{ cut (keeps same_nm (main e p)); [intros H; apply (H (start d n))|].
      pose proof (λ z o port fwd, same_nm_reconcile e (param_state p) z o
        (param_service p) port (param_trust p) (param_masq p) fwd Hno).
      unfold main, nominal_zone, fw_getDefaultZone, fw_getZones,
        config_getZoneNames, config_getZoneByName, zone_getSettings.
      kept. }
  apply emits_calls, emits_main.
  - intros c Hc Hn. by destruct c.
  - intros _. split; intros ? ? [].
  - intros _ ? ? [].
  - intros Hnm Hne. destruct Hno; congruence.
Qed.

Lemma pass_without_fast_path_leaves_connection_manager_witness :
  Forall (λ c, ¬ nm_call c)
    (calls (run plain (Params [] [] ["eth0"] [] [] None enabled)
              host nm_eth0).2)
  ∧ nm (run plain (Params [] [] ["eth0"] [] [] None enabled) host nm_eth0).2
    = nm_eth0.
Proof.
  apply pass_without_fast_path_leaves_connection_manager. left. reflexivity.
Defined.


(** ** Running the pieces of the pass *)

Lemma bind_run {A B : Type} (m : M A) (k : A → M B) s a s' :
  m s = (Ret a, s') → bind m k s = k a s'.
Proof. intros H. unfold bind. by rewrite H. Qed.

Lemma fw_query_run zone r s :
  fw_query zone r s
  = match runtime (fw s) !! rt_zone (fw s) zone with
    | Some x => (Ret (has x r), add_calls [Query zone r] s)
    | None => (FailJson ("INVALID_ZONE: " +:+ zone),
               add_calls [Query zone r] s)
    end.
Proof.
  unfold fw_query, invalid_zone, bind, called, modify, gets, ret, fail_json.
  simpl. by destruct (runtime (fw s) !! rt_zone (fw s) zone).
Qed.

Lemma fw_add_run zone r s x :
  runtime (fw s) !! rt_zone (fw s) zone = Some x →
  fw_add zone r s
  = (Ret tt, rt_put zone (with_rule x r) (add_calls [Add zone r] s)).
Proof.
  intros Hx. unfold fw_add, rt_alter, bind, called, modify, gets. simpl.
  by rewrite Hx.
Qed.

Lemma fw_remove_run zone r s x :
  runtime (fw s) !! rt_zone (fw s) zone = Some x →
  fw_remove zone r s
  = (Ret tt, rt_put zone (without_rule x r) (add_calls [Remove zone r] s)).
Proof.
  intros Hx. unfold fw_remove, rt_alter, bind, called, modify, gets. simpl.
  by rewrite Hx.
Qed.

Lemma fw_getZoneOfInterface_run i s :
  fw_getZoneOfInterface i s
  = (Ret (zone_of_interface (fw s) i), add_calls [GetZoneOfInterface i] s).
Proof. reflexivity. Qed.

Lemma config_getZoneByName_run zone s :
  config_getZoneByName zone s
  = match permanent (fw s) !! zone with
    | Some _ => (Ret zone, add_calls [GetZoneByName zone] s)
    | None => (FailJson ("INVALID_ZONE: " +:+ zone),
               add_calls [GetZoneByName zone] s)
    end.
Proof.
  unfold config_getZoneByName, invalid_zone, bind, called, modify, gets, ret,
    fail_json.
  simpl. by destruct (permanent (fw s) !! zone).
Qed.

Lemma try_set_zone_of_interface_skipped e zone i s :
  fast_path e (nm s) i = false →
  ∃ cs, try_set_zone_of_interface e zone i s = (Ret false, add_calls cs s).
Proof.
  unfold fast_path, try_set_zone_of_interface, try_except_else,
    nm_is_imported, nm_get_connection_of_interface, bind, called, modify,
    gets, ret, raise.
  destruct (HAS_FIREWALLD_NM e); simpl.
  2:{ intros _. exists [].
      unfold add_calls. rewrite app_nil_r. by destruct s. }
  destruct (nm_imported (nm s)); simpl.
  2:{ intros _. by exists [NmIsImported]. }
  destruct (nm_connection_of (nm s) i); simpl; try done; intros _.
  - exists [NmIsImported; NmGetConnectionOfInterface i].
    unfold add_calls, add_call; simpl; by rewrite <- app_assoc.
  - exists [NmIsImported; NmGetConnectionOfInterface i].
    unfold add_calls, add_call; simpl; by rewrite <- app_assoc.
Qed.

Lemma triple_for_each_Forall {A : Type} (I : state → Prop) (P : A → Prop)
    (l : list A) body X F :
  Forall P l → (∀ x, P x → triple I (body x) (λ _, I) X F) →
  triple I (for_each l body) (λ _, I) X F.
Proof.
  intros Hl Hb. apply (triple_for_each (λ _, I)).
  intros pre x post ->. apply Hb.
  rewrite Forall_forall in Hl. apply Hl. set_solver.
Qed.

Lemma triple_weaken_exit {A : Type} (P : state → Prop) (m : M A) Q
    (X : bool → state → Prop) F :
  triple P m Q (λ _ _, False) F → triple P m Q X F.
Proof. intros Hm. eapply triple_conseq; [exact Hm|done..]. Qed.

(** ** A pass over a daemon that already agrees with the desired state *)

Lemma deref_lookup h o x : h !! o = Some x → deref h o = x.
Proof. intros H. unfold deref. by rewrite H. Qed.

Lemma reconcile_permanent_settled ds k o r s y :
  heap s !! o = Some y → has y r = wanted ds →
  reconcile_permanent ds k o r s = (Ret tt, s).
Proof.
  intros Hy Hh. rewrite reconcile_permanent_run, (deref_lookup _ _ _ Hy).
  by rewrite bool_decide_eq_true_2.
Qed.

Section second_pass.
Context (d : daemon) (n : netman) (x0 : settings).

Lemma idle_add_calls cs s : idle d n x0 s → idle d n x0 (add_calls cs s).
Proof. by intros []. Qed.

Lemma runtime_half_settled ds zone r s (act : M unit) :
  idle d n x0 s → settled_rt ds d zone r →
  (let* present := fw_query zone r in
   when (if ds is enabled then negb present else present) act) s
  = (Ret tt, add_calls [Query zone r] s).
Proof.
  intros Hidle (x & Hx & Hh). unfold bind.
  rewrite fw_query_run, (idle_fw _ _ _ _ Hidle), Hx, Hh. by destruct ds.
Qed.

Lemma triple_idle_item ds (m : M unit) zone k o r y :
  settled_rt ds d zone r → has y r = wanted ds →
  (∀ s, idle d n x0 s →
        m s = (Ret tt, add_calls [Query zone r] s)) →
  triple (λ s, idle d n x0 s ∧ heap s !! o = Some y)
    (m ;; reconcile_permanent ds k o r)
    (λ _ s, idle d n x0 s ∧ heap s !! o = Some y)
    (λ _ _, False) (λ _, False).
Proof.
  intros Hrt Hy Hm s [Hidle Ho]. unfold bind. rewrite (Hm s Hidle).
  rewrite (reconcile_permanent_settled _ _ _ _ _ y); [|done..].
  split; [by apply idle_add_calls|done].
Qed.

Lemma triple_idle_service_item ds zone item :
  settled_rt ds d zone (Service item) → has x0 (Service item) = wanted ds →
  triple (idle d n x0) (service_item ds zone 0 item) (λ _, idle d n x0)
    (λ _ _, False) (λ _, False).
Proof.
  intros Hrt Hpm. eapply triple_conseq.
  - unfold service_item.
    destruct ds; apply (triple_idle_item _ _ zone zone 0 _ x0); try done;
      intros s Hs;
      first [by apply (runtime_half_settled enabled zone _ s)
            |by apply (runtime_half_settled disabled zone _ s)].
  - intros s Hs. split; [done|apply Hs].
  - by intros _ s [? _].
  - done.
  - done.
Qed.

Lemma triple_idle_port_item ds zone item :
  settled_rt ds d zone (Port item.1 item.2) →
  has x0 (Port item.1 item.2) = wanted ds →
  triple (idle d n x0) (port_item ds zone 0 item) (λ _, idle d n x0)
    (λ _ _, False) (λ _, False).
Proof.
  destruct item as [_port _protocol]. cbn [fst snd].
  intros Hrt Hpm. eapply triple_conseq.
  - unfold port_item. cbv beta iota.
    destruct ds; apply (triple_idle_item _ _ zone zone 0 _ x0); try done;
      intros s Hs;
      first [by apply (runtime_half_settled enabled zone _ s)
            |by apply (runtime_half_settled disabled zone _ s)].
  - intros s Hs. split; [done|apply Hs].
  - by intros _ s [? _].
  - done.
  - done.
Qed.

Lemma triple_idle_interface_item e ds k o item y :
  fast_path e n item = false →
  settled_rt ds d k (Interface item) → has y (Interface item) = wanted ds →
  triple (λ s, idle d n x0 s ∧ heap s !! o = Some y)
    (interface_item e ds k o item)
    (λ _ s, idle d n x0 s ∧ heap s !! o = Some y)
    (λ _ _, False) (λ _, False).
Proof.
  intros Hfast Hrt Hy s [Hidle Ho]. unfold interface_item.
  assert (Hfast' : fast_path e (nm s) item = false)
    by by rewrite (idle_nm _ _ _ _ Hidle).
  destruct ds; unfold bind at 1.
  - destruct (try_set_zone_of_interface_skipped e k item s Hfast')
      as (cs & ->).
    apply (triple_idle_item enabled _ k k o _ y); try done.
    + intros s' Hs'. by apply (runtime_half_settled enabled k _ s').
    + split; [by apply idle_add_calls|done].
  - destruct (try_set_zone_of_interface_skipped e "" item s Hfast')
      as (cs & ->).
    apply (triple_idle_item disabled _ k k o _ y); try done.
    + intros s' Hs'. by apply (runtime_half_settled disabled k _ s').
    + split; [by apply idle_add_calls|done].
Qed.

Lemma settings_of_zone_fresh k y s :
  idle d n x0 s → permanent d !! k = Some y →
  settings_of_zone k s
  = (Ret (length (heap s)),
     State d n (heap s ++ [y]) false []
       (calls s ++ [GetZoneByName k; GetSettings k])).
Proof.
  intros [Hfw Hnm Hch Hcz H0] Hy.
  unfold settings_of_zone, zone_getSettings, bind at 1.
  rewrite config_getZoneByName_run, Hfw, Hy.
  unfold bind, called, modify, gets, ret. simpl.
  rewrite Hcz. cbn [dict_get]. cbv beta. cbn [fw add_calls add_call].
  rewrite Hfw, Hy. unfold set_heap, add_call, add_calls. simpl.
  rewrite Hch, Hcz, Hnm, Hfw. by rewrite <- app_assoc.
Qed.

Lemma idle_fetched k y s :
  idle d n x0 s →
  idle d n x0 (State d n (heap s ++ [y]) false []
                 (calls s ++ [GetZoneByName k; GetSettings k]))
  ∧ (heap s ++ [y]) !! length (heap s) = Some y.
Proof.
  intros [Hfw Hnm Hch Hcz H0]. split; [split; simpl; try done|].
  - by apply lookup_app_l_Some.
  - rewrite lookup_app_r by lia. by rewrite Nat.sub_diag.
Qed.

Lemma triple_idle_interface_section e ds zone fixed items :
  permanent d !! zone = Some x0 →
  Forall (λ i, fast_path e n i = false) items →
  Forall (λ i, settled_rt ds d fixed (Interface i)
               ∧ settled_pm ds d fixed (Interface i)) items →
  triple (idle d n x0) (interface_section e ds zone 0 fixed items)
    (λ _, idle d n x0) (λ _ _, False) (λ _, False).
Proof.
  intros Hzone Hfast Hsat. unfold interface_section.
  apply triple_when; [|done]. intros Hlen%bool_decide_eq_true.
  destruct items as [|i0 items0] eqn:Hitems; [simpl in Hlen; lia|].
  rewrite <- Hitems in *. clear Hlen.
  assert (∃ y, permanent d !! fixed = Some y) as [y Hy].
  { rewrite Hitems in Hsat. apply Forall_cons in Hsat as [[_ (y & ? & _)] _].
    by exists y. }
  eapply (triple_bind _ _ _
    (λ zs s, zs.1 = fixed ∧ idle d n x0 s ∧ heap s !! zs.2 = Some y)).
  { intros s Hidle. unfold fixed_zone. case_decide as Hz.
    - unfold bind. rewrite (settings_of_zone_fresh fixed y s); [|done..].
      simpl. split; [done|]. exact (idle_fetched fixed y s Hidle).
    - simpl. assert (zone = fixed) as ->
        by (destruct (decide (zone = fixed)); [done|contradiction]).
      split; [done|]. split; [done|].
      rewrite (idle_nominal _ _ _ _ Hidle). congruence. }
  intros [k o]. simpl. eapply triple_conseq.
  - apply (triple_for_each
      (λ _ s, k = fixed ∧ idle d n x0 s ∧ heap s !! o = Some y)).
    intros pre i post Hsplit s (-> & Hidle & Ho).
    assert (Hin : i ∈ items) by (rewrite Hsplit; set_solver).
    rewrite Forall_forall in Hfast, Hsat.
    destruct (Hsat i Hin) as [Hrt (y' & Hy' & Hh)].
    assert (y' = y) as -> by congruence.
    pose proof (triple_idle_interface_item e ds fixed o i y (Hfast i Hin)
      Hrt Hh s (conj Hidle Ho)) as Ht.
    destruct (interface_item e ds fixed o i s) as [[[]| | |] s']; try done.
  - intros s Hs. exact Hs.
  - by intros _ s (_ & ? & _).
  - intros c s H. exact H.
  - intros s H. exact H.
Qed.

Lemma forward_port_item_settled ds _zone o r y s :
  settled_rt ds d _zone r → has y r = wanted ds →
  idle d n x0 s → heap s !! o = Some y →
  match ds with
  | enabled =>
      (let* present := fw_query _zone r in
       when (negb present) (fw_add _zone r;; mark_changed));;
      reconcile_permanent enabled _zone o r
  | disabled =>
      (let* present := fw_query _zone r in
       when present (fw_remove _zone r;; mark_changed));;
      reconcile_permanent disabled _zone o r
  end s = (Ret tt, add_calls [Query _zone r] s).
Proof.
  intros Hrt Hh Hidle Ho. destruct ds; unfold bind at 1.
  - rewrite (runtime_half_settled enabled _zone r s _ Hidle Hrt).
    by apply (reconcile_permanent_settled _ _ _ _ _ y).
  - rewrite (runtime_half_settled disabled _zone r s _ Hidle Hrt).
    by apply (reconcile_permanent_settled _ _ _ _ _ y).
Qed.

Lemma triple_idle_forward_port_item ds zone item :
  permanent d !! zone = Some x0 →
  settled_rt ds d (forward_zone d zone item.1.1.1.1) (forward_rule_of item) →
  settled_pm ds d (settings_zone zone (forward_zone d zone item.1.1.1.1))
    (forward_rule_of item) →
  triple (idle d n x0) (forward_port_item ds zone 0 item) (λ _, idle d n x0)
    (λ _ _, False) (λ _, False).
Proof.
  destruct item as [[[[_interface _port] _protocol] _to_port] _to_addr].
  unfold forward_rule_of. cbn [fst snd].
  intros Hzone Hrt (y & Hy & Hh) s Hidle. unfold forward_port_item.
  cbv beta iota zeta.
  set (r := ForwardPort _port _protocol _to_port _to_addr) in *.
  unfold bind at 1.
  assert (Hz : (if decide (_interface ≠ "")
                then fw_getZoneOfInterface _interface else ret zone) s
               = (Ret (forward_zone d zone _interface),
                  add_calls (if decide (_interface ≠ "")
                             then [GetZoneOfInterface _interface] else [])
                    s)).
  { unfold forward_zone. case_decide.
    - by rewrite fw_getZoneOfInterface_run, (idle_fw _ _ _ _ Hidle).
    - unfold ret, add_calls. rewrite app_nil_r. by destruct s. }
  rewrite Hz. clear Hz.
  set (_zone := forward_zone d zone _interface) in *.
  set (s1 := add_calls _ s).
  assert (Hidle1 : idle d n x0 s1) by by apply idle_add_calls.
  unfold bind at 1. unfold settings_zone in Hy.
  case_decide as Hcase.
  - rewrite (settings_of_zone_fresh _zone y s1); [|done..].
    destruct (idle_fetched _zone y s1 Hidle1) as [Hidle2 Ho].
    rewrite (forward_port_item_settled ds _zone _ r y _ Hrt Hh Hidle2 Ho).
    by apply idle_add_calls.
  - unfold ret at 1.
    assert (y = x0) as -> by congruence.
    rewrite (forward_port_item_settled ds _zone 0 r x0 s1 Hrt Hh Hidle1
               (idle_nominal _ _ _ _ Hidle1)).
    by apply idle_add_calls.
Qed.

Lemma triple_idle_reconcile e ds zone service port trust masq forward_port :
  permanent d !! zone = Some x0 →
  Forall (λ i, fast_path e n i = false) (trust ++ masq) →
  satisfied ds d zone service port trust masq forward_port →
  triple (idle d n x0)
    (reconcile e ds zone 0 service port trust masq forward_port)
    (λ _ _, False) (λ c s, c = false ∧ idle d n x0 s) (λ _, False).
Proof.
  intros Hzone [Hft Hfm]%Forall_app [Hsvc Hport Htrust Hmasq Hfwd].
  assert (Hx0 : ∀ r, settled_pm ds d zone r → has x0 r = wanted ds).
  { intros r (y & Hy & Hh). congruence. }
  unfold reconcile.
  eapply (triple_bind _ _ _ (λ _, idle d n x0)); [by intros s []|intros []].
  eapply (triple_bind _ _ _ (λ _, idle d n x0)); [by intros s []|intros []].
  eapply triple_bind; [|intros []].
  { apply triple_weaken_exit.
    apply (triple_for_each_Forall _ _ _ _ _ _ Hsvc). intros x [Hrt Hpm].
    apply triple_idle_service_item; auto. }
  eapply triple_bind; [|intros []].
  { apply triple_weaken_exit.
    apply (triple_for_each_Forall _ _ _ _ _ _ Hport). intros x [Hrt Hpm].
    apply triple_idle_port_item; auto. }
  eapply triple_bind; [|intros []].
  { apply triple_weaken_exit. by apply triple_idle_interface_section. }
  eapply triple_bind; [|intros []].
  { apply triple_weaken_exit. by apply triple_idle_interface_section. }
  eapply (triple_bind _ _ _ (λ _, idle d n x0)); [|intros []].
  { apply triple_weaken_exit. apply triple_when; [intros _|by intros _ s Hs].
    apply (triple_for_each_Forall _ _ _ _ _ _ Hfwd). intros x [Hrt Hpm].
    by apply triple_idle_forward_port_item. }
  intros s Hidle. unfold apply_changes, gets, when, bind. cbv beta iota.
  rewrite (idle_changed _ _ _ _ Hidle). simpl. by split.
Qed.
End second_pass.

(** ** Rules and zone contents *)

Lemma has_with_rule x r : has (with_rule x r) r = true.
Proof. destruct r; simpl; apply bool_decide_eq_true; set_solver. Qed.

Lemma has_without_rule x r : has (without_rule x r) r = false.
Proof. destruct r; simpl; apply bool_decide_eq_false; set_solver. Qed.

Lemma has_with_rule_mono x r r' :
  has x r' = true → has (with_rule x r) r' = true.
Proof.
  destruct r, r'; simpl; try done; rewrite !bool_decide_eq_true; set_solver.
Qed.

Lemma has_without_rule_mono x r r' :
  has x r' = false → has (without_rule x r) r' = false.
Proof.
  destruct r, r'; simpl; try done; rewrite !bool_decide_eq_false; set_solver.
Qed.

Lemma has_without_rule_other x r r' :
  r' ≠ r → has (without_rule x r) r' = has x r'.
Proof.
  intros Hne. destruct r, r'; simpl; try done; apply bool_decide_ext;
    set_solver.
Qed.

Lemma has_with_rule_other x r r' :
  r' ≠ r → has (with_rule x r) r' = has x r'.
Proof.
  intros Hne. destruct r, r'; simpl; try done; apply bool_decide_ext;
    set_solver.
Qed.




(** ** The fast path and the changed flag *)

Section sure.
Lemma sure_ret {A : Type} (a : A) : sure (ret a).
Proof. by intros s c. Qed.

Lemma sure_bind {A B : Type} (m : M A) (k : A → M B) :
  sure m → (∀ a, sure (k a)) → sure (bind m k).
Proof.
  intros Hm Hk s c. unfold bind. specialize (Hm s).
  destruct (m s) as [[a|c'| |] s']; simpl in *; try done; [apply Hk|].
  intros [= <-]. by apply Hm.
Qed.

Lemma sure_gets {A : Type} (f : state → A) : sure (gets f).
Proof. by intros s c. Qed.

Lemma sure_modify (f : state → state) : sure (modify f).
Proof. by intros s c. Qed.

Lemma sure_exit_json_true {A : Type} : sure (@exit_json A true).
Proof. by intros s c [= <-]. Qed.

Lemma sure_fail_json {A : Type} msg : sure (@fail_json A msg).
Proof. by intros s c. Qed.

Lemma sure_raise {A : Type} x : sure (@raise A x).
Proof. by intros s c. Qed.

Lemma sure_when b m : sure m → sure (when b m).
Proof. destruct b; [done|]. intros _. apply sure_ret. Qed.

Lemma sure_for_each {A : Type} (l : list A) body :
  (∀ x, sure (body x)) → sure (for_each l body).
Proof.
  intros Hb. induction l as [|x l IH]; simpl; [apply sure_ret|].
  by apply sure_bind.
Qed.

Lemma sure_try_except_else {A B : Type} (m : M A) (h : M B) (k : A → M B) :
  sure m → sure h → (∀ a, sure (k a)) → sure (try_except_else m h k).
Proof.
  intros Hm Hh Hk s c. unfold try_except_else. specialize (Hm s).
  destruct (m s) as [[a|c'| |] s']; simpl in *; try done;
    [apply Hk| |apply Hh].
  intros [= <-]. by apply Hm.
Qed.
End sure.

Ltac surely :=
  intros;
  repeat first
    [ assumption
    | apply sure_ret | apply sure_gets | apply sure_modify
    | apply sure_exit_json_true | apply sure_fail_json | apply sure_raise
    | apply sure_bind; [|intros ?]
    | apply sure_when
    | apply sure_for_each; intros ?
    | apply sure_try_except_else; [| |intros ?]
    | match goal with
      | |- sure (match ?x with _ => _ end) => destruct x
      end ].

Lemma sure_fixed_zone z o fixed : sure (fixed_zone z o fixed).
Proof.
  unfold fixed_zone, settings_of_zone, config_getZoneByName,
    zone_getSettings, invalid_zone, called.
  surely.
Qed.

Lemma sure_interface_item e ds z o item :
  sure (interface_item e ds z o item).
Proof.
  unfold interface_item,
    try_set_zone_of_interface, nm_is_imported,
    nm_get_connection_of_interface, nm_set_zone_of_connection,
    reconcile_permanent, fw_query, fw_remove,
    fw_changeZoneOfInterface, rt_alter, settings_query, settings_add,
    settings_remove, mark_changed, register, invalid_zone, called.
  surely.
Qed.

Lemma sure_interface_section e ds z o fixed items :
  sure (interface_section e ds z o fixed items).
Proof.
  pose proof sure_fixed_zone. pose proof sure_interface_item.
  unfold interface_section. surely; auto.
Qed.

Lemma sure_service_item ds z o item : sure (service_item ds z o item).
Proof.
  unfold service_item, reconcile_permanent, fw_query, fw_add, fw_remove,
    rt_alter, settings_query, settings_add, settings_remove, mark_changed,
    register, invalid_zone, called.
  surely.
Qed.

Lemma sure_port_item ds z o item : sure (port_item ds z o item).
Proof.
  unfold port_item, reconcile_permanent, fw_query, fw_add, fw_remove,
    rt_alter, settings_query, settings_add, settings_remove, mark_changed,
    register, invalid_zone, called.
  destruct item. surely.
Qed.

Lemma sure_forward_port_item ds z o item :
  sure (forward_port_item ds z o item).
Proof.
  unfold forward_port_item, fw_getZoneOfInterface, settings_of_zone,
    reconcile_permanent, fw_query, fw_add, fw_remove, rt_alter,
    config_getZoneByName, zone_getSettings, settings_query, settings_add,
    settings_remove, mark_changed, register, invalid_zone, called.
  destruct item as [[[[? ?] ?] ?] ?]. surely.
Qed.

#[local] Instance same_connections_preorder : PreOrder same_connections.
Proof.
  split; [by intros s|].
  intros s1 s2 s3 (? & ? & ?) (? & ? & ?). repeat split; [congruence..|auto].
Qed.

#[local] Hint Extern 1 (keeps same_connections (called _)) =>
  apply keeps_modify; intros ?; by repeat split : keeps.
#[local] Hint Extern 1 (keeps same_connections (modify _)) =>
  apply keeps_modify; intros ?; by repeat split : keeps.

Lemma same_connections_try_set_zone_of_interface e z i :
  keeps same_connections (try_set_zone_of_interface e z i).
Proof.
  assert (keeps same_connections (nm_set_zone_of_connection z i)).
  { intros s. unfold nm_set_zone_of_connection, bind, called, gets, modify,
      raise. simpl. by destruct (nm_set_fails (nm s) z i). }
  assert (∀ c, keeps same_connections (nm_set_zone_of_connection z c)).
  { intros c s. unfold nm_set_zone_of_connection, bind, called, gets, modify,
      raise. simpl. by destruct (nm_set_fails (nm s) z c). }
  unfold try_set_zone_of_interface, nm_is_imported,
    nm_get_connection_of_interface.
  kept.
Qed.

Lemma same_connections_pieces e ds :
  (∀ z o item, keeps same_connections (service_item ds z o item))
  ∧ (∀ z o item, keeps same_connections (port_item ds z o item))
  ∧ (∀ z o fixed items,
       keeps same_connections (interface_section e ds z o fixed items))
  ∧ (∀ z o item, keeps same_connections (forward_port_item ds z o item))
  ∧ (∀ z o fixed, keeps same_connections (fixed_zone z o fixed))
  ∧ (∀ z o item, keeps same_connections (interface_item e ds z o item)).
Proof.
  assert (Hq : ∀ z r, keeps same_connections (fw_query z r))
    by (unfold fw_query; kept).
  assert (Hrt : ∀ f z, keeps same_connections (rt_alter f z))
    by (unfold rt_alter; kept).
  assert (Ha : ∀ z r, keeps same_connections (fw_add z r))
    by (unfold fw_add; kept).
  assert (Hr : ∀ z r, keeps same_connections (fw_remove z r))
    by (unfold fw_remove; kept).
  assert (Hc : ∀ z i, keeps same_connections (fw_changeZoneOfInterface z i))
    by (unfold fw_changeZoneOfInterface; kept).
  assert (Hp : ∀ ds z o r,
    keeps same_connections (reconcile_permanent ds z o r)).
  { unfold reconcile_permanent, settings_query, settings_add, settings_remove,
      mark_changed, register. kept. }
  assert (Hm : keeps same_connections mark_changed)
    by (unfold mark_changed; kept).
  assert (Hs : ∀ z, keeps same_connections (settings_of_zone z)).
  { unfold settings_of_zone, config_getZoneByName, zone_getSettings. kept. }
  assert (Hg : ∀ i, keeps same_connections (fw_getZoneOfInterface i))
    by (unfold fw_getZoneOfInterface; kept).
  pose proof (same_connections_try_set_zone_of_interface e) as Ht.
  assert (H3 : ∀ z o item,
    keeps same_connections (interface_item e ds z o item))
    by (unfold interface_item; kept).
  split_and!.
  - unfold service_item; kept.
  - unfold port_item; kept.
  - unfold interface_section, fixed_zone; kept.
  - intros ? ? [[[[? ?] ?] ?] ?]. unfold forward_port_item. kept.
  - unfold fixed_zone; kept.
  - done.
Qed.

Lemma triple_kept {A : Type} (I : state → Prop) (m : M A) :
  keeps same_connections m → sure m →
  (∀ s s', same_connections s s' → I s → I s') →
  triple I m (λ _, I) (λ c _, c = true) (λ _, True).
Proof.
  intros Hk Hs HI s Hpre. specialize (Hk s). specialize (Hs s).
  destruct (m s) as [[a|c| |] s']; simpl in *; try done; eauto.
Qed.

Lemma try_set_zone_of_interface_fast e z i s :
  fast_path e (nm s) i = true →
  match try_set_zone_of_interface e z i s with
  | (Ret b, _) => b = true
  | (ExitJson _, _) => False
  | _ => True
  end.
Proof.
  unfold fast_path. intros [[Hnm Himp]%andb_prop Hc]%andb_prop.
  unfold try_set_zone_of_interface, try_except_else, nm_is_imported,
    nm_get_connection_of_interface, nm_set_zone_of_connection, bind, called,
    modify, gets, ret, raise.
  rewrite Hnm. simpl. rewrite Himp. simpl.
  destruct (nm_connection_of (nm s) i) as [| |conn]; try done. simpl.
  by destruct (nm_set_fails (nm s) z conn).
Qed.

Lemma interface_item_fast e z o i s :
  fast_path e (nm s) i = true →
  match interface_item e enabled z o i s with
  | (Ret _, s') => changed s' = true
  | (ExitJson _, _) => False
  | _ => True
  end.
Proof.
  intros Hf%(try_set_zone_of_interface_fast e z i s).
  unfold interface_item. unfold bind at 1.
  by destruct (try_set_zone_of_interface e z i s) as [[[|]| | |] s1].
Qed.

Lemma knows_kept n s s' : same_connections s s' → knows n s → knows n s'.
Proof. intros (? & ? & _) [? ?]. split; congruence. Qed.

Lemma knows_fast_path e n i s :
  knows n s → fast_path e (nm s) i = fast_path e n i.
Proof. intros [Hi Hc]. unfold fast_path. by rewrite Hi, Hc. Qed.

Lemma triple_section_fast e n i z o fixed items :
  i ∈ items → fast_path e n i = true →
  triple (knows n) (interface_section e enabled z o fixed items)
    (λ _ s, knows n s ∧ changed s = true) (λ c _, c = true) (λ _, True).
Proof.
  intros Hin Hfast.
  destruct (same_connections_pieces e enabled) as (_ & _ & _ & _ & Hfz & Hit).
  unfold interface_section. apply triple_when.
  2:{ intros Hlen%bool_decide_eq_false. destruct items; [set_solver|].
      simpl in Hlen. lia. }
  intros _. eapply (triple_bind _ _ _ (λ _, knows n)).
  { apply triple_kept; [apply Hfz|apply sure_fixed_zone|apply knows_kept]. }
  intros zs. eapply triple_conseq;
    [apply (triple_for_each
       (λ pre s, knows n s ∧ (i ∈ pre → changed s = true)) _ _
       (λ c _, c = true) (λ _, True))|..].
  - intros pre x post _ s [Hk Hpre].
    pose proof (Hit zs.1 zs.2 x s) as HR.
    pose proof (sure_interface_item e enabled zs.1 zs.2 x s) as HS.
    destruct (decide (x = i)) as [->|Hne].
    + pose proof (interface_item_fast e zs.1 zs.2 i s) as Hf.
      rewrite (knows_fast_path e n i s Hk) in Hf. specialize (Hf Hfast).
      destruct (interface_item e enabled zs.1 zs.2 i s) as [[[]|c| |] s'];
        simpl in *; try done.
      split; [by eapply knows_kept|done].
    + destruct (interface_item e enabled zs.1 zs.2 x s) as [[[]|c| |] s'];
        simpl in *; try done; [|by apply HS].
      split; [by eapply knows_kept|].
      intros [Hp| ->%list_elem_of_singleton]%elem_of_app; [|done].
      destruct HR as (_ & _ & Hflag). auto.
  - intros s Hk. split; [done|]. by intros ?%elem_of_nil.
  - intros _ s [Hk HT]. auto.
  - done.
  - done.
Qed.

Lemma triple_finish_flagged {A : Type} :
  triple (λ s, changed s = true) (apply_changes ;; @exit_json A false)
    (λ _ _, False) (λ c _, c = true) (λ _, True).
Proof.
  intros s Hch. unfold bind. pose proof (apply_changes_run s) as Hrun.
  destruct (apply_changes s) as [[[]|c| |] s1]; simpl; try done.
  - destruct Hrun. congruence.
  - by destruct Hrun.
Qed.

Lemma triple_reconcile_fast e n i z o service port trust masq forward_port :
  i ∈ trust ++ masq → fast_path e n i = true →
  triple (knows n)
    (reconcile e enabled z o service port trust masq forward_port)
    (λ _ _, False) (λ c _, c = true) (λ _, True).
Proof.
  intros Hin Hfast.
  destruct (same_connections_pieces e enabled)
    as (Hsvc & Hport & Hsec & Hfwd & _ & _).
  assert (Hflag : ∀ s s', same_connections s s' →
            changed s = true → changed s' = true) by (intros s s' (_ & _ & H); done).
  unfold reconcile.
  eapply (triple_bind _ _ _ (λ _, knows n)); [by intros s Hs|intros []].
  eapply (triple_bind _ _ _ (λ _, knows n)); [by intros s Hs|intros []].
  eapply (triple_bind _ _ _ (λ _, knows n)); [|intros []].
  { apply triple_kept; [|apply sure_for_each; intros; apply sure_service_item
                        |apply knows_kept].
    apply keeps_for_each. intros. apply Hsvc. }
  eapply (triple_bind _ _ _ (λ _, knows n)); [|intros []].
  { apply triple_kept; [|apply sure_for_each; intros; apply sure_port_item
                        |apply knows_kept].
    apply keeps_for_each. intros. apply Hport. }
  eapply (triple_bind _ _ _
    (λ _ s, knows n s ∧ (i ∈ trust → changed s = true))); [|intros []].
  { destruct (decide (i ∈ trust)) as [Ht|Ht].
    - eapply triple_conseq; [by apply (triple_section_fast e n i)|..];
        try done. intros _ s [? ?]. auto.
    - eapply triple_conseq;
        [apply (triple_kept (knows n));
           [apply Hsec|apply sure_interface_section|apply knows_kept]|..];
        done. }
  eapply (triple_bind _ _ _ (λ _ s, changed s = true)); [|intros []].
  { destruct (decide (i ∈ trust)) as [Ht|Ht].
    - eapply triple_conseq;
        [apply (triple_kept (λ s, changed s = true));
           [apply Hsec|apply sure_interface_section|apply Hflag]|..];
        try done. intros s [_ HT]. by apply HT.
    - assert (i ∈ masq) by set_solver.
      eapply triple_conseq; [by apply (triple_section_fast e n i)|..];
        try done; [by intros s [? _]|by intros _ s [_ ?]]. }
  eapply (triple_bind _ _ _ (λ _ s, changed s = true)); [|intros []].
  { apply triple_kept; [| |apply Hflag].
    - apply keeps_when, keeps_for_each. intros. apply Hfwd.
    - apply sure_when, sure_for_each. intros. apply sure_forward_port_item. }
  apply triple_finish_flagged.
Qed.

(** X13. Under [enabled], when the fast path applies to one of the trust
    or masquerade interfaces (the integration is there, the subsystem is
    active and a connection owns the interface), no pass ends with
    [changed = False]: it reports a change or fails, however often it is
    repeated. *)
Theorem fast_path_always_reports_change
    (e : env) (p : params) (d : daemon) (n : netman) (i : string) :
  param_state p = enabled →
  i ∈ param_trust p ++ param_masq p →
  fast_path e n i = true →
  (run e p d n).1 = ExitJson true ∨ is_failure (run e p d n).1.
Proof.
  intros Hds Hin Hfast.
  destruct (run e p d n).1 as [[]|[|]|msg|x] eqn:Hrun; simpl; auto.
  exfalso.
  destruct (main_exit_reaches _ _ _ _ _ Hrun)
    as (zone & x0 & port & fwd & Hr).
  unfold run in Hrun. rewrite (main_reconcile _ _ _ n _ _ _ _ Hr), Hds in Hrun.
  assert (Hk : knows n (State d n [x0] false [] (opening_calls p zone)))
    by done.
  pose proof (triple_reconcile_fast e n i zone 0 (param_service p) port
    (param_trust p) (param_masq p) fwd Hin Hfast _ Hk) as Ht.
  destruct (reconcile _ _ _ _ _ _ _ _ _ _) as [[[]|c| |] s'];
    simpl in *; try done. congruence.
Qed.

Lemma fast_path_always_reports_change_witness :
  let p := Params [] [] ["eth0"] [] [] None enabled in
  (run with_nm p host_eth0_trusted nm_eth0).1 = ExitJson true
  ∨ is_failure (run with_nm p host_eth0_trusted nm_eth0).1.
Proof.
  apply (fast_path_always_reports_change with_nm
    (Params [] [] ["eth0"] [] [] None enabled) host_eth0_trusted nm_eth0
    "eth0"); [reflexivity| |reflexivity].
  apply list_elem_of_singleton. reflexivity.
Defined.


(** ** What a pass achieves for services and ports *)

#[local] Instance steady_preorder ds zone : PreOrder (steady ds zone).
Proof.
  split.
  - intros s. split; auto.
  - intros s1 s2 s3 [Hd1 Hr1 Hh1 Ho1 Hg1 Hu1] [Hd2 Hr2 Hh2 Ho2 Hg2 Hu2].
    split; try by auto.
    + congruence.
    + intros Hne. destruct (Hu2 (Hh1 Hne)) as [?|H23]; [by left|].
      destruct (Hu1 Hne) as [?|H12]; [left; auto|].
      right. intros r Hr. by rewrite H23, H12.
Qed.

Lemma steady_same ds zone s s' :
  default_zone (fw s') = default_zone (fw s) →
  runtime (fw s') = runtime (fw s) →
  heap s' = heap s → changed_zones s' = changed_zones s →
  steady ds zone s s'.
Proof.
  intros Hd Hr Hh Hcz. split; rewrite ?Hh, ?Hcz; auto.
  unfold settled_rt, rt_zone. by rewrite Hd, Hr.
Qed.

#[local] Hint Extern 1 (keeps (steady _ _) (called _)) =>
  apply keeps_modify; intros ?; by apply steady_same : keeps.
#[local] Hint Extern 1 (keeps (steady _ _) (modify _)) =>
  apply keeps_modify; intros ?; by apply steady_same : keeps.

Lemma steady_rt_alter ds zone f z :
  (∀ x r, service_or_port r → has x r = wanted ds → has (f x) r = wanted ds) →
  keeps (steady ds zone) (rt_alter f z).
Proof.
  intros Hf s. unfold rt_alter, bind, gets, modify, invalid_zone, fail_json.
  simpl. destruct (runtime (fw s) !! rt_zone (fw s) z) as [x|] eqn:Hz;
    [|reflexivity].
  split; simpl; auto.
  intros r Hr (y & Hy & Hh). unfold settled_rt. simpl.
  change (if decide (zone = "") then default_zone (fw s) else zone)
    with (rt_zone (fw s) zone).
  destruct (decide (rt_zone (fw s) z = rt_zone (fw s) zone)) as [Heq|Hne].
  - rewrite Heq, lookup_insert_eq. exists (f x). split; [done|].
    apply Hf; [done|]. congruence.
  - rewrite lookup_insert_ne by done. by exists y.
Qed.

Lemma steady_fw_add zone z r : keeps (steady enabled zone) (fw_add z r).
Proof.
  unfold fw_add. apply keeps_bind; [kept|]. intros _. apply steady_rt_alter.
  intros x r' _. apply has_with_rule_mono.
Qed.

Lemma steady_fw_remove zone z r : keeps (steady disabled zone) (fw_remove z r).
Proof.
  unfold fw_remove. apply keeps_bind; [kept|]. intros _.
  apply steady_rt_alter. intros x r' _. apply has_without_rule_mono.
Qed.

Lemma rt_zone_set_runtime m d z : rt_zone (set_runtime m d) z = rt_zone d z.
Proof. reflexivity. Qed.

Lemma steady_fw_changeZoneOfInterface zone z i :
  keeps (steady enabled zone) (fw_changeZoneOfInterface z i).
Proof.
  intros s.
  unfold fw_changeZoneOfInterface, bind, called, gets, modify, invalid_zone,
    fail_json.
  cbn [fst snd fw add_call].
  destruct (((λ x, without_rule x (Interface i)) <$> runtime (fw s))
              !! rt_zone (fw s) z) as [x|] eqn:Hz.
  2:{ by apply steady_same. }
  split; cbn [fst snd fw heap changed_zones set_fw set_runtime add_call
              default_zone runtime]; auto.
  intros r Hr (y & Hy & Hh). unfold settled_rt.
  cbn [fst snd fw set_fw add_call]. rewrite rt_zone_set_runtime.
  cbn [runtime set_runtime].
  assert (Hother : ∀ x', has (without_rule x' (Interface i)) r = has x' r)
    by (intros; apply has_without_rule_other; by destruct r).
  destruct (decide (rt_zone (fw s) z = rt_zone (fw s) zone)) as [Heq|Hne].
  - rewrite Heq, lookup_insert_eq. eexists. split; [done|].
    rewrite has_with_rule_other by (by destruct r).
    rewrite Heq, lookup_fmap, Hy in Hz. injection Hz as <-.
    exact (eq_trans (Hother y) Hh).
  - rewrite lookup_insert_ne, lookup_fmap, Hy by done. simpl.
    eexists. split; [done|]. exact (eq_trans (Hother y) Hh).
Qed.

Lemma deref_insert h o o' x :
  deref (<[o := x]> h) o'
  = if decide (o = o' ∧ o < length h) then x else deref h o'.
Proof.
  unfold deref. case_decide as H.
  - destruct H as [<- ?]. by rewrite list_lookup_insert_eq.
  - destruct (decide (o = o')) as [<-|?].
    + rewrite list_insert_ge; [done|].
      destruct (decide (o < length h)); [tauto|lia].
    + by rewrite list_lookup_insert_ne.
Qed.

Lemma steady_reconcile_permanent ds zone k o r :
  (o = 0 → service_or_port r → k = zone) →
  keeps (steady ds zone) (reconcile_permanent ds k o r).
Proof.
  intros Hk s. rewrite reconcile_permanent_run. case_bool_decide; [reflexivity|].
  unfold record_change. cbn [snd].
  assert (Hmono : ∀ x r', has x r' = wanted ds →
    has (match ds with
         | enabled => with_rule x r
         | disabled => without_rule x r
         end) r' = wanted ds).
  { intros x r'. destruct ds; [apply has_with_rule_mono
                              |apply has_without_rule_mono]. }
  split; cbn [fw heap changed_zones]; auto.
  - intros Hne Hnil. apply (f_equal length) in Hnil.
    rewrite length_insert in Hnil. by destruct (heap s).
  - intros _ r' _ Hh. rewrite deref_insert. case_decide as Ho; [|done].
    destruct Ho as [-> _]. by apply Hmono.
  - intros Hreg. destruct (decide (k = zone)) as [->|Hne].
    + by rewrite dict_get_set_eq.
    + by rewrite dict_get_set_ne.
  - intros Hne.
    assert ((o = 0 ∧ service_or_port r) ∨ ¬ (o = 0 ∧ service_or_port r))
      as [[-> Hr]|Hno] by (destruct o, r; simpl; intuition congruence).
    + left. rewrite (Hk eq_refl Hr). by rewrite dict_get_set_eq.
    + right. intros r' Hr'. rewrite deref_insert. case_decide as Ho; [|done].
      destruct Ho as [-> _].
      assert (r' ≠ r) by (intros ->; tauto).
      destruct ds; [by apply has_with_rule_other
                   |by apply has_without_rule_other].
Qed.

Lemma steady_zone_getSettings ds zone z :
  keeps (steady ds zone) (zone_getSettings z).
Proof.
  intros s. unfold zone_getSettings, bind, called, gets, modify, ret,
    invalid_zone, fail_json.
  simpl. destruct (permanent (fw s) !! z) as [x|]; simpl;
    [|by apply steady_same].
  assert (Hd : heap s ≠ [] → deref (heap s ++ [x]) 0 = deref (heap s) 0).
  { intros Hne. unfold deref. rewrite lookup_app_l; [done|].
    destruct (heap s); simpl; [done|lia]. }
  split; simpl; auto.
  - intros _ Hnil. by destruct (heap s).
  - intros Hne r _. by rewrite (Hd Hne).
  - intros Hne. right. intros r _. by rewrite (Hd Hne).
Qed.

Lemma steady_zone_update ds zone z o : keeps (steady ds zone) (zone_update z o).
Proof. unfold zone_update. kept. Qed.

Lemma steady_pieces e ds zone :
  (∀ o item, keeps (steady ds zone) (service_item ds zone o item))
  ∧ (∀ o item, keeps (steady ds zone) (port_item ds zone o item))
  ∧ (∀ z o fixed items,
       keeps (steady ds zone) (interface_section e ds z o fixed items))
  ∧ (∀ z o item, keeps (steady ds zone) (forward_port_item ds z o item))
  ∧ keeps (steady ds zone) apply_changes.
Proof.
  assert (Hq : ∀ z r, keeps (steady ds zone) (fw_query z r))
    by (unfold fw_query; kept).
  pose proof (steady_fw_add zone) as Ha.
  pose proof (steady_fw_remove zone) as Hr.
  pose proof (steady_fw_changeZoneOfInterface zone) as Hc.
  assert (Hp : ∀ k o r, ¬ service_or_port r →
    keeps (steady ds zone) (reconcile_permanent ds k o r)).
  { intros. apply steady_reconcile_permanent. tauto. }
  assert (Hp' : ∀ o r,
    keeps (steady ds zone) (reconcile_permanent ds zone o r)).
  { intros. by apply steady_reconcile_permanent. }
  assert (Hm : keeps (steady ds zone) mark_changed)
    by (unfold mark_changed; kept).
  pose proof (steady_zone_getSettings ds zone) as Hgs.
  pose proof (steady_zone_update ds zone) as Hu.
  assert (Hs : ∀ z, keeps (steady ds zone) (settings_of_zone z)).
  { unfold settings_of_zone, config_getZoneByName. kept. }
  assert (Hg : ∀ i, keeps (steady ds zone) (fw_getZoneOfInterface i))
    by (unfold fw_getZoneOfInterface; kept).
  assert (Ht : ∀ z i, keeps (steady ds zone) (try_set_zone_of_interface e z i)).
  { unfold try_set_zone_of_interface, nm_is_imported,
      nm_get_connection_of_interface, nm_set_zone_of_connection. kept. }
  assert (H3 : ∀ z o item,
    keeps (steady ds zone) (interface_item e ds z o item)).
  { intros. unfold interface_item.
    destruct ds; kept; apply Hp; by intros ?. }
  split_and!.
  - intros. unfold service_item. destruct ds; kept.
  - intros ? []. unfold port_item. destruct ds; kept.
  - unfold interface_section, fixed_zone; kept.
  - intros ? ? [[[[? ?] ?] ?] ?]. unfold forward_port_item.
    destruct ds; kept; apply Hp; by intros ?.
  - unfold apply_changes, config_getZoneByName. kept.
Qed.

Lemma achieved_steady ds zone rs s s' :
  steady ds zone s s' → heap s ≠ [] → Forall service_or_port rs →
  achieved ds zone rs s → achieved ds zone rs s'.
Proof.
  intros Hst Hne Hrs Hach. unfold achieved in *.
  rewrite Forall_forall in *. intros r Hin.
  destruct (Hach r Hin) as [Hrt Hob].
  split; [eapply st_runtime|eapply st_object]; eauto.
Qed.

(** *** One rule *)

Lemma runtime_half_settles ds zone r (act : M unit) s :
  (∀ s x, runtime (fw s) !! rt_zone (fw s) zone = Some x →
     match act s with
     | (Ret _, s') => settled_rt ds (fw s') zone r ∧ heap s' = heap s
     | (ExitJson _, _) => False
     | _ => True
     end) →
  match (let* present := fw_query zone r in
         when (if ds is enabled then negb present else present) act) s with
  | (Ret _, s') => settled_rt ds (fw s') zone r ∧ heap s' = heap s
  | (ExitJson _, _) => False
  | _ => True
  end.
Proof.
  intros Hact. unfold bind. rewrite fw_query_run.
  destruct (runtime (fw s) !! rt_zone (fw s) zone) as [x|] eqn:Hx; [|done].
  specialize (Hact (add_calls [Query zone r] s) x Hx).
  destruct (has x r) eqn:Hh, ds; simpl; try done;
    split; try done; by exists x.
Qed.

Lemma rt_put_settled ds zone x r s :
  has x r = wanted ds → settled_rt ds (fw (rt_put zone x s)) zone r.
Proof.
  intros Hh. exists x. split; [|done]. unfold rt_put. simpl.
  change (if decide (zone = "") then default_zone (fw s) else zone)
    with (rt_zone (fw s) zone).
  apply lookup_insert_eq.
Qed.

Lemma fw_add_settles zone r s x :
  runtime (fw s) !! rt_zone (fw s) zone = Some x →
  match (fw_add zone r ;; mark_changed) s with
  | (Ret _, s') => settled_rt enabled (fw s') zone r ∧ heap s' = heap s
  | (ExitJson _, _) => False
  | _ => True
  end.
Proof.
  intros Hx. unfold bind. rewrite (fw_add_run _ _ _ x Hx). simpl.
  split; [|done]. apply (rt_put_settled enabled), has_with_rule.
Qed.

Lemma fw_remove_settles zone r s x :
  runtime (fw s) !! rt_zone (fw s) zone = Some x →
  match fw_remove zone r s with
  | (Ret _, s') => settled_rt disabled (fw s') zone r ∧ heap s' = heap s
  | (ExitJson _, _) => False
  | _ => True
  end.
Proof.
  intros Hx. rewrite (fw_remove_run _ _ _ x Hx).
  split; [|done]. apply (rt_put_settled disabled), has_without_rule.
Qed.

Lemma fw_remove_marked_settles zone r s x :
  runtime (fw s) !! rt_zone (fw s) zone = Some x →
  match (fw_remove zone r ;; mark_changed) s with
  | (Ret _, s') => settled_rt disabled (fw s') zone r ∧ heap s' = heap s
  | (ExitJson _, _) => False
  | _ => True
  end.
Proof.
  intros Hx. unfold bind. rewrite (fw_remove_run _ _ _ x Hx). simpl.
  split; [|done]. apply (rt_put_settled disabled), has_without_rule.
Qed.

Lemma item_settles ds zone r (m : M unit) s :
  heap s ≠ [] →
  match m s with
  | (Ret _, s') => settled_rt ds (fw s') zone r ∧ heap s' = heap s
  | (ExitJson _, _) => False
  | _ => True
  end →
  match (m ;; reconcile_permanent ds zone 0 r) s with
  | (Ret _, s') =>
      settled_rt ds (fw s') zone r ∧ has (deref (heap s') 0) r = wanted ds
  | (ExitJson _, _) => False
  | _ => True
  end.
Proof.
  intros Hne Hm. unfold bind. destruct (m s) as [[[]|?| |] s1]; try done.
  destruct Hm as [Hrt Hh]. rewrite reconcile_permanent_run.
  case_bool_decide as Hd; [done|]. unfold record_change. simpl.
  split; [done|]. rewrite deref_insert, decide_True.
  - destruct ds; [apply has_with_rule|apply has_without_rule].
  - split; [done|]. rewrite Hh. destruct (heap s); simpl; [done|lia].
Qed.

Lemma service_item_settles ds zone name s :
  heap s ≠ [] →
  match service_item ds zone 0 name s with
  | (Ret _, s') =>
      settled_rt ds (fw s') zone (Service name)
      ∧ has (deref (heap s') 0) (Service name) = wanted ds
  | (ExitJson _, _) => False
  | _ => True
  end.
Proof.
  intros Hne. unfold service_item.
  destruct ds; apply item_settles; try done.
  - apply (runtime_half_settles enabled). apply fw_add_settles.
  - apply (runtime_half_settles disabled). apply fw_remove_settles.
Qed.

Lemma port_item_settles ds zone pp s :
  heap s ≠ [] →
  match port_item ds zone 0 pp s with
  | (Ret _, s') =>
      settled_rt ds (fw s') zone (Port pp.1 pp.2)
      ∧ has (deref (heap s') 0) (Port pp.1 pp.2) = wanted ds
  | (ExitJson _, _) => False
  | _ => True
  end.
Proof.
  intros Hne. destruct pp as [_port _protocol]. unfold port_item.
  cbv beta iota. cbn [fst snd].
  destruct ds; apply item_settles; try done.
  - apply (runtime_half_settles enabled). apply fw_add_settles.
  - apply (runtime_half_settles disabled). apply fw_remove_marked_settles.
Qed.

(** *** The whole pass *)


Lemma rules_of_service_or_port service port :
  Forall service_or_port (rules_of service port).
Proof.
  unfold rules_of. apply Forall_app. split; apply Forall_fmap, Forall_true; done.
Qed.

Section achieves.
Context (e : env) (ds : intent) (zone : string) (s0 : state).
Hypothesis Hheap : heap s0 ≠ [].

Lemma triple_steady {A : Type} (m : M A) rs :
  keeps (steady ds zone) m → Forall service_or_port rs →
  triple (λ s, steady ds zone s0 s ∧ achieved ds zone rs s) m
    (λ _ s, steady ds zone s0 s ∧ achieved ds zone rs s)
    (λ _ s, steady ds zone s0 s ∧ achieved ds zone rs s) (λ _, True).
Proof.
  intros Hk Hrs s [Hst Hach]. specialize (Hk s).
  assert (steady ds zone s0 (m s).2 ∧ achieved ds zone rs (m s).2).
  { split; [by etrans|]. eapply achieved_steady; eauto.
    by apply (st_heap _ _ _ _ Hst). }
  by destruct (m s) as [[?|?| |] s'].
Qed.

Lemma triple_item_achieves (m : M unit) rs r :
  keeps (steady ds zone) m → Forall service_or_port rs →
  (∀ s, heap s ≠ [] →
     match m s with
     | (Ret _, s') =>
         settled_rt ds (fw s') zone r ∧ has (deref (heap s') 0) r = wanted ds
     | (ExitJson _, _) => False
     | _ => True
     end) →
  triple (λ s, steady ds zone s0 s ∧ achieved ds zone rs s) m
    (λ _ s, steady ds zone s0 s ∧ achieved ds zone (rs ++ [r]) s)
    (λ _ _, False) (λ _, True).
Proof.
  intros Hk Hrs Hm s [Hst Hach]. specialize (Hk s).
  assert (Hne : heap s ≠ []) by by apply (st_heap _ _ _ _ Hst).
  specialize (Hm s Hne).
  destruct (m s) as [[[]|?| |] s']; simpl in *; try done.
  split; [by etrans|]. unfold achieved. rewrite Forall_app. split.
  - by apply (achieved_steady ds zone rs s s').
  - by apply Forall_singleton.
Qed.

Lemma triple_reconcile_achieves service port trust masq forward_port :
  changed s0 = false → changed_zones s0 = [] →
  triple (λ s, s = s0)
    (reconcile e ds zone 0 service port trust masq forward_port)
    (λ _ _, False)
    (λ _ s, steady ds zone s0 s ∧ achieved ds zone (rules_of service port) s)
    (λ _, True).
Proof.
  intros Hch Hcz.
  destruct (steady_pieces e ds zone) as (Hsvc & Hport & Hsec & Hfwd & Hfin).
  pose proof (rules_of_service_or_port service port) as Hrs.
  unfold reconcile.
  eapply (triple_bind _ _ _ (λ _ s, s = s0)); [|intros []].
  { intros s ->. simpl. destruct s0; simpl in *; by subst. }
  eapply (triple_bind _ _ _ (λ _ s, s = s0)); [|intros []].
  { intros s ->. simpl. destruct s0; simpl in *; by subst. }
  eapply (triple_bind _ _ _
    (λ _ s, steady ds zone s0 s ∧ achieved ds zone (Service <$> service) s));
    [|intros []].
  { eapply triple_conseq;
      [apply (triple_for_each
         (λ pre s, steady ds zone s0 s ∧ achieved ds zone (Service <$> pre) s)
         _ _ (λ _ _, False) (λ _, True))|..]; try done.
    - intros pre x post _. rewrite fmap_app.
      apply triple_item_achieves; [apply Hsvc| |].
      + apply Forall_fmap, Forall_true; done.
      + intros s. apply service_item_settles.
    - intros s ->. split; [reflexivity|constructor]. }
  eapply (triple_bind _ _ _
    (λ _ s, steady ds zone s0 s ∧ achieved ds zone (rules_of service port) s));
    [|intros []].
  { eapply triple_conseq;
      [apply (triple_for_each
         (λ pre s, steady ds zone s0 s
                   ∧ achieved ds zone (rules_of service pre) s)
         _ _ (λ _ _, False) (λ _, True))|..]; try done.
    - intros pre x post _. unfold rules_of. rewrite fmap_app, app_assoc.
      apply triple_item_achieves; [apply Hport| |].
      + apply rules_of_service_or_port.
      + intros s. apply port_item_settles.
    - intros s [? ?]. split; [done|]. unfold rules_of. simpl.
      by rewrite app_nil_r. }
  eapply triple_bind; [eapply triple_conseq;
    [apply (triple_steady _ (rules_of service port)); [apply Hsec|done]
    |done..]
    |intros []].
  eapply triple_bind; [eapply triple_conseq;
    [apply (triple_steady _ (rules_of service port)); [apply Hsec|done]
    |done..]
    |intros []].
  eapply triple_bind; [eapply triple_conseq;
    [apply (triple_steady _ (rules_of service port)); [|done];
     by apply keeps_when, keeps_for_each|done..]
    |intros []].
  eapply triple_bind; [eapply triple_conseq;
    [apply (triple_steady _ (rules_of service port)); [apply Hfin|done]
    |done..]
    |intros []].
  by intros s Hs.
Qed.
End achieves.

Lemma write_back_lookup h P cz k :
  NoDup cz.*1 →
  write_back h P cz !! k
  = match dict_get k cz with Some o => Some (deref h o) | None => P !! k end.
Proof.
  unfold write_back. revert P.
  induction cz as [|[z o] cz IH]; intros P Hnd; [done|].
  rewrite fmap_cons in Hnd. apply NoDup_cons in Hnd as [Hz Hnd].
  simpl. rewrite IH by done. case_decide as Heq.
  - subst z. destruct (dict_get k cz) as [o'|] eqn:Hget.
    + destruct Hz. apply dict_get_Some_elem in Hget.
      apply list_elem_of_fmap. by exists (k, o').
    + by rewrite lookup_insert_eq.
  - destruct (dict_get k cz); [done|]. by rewrite lookup_insert_ne.
Qed.

Lemma committed_settled_pm ds zone P0 x0 s0 s r :
  P0 !! zone = Some x0 → heap s0 = [x0] →
  steady ds zone s0 s → committed P0 zone s → service_or_port r →
  has (deref (heap s) 0) r = wanted ds → settled_pm ds (fw s) zone r.
Proof.
  intros Hx0 Hh0 Hst Hcm Hr Hh. unfold settled_pm.
  rewrite (c_permanent _ _ _ Hcm), write_back_lookup by apply Hcm.
  destruct (dict_get zone (changed_zones s)) as [o|] eqn:Hreg.
  - assert (o = 0) as ->.
    { destruct (c_registered _ _ _ Hcm zone o Hreg) as [[_ ->]|[_ Hf]];
        [done|]. by apply (c_nominal _ _ _ Hcm). }
    by eexists.
  - exists x0. split; [done|].
    destruct (st_untouched _ _ _ _ Hst) as [[? Hsome]|Heq].
    + by rewrite Hh0.
    + congruence.
    + rewrite <- Hh, (Heq r Hr), Hh0. done.
Qed.

Lemma fetched_opening_calls p zone : fetched (opening_calls p zone) = [zone].
Proof. unfold opening_calls. by destruct (param_zone p). Qed.

Lemma updates_opening_calls p zone : updates (opening_calls p zone) = [].
Proof. unfold opening_calls. by destruct (param_zone p). Qed.

Lemma pass_achieves e p d n c zone x0 port forward_port :
  check_mode e = false →
  reaches e p d zone x0 port forward_port →
  (run e p d n).1 = ExitJson c →
  Forall (λ r, settled_rt (param_state p) (fw (run e p d n).2) zone r
               ∧ settled_pm (param_state p) (fw (run e p d n).2) zone r)
    (rules_of (param_service p) port).
Proof.
  intros Hcm Hr. unfold run. rewrite (main_reconcile _ _ _ n _ _ _ _ Hr).
  set (s0 := State d n [x0] false [] (opening_calls p zone)).
  pose proof (triple_reconcile_achieves e (param_state p) zone s0
    ltac:(done) (param_service p) port (param_trust p) (param_masq p)
    forward_port eq_refl eq_refl s0 eq_refl) as Hach.
  pose proof (triple_reconcile (permanent d) zone e (param_state p)
    (param_service p) port (param_trust p) (param_masq p) forward_port x0
    Hcm s0) as Hcommit.
  destruct (reconcile _ _ _ _ _ _ _ _ _ s0) as [[[]|c'| |] s'];
    simpl in *; try done.
  intros _. destruct Hach as [Hst Hach].
  assert (Hcd : committed (permanent d) zone s').
  { apply Hcommit. split_and!; try done.
    - apply (r_permanent _ _ _ _ _ _ _ Hr).
    - apply fetched_opening_calls.
    - apply updates_opening_calls. }
  pose proof (rules_of_service_or_port (param_service p) port) as Hrs.
  unfold achieved in Hach. rewrite Forall_forall in *.
  intros r Hin. destruct (Hach r Hin) as [Hrt Hob]. split; [done|].
  eapply (committed_settled_pm _ _ _ x0 s0); eauto.
  apply (r_permanent _ _ _ _ _ _ _ Hr).
Qed.

(** X14. Outside check mode, a pass that ends through [exit_json] has
    settled every service and every port of the parameters in the nominal
    zone, in the runtime layer and in the permanent layer: under [enabled]
    both layers have it, under [disabled] neither has, whatever other rules
    the pass handled. *)
Theorem pass_settles_services_and_ports
    (e : env) (p : params) (d : daemon) (n : netman) (c : bool)
    (port : list (string * string)) :
  check_mode e = false →
  (run e p d n).1 = ExitJson c →
  parse_all parse_port (param_port p) = Ret port →
  let d' := fw (run e p d n).2 in
  let zone := default (default_zone d) (param_zone p) in
  Forall (λ name,
    settled_rt (param_state p) d' zone (Service name)
    ∧ settled_pm (param_state p) d' zone (Service name)) (param_service p)
  ∧ Forall (λ pp,
      settled_rt (param_state p) d' zone (Port pp.1 pp.2)
      ∧ settled_pm (param_state p) d' zone (Port pp.1 pp.2)) port.
Proof.
  intros Hcm Hexit Hport d' zone.
  destruct (main_exit_reaches _ _ _ _ _ Hexit)
    as (zone' & x0 & port' & fwd & Hr).
  assert (port' = port) as ->.
  { pose proof (r_port _ _ _ _ _ _ _ Hr). congruence. }
  assert (zone' = zone) as -> by apply (r_zone _ _ _ _ _ _ _ Hr).
  pose proof (pass_achieves e p d n c zone x0 port fwd Hcm Hr Hexit) as H.
  unfold rules_of in H. apply Forall_app in H as [Hs Hp].
  apply Forall_fmap in Hs. apply Forall_fmap in Hp. done.
Qed.

Lemma pass_settles_services_and_ports_witness :
  let p := Params ["http"] ["80/tcp"] [] [] [] None enabled in
  let d' := fw (run plain p host no_nm).2 in
  Forall (λ name,
    settled_rt enabled d' "public" (Service name)
    ∧ settled_pm enabled d' "public" (Service name)) ["http"]
  ∧ Forall (λ pp,
      settled_rt enabled d' "public" (Port pp.1 pp.2)
      ∧ settled_pm enabled d' "public" (Port pp.1 pp.2)) [("80", "tcp")].
Proof.
  apply (pass_settles_services_and_ports plain
    (Params ["http"] ["80/tcp"] [] [] [] None enabled) host no_nm true
    [("80", "tcp")]); reflexivity.
Defined.

(** X15. Outside check mode, a pass with service and port rules only is
    idempotent: if it ends through [exit_json], the same pass over the
    daemon it leaves behind reports [changed = False] and changes
    nothing. *)
Theorem service_and_port_pass_is_idempotent
    (e : env) (p : params) (d : daemon) (n : netman) (c : bool) :
  check_mode e = false →
  param_trust p = [] → param_masq p = [] → param_forward_port p = [] →
  (run e p d n).1 = ExitJson c →
  let d' := fw (run e p d n).2 in
  let n' := nm (run e p d n).2 in
  (run e p d' n').1 = ExitJson false
  ∧ fw (run e p d' n').2 = d' ∧ nm (run e p d' n').2 = n'.
Proof.
  intros Hcm Ht Hm Hf Hexit d' n'.
  destruct (main_exit_reaches _ _ _ _ _ Hexit)
    as (zone & x0 & port & fwd & Hr).
  pose proof (pass_achieves e p d n c zone x0 port fwd Hcm Hr Hexit) as Hach.
  destruct (same_zones_main e p (start d n)) as (Hconn & Hdz & Hrt & Hpm).
  fold (run e p d n) in Hconn, Hdz, Hrt, Hpm. fold d' in Hconn, Hdz, Hrt, Hpm.
  simpl in Hconn, Hdz, Hrt, Hpm.
  assert (fwd = []) as ->.
  { pose proof (r_forward_port _ _ _ _ _ _ _ Hr) as H. rewrite Hf in H.
    simpl in H. congruence. }
  assert (is_Some (permanent d' !! zone)) as [x0' Hx0'].
  { apply elem_of_dom. rewrite Hpm. apply elem_of_dom.
    rewrite (r_permanent _ _ _ _ _ _ _ Hr). by eexists. }
  assert (Hr' : reaches e p d' zone x0' port []).
  { destruct Hr as [Hb Hc Hpp Hfp Hz Hv Hperm]. split.
    - done.
    - congruence.
    - done.
    - done.
    - by rewrite Hdz.
    - intros z Hzp. rewrite Hrt, Hpm. auto.
    - done. }
  unfold rules_of in Hach. apply Forall_app in Hach as [Hs Hp].
  apply Forall_fmap in Hs. apply Forall_fmap in Hp.
  assert (Hsat : satisfied (param_state p) d' zone (param_service p) port
                   (param_trust p) (param_masq p) []).
  { rewrite Ht, Hm. by split. }
  assert (Hfast : Forall (λ i, fast_path e n' i = false)
                    (param_trust p ++ param_masq p)).
  { rewrite Ht, Hm. constructor. }
  pose proof (main_reconcile _ _ _ n' _ _ _ _ Hr') as Hmain.
  change (main e p (start d' n')) with (run e p d' n') in Hmain.
  rewrite Hmain. clear Hmain.
  assert (Hidle : idle d' n' x0'
    (State d' n' [x0'] false [] (opening_calls p zone))) by done.
  pose proof (triple_idle_reconcile d' n' x0' e (param_state p) zone
    (param_service p) port (param_trust p) (param_masq p) []
    Hx0' Hfast Hsat _ Hidle) as Hrun.
  destruct (reconcile _ _ _ _ _ _ _ _ _ _) as [[[]|c'| |] s'];
    simpl in *; try done.
  destruct Hrun as [-> [? ? _ _ _]]. done.
Qed.

Lemma service_and_port_pass_is_idempotent_witness :
  let p := Params ["http"] ["80/tcp"] [] [] [] None enabled in
  let d' := fw (run plain p host no_nm).2 in
  let n' := nm (run plain p host no_nm).2 in
  (run plain p d' n').1 = ExitJson false
  ∧ fw (run plain p d' n').2 = d' ∧ nm (run plain p d' n').2 = n'.
Proof.
  apply (service_and_port_pass_is_idempotent plain
    (Params ["http"] ["80/tcp"] [] [] [] None enabled) host no_nm true);
    reflexivity.
Defined.


(** ** Unknown zones *)

(** A pass either gets as far as [reconcile] or ends in an error with the
    daemon and the connection manager untouched and no settings fetched. *)
Lemma main_stops_or_reaches e p d n :
  (∃ zone x0 port forward_port, reaches e p d zone x0 port forward_port)
  ∨ (is_failure (run e p d n).1
     ∧ fw (run e p d n).2 = d ∧ nm (run e p d n).2 = n
     ∧ calls (run e p d n).2
       `prefix_of` validation_calls p (default (default_zone d) (param_zone p))).
Proof.
  unfold run, main, validation_calls.
  unfold nominal_zone, fw_getDefaultZone, fw_getZones, config_getZoneNames,
    config_getZoneByName, zone_getSettings, invalid_zone, bind, when, lift,
    called, modify, gets, ret, fail_json.
  simpl.
  assert (Hnil : ∀ l : list call, [] `prefix_of` l) by apply prefix_nil.
  destruct (HAS_FIREWALLD e) eqn:Hfw; simpl; [|by right].
  destruct (parse_all parse_port (param_port p)) as [port|c'|m|x] eqn:Hport;
    simpl; try by right.
  2:{ by destruct (parse_all_not_exit parse_port (param_port p) c'
                     parse_port_not_exit). }
  destruct (parse_all _ (param_forward_port p)) as [fwd|c'|m|x] eqn:Hfwd;
    simpl; try by right.
  2:{ by destruct (parse_all_not_exit _ (param_forward_port p) c'
                     parse_forward_port_not_exit). }
  destruct (connected d) eqn:Hconn; simpl; [|by right].
  destruct (param_zone p) as [z|] eqn:Hz; simpl.
  - destruct (bool_decide (z ∉ dom (runtime d))) eqn:Hrt; simpl.
    { right. split_and!; try done. by exists [GetZoneNames; GetZoneByName z]. }
    destruct (bool_decide (z ∉ dom (permanent d))) eqn:Hpm; simpl.
    { right. split_and!; try done. by exists [GetZoneByName z]. }
    destruct (permanent d !! z) as [x0|] eqn:Hx0; simpl; [|by right].
    left. exists z, x0, port, fwd. split; try done.
    + by rewrite Hz.
    + intros z'. rewrite Hz. intros [= <-].
      apply bool_decide_eq_false in Hrt, Hpm.
      split; by apply dec_stable.
  - destruct (permanent d !! default_zone d) as [x0|] eqn:Hx0; simpl;
      [|by right].
    left. exists (default_zone d), x0, port, fwd. split; try done.
    + by rewrite Hz.
    + intros z'. by rewrite Hz.
Qed.

Lemma triple_section_unknown P0 zone e ds fixed items :
  items ≠ [] → zone ≠ fixed → P0 !! fixed = None →
  triple (wf P0 zone) (interface_section e ds zone 0 fixed items)
    (λ _ _, False) (λ _ _, False) (λ _, True).
Proof.
  intros Hi Hz Hf s Hwf.
  unfold interface_section, fixed_zone, settings_of_zone,
    config_getZoneByName, invalid_zone, bind, when, called, modify, gets, ret,
    fail_json.
  destruct items as [|i items]; [done|]. simpl.
  rewrite decide_True by done. simpl.
  by rewrite (wf_permanent _ _ _ Hwf), Hf.
Qed.

(** The pass cannot complete when a section with rules goes to a fixed zone
    that the permanent layer lacks. *)
Lemma triple_reconcile_unknown P0 zone e ds service port trust masq
    forward_port x0 :
  (trust ≠ [] ∧ zone ≠ "trusted" ∧ P0 !! "trusted" = None)
  ∨ (check_mode e = false
     ∧ masq ≠ [] ∧ zone ≠ "external" ∧ P0 !! "external" = None) →
  triple
    (λ s, permanent (fw s) = P0 ∧ P0 !! zone = Some x0 ∧ heap s = [x0]
          ∧ fetched (calls s) = [zone] ∧ updates (calls s) = [])
    (reconcile e ds zone 0 service port trust masq forward_port)
    (λ _ _, False) (λ _ _, False) (λ _, True).
Proof.
  intros Hcase. unfold reconcile.
  eapply (triple_bind _ _ _ (λ _ s,
    permanent (fw s) = P0 ∧ P0 !! zone = Some x0 ∧ heap s = [x0]
    ∧ fetched (calls s) = [zone] ∧ updates (calls s) = []
    ∧ changed s = false)).
  { by intros s (? & ? & ? & ? & ?). }
  intros [].
  eapply (triple_bind _ _ _ (λ _, wf P0 zone)).
  { intros s (Hp & Hx & Hh & Hf & Hu & Hch). simpl.
    split; unfold registered; simpl; rewrite ?Hh, ?Hf; try done.
    - intros o. destruct o; simpl; [done|]. split; [|done].
      by rewrite lookup_nil.
    - intros [|o] k; simpl; [|by rewrite lookup_nil].
      intros [= <-]. exists x0. split; [done|]. by left.
    - constructor. }
  intros [].
  eapply triple_bind.
  { apply (triple_for_each (λ _, wf P0 zone)). intros.
    apply triple_service_item. }
  intros []. eapply triple_bind.
  { apply (triple_for_each (λ _, wf P0 zone)). intros.
    apply triple_port_item. }
  intros [].
  destruct Hcase as [(Ht & Hz & Hnone)|(Hcm & Hm & Hz & Hnone)].
  - eapply triple_bind; [by apply triple_section_unknown|]. by intros [] s.
  - eapply triple_bind; [by apply triple_interface_section|].
    intros []. eapply triple_bind; [by apply triple_section_unknown|].
    by intros [] s.
Qed.

Lemma reconcile_unknown_fixed_zone e p d n :
  (param_trust p ≠ []
   ∧ default (default_zone d) (param_zone p) ≠ "trusted"
   ∧ permanent d !! "trusted" = None)
  ∨ (check_mode e = false ∧ param_masq p ≠ []
     ∧ default (default_zone d) (param_zone p) ≠ "external"
     ∧ permanent d !! "external" = None) →
  is_failure (run e p d n).1.
Proof.
  intros Hcase.
  destruct (run e p d n).1 as [[]|c| |] eqn:Hout; try done.
  unfold run in Hout.
  destruct (main_exit_reaches _ _ _ _ _ Hout)
    as (zone & x0 & port & fwd & Hreach).
  rewrite (main_reconcile _ _ _ _ _ _ _ _ Hreach) in Hout.
  rewrite <- (r_zone _ _ _ _ _ _ _ Hreach) in Hcase.
  pose proof (triple_reconcile_unknown (permanent d) zone e (param_state p)
    (param_service p) port (param_trust p) (param_masq p) fwd x0 Hcase
    (State d n [x0] false [] (opening_calls p zone))) as Ht.
  destruct (reconcile _ _ _ _ _ _ _ _ _ _) as [[v|c'| |] s']; try done.
  apply Ht. simpl. split_and!; try done.
  - apply Hreach.
  - apply fetched_opening_calls.
  - apply updates_opening_calls.
Qed.




(** ** The nominal zone is fetched once *)

Create HintDb spare discriminated.

Ltac spare :=
  repeat first
    [ solve [eauto 2 with spare nocore]
    | apply emits_ret | apply emits_gets | apply emits_exit_json
    | apply emits_fail_json | apply emits_raise | apply emits_lift
    | apply emits_called; unfold fetches_other; congruence
    | apply emits_modify; intros ?; reflexivity
    | apply emits_when
    | apply emits_for_each; intros ?
    | apply emits_try_except_else; [| |intros ?]
    | apply emits_bind; [|intros ?]
    | match goal with
      | |- emits _ (if ?x then _ else _) => destruct x
      | |- emits _ (match ?x with _ => _ end) => destruct x
      end ].

Section nominal_fetch.
Context (zone : string).

Lemma spare_fw_query z r : emits (fetches_other zone) (fw_query z r).
Proof. unfold fw_query, invalid_zone. spare. Qed.

Lemma spare_rt_alter f z : emits (fetches_other zone) (rt_alter f z).
Proof. unfold rt_alter, invalid_zone. spare. Qed.
#[local] Hint Resolve spare_fw_query spare_rt_alter : spare.

Lemma spare_fw_add z r : emits (fetches_other zone) (fw_add z r).
Proof. unfold fw_add. spare. Qed.

Lemma spare_fw_remove z r : emits (fetches_other zone) (fw_remove z r).
Proof. unfold fw_remove. spare. Qed.

Lemma spare_fw_changeZoneOfInterface z i :
  emits (fetches_other zone) (fw_changeZoneOfInterface z i).
Proof. unfold fw_changeZoneOfInterface, invalid_zone. spare. Qed.

Lemma spare_fw_getZoneOfInterface i :
  emits (fetches_other zone) (fw_getZoneOfInterface i).
Proof. unfold fw_getZoneOfInterface. spare. Qed.

Lemma spare_config_getZoneByName z :
  emits (fetches_other zone) (config_getZoneByName z).
Proof. unfold config_getZoneByName, invalid_zone. spare. Qed.

Lemma spare_zone_update z o : emits (fetches_other zone) (zone_update z o).
Proof. unfold zone_update. spare. Qed.

Lemma spare_reconcile_permanent ds k o r :
  emits (fetches_other zone) (reconcile_permanent ds k o r).
Proof.
  unfold reconcile_permanent, settings_query, settings_add, settings_remove,
    mark_changed, register. spare.
Qed.

Lemma spare_mark_changed : emits (fetches_other zone) mark_changed.
Proof. unfold mark_changed. spare. Qed.

#[local] Hint Resolve spare_fw_add spare_fw_remove
  spare_fw_changeZoneOfInterface spare_fw_getZoneOfInterface
  spare_config_getZoneByName spare_zone_update spare_reconcile_permanent
  spare_mark_changed : spare.

(** The settings of a zone other than [zone] are asked for. *)
Lemma spare_settings_of_zone k :
  k ≠ zone → emits (fetches_other zone) (settings_of_zone k).
Proof.
  intros Hk s.
  assert (H1 : Forall (fetches_other zone) [GetZoneByName k])
    by (by repeat constructor).
  assert (H2 : Forall (fetches_other zone) [GetZoneByName k; GetSettings k]).
  { repeat constructor; unfold fetches_other; congruence. }
  unfold settings_of_zone, config_getZoneByName, zone_getSettings,
    invalid_zone, bind, called, modify, gets, ret, fail_json. simpl.
  destruct (permanent (fw s) !! k) eqn:Hx; simpl; [|by eexists].
  destruct (dict_get k (changed_zones s)); simpl; [by eexists|].
  rewrite Hx. simpl. eexists. by rewrite <- app_assoc.
Qed.

Lemma spare_service_item ds o item :
  emits (fetches_other zone) (service_item ds zone o item).
Proof. unfold service_item. spare. Qed.

Lemma spare_port_item ds o item :
  emits (fetches_other zone) (port_item ds zone o item).
Proof. unfold port_item. spare. Qed.

Lemma spare_forward_port_item ds o item :
  emits (fetches_other zone) (forward_port_item ds zone o item).
Proof.
  unfold forward_port_item. destruct item as [[[[? ?] ?] ?] ?].
  apply emits_bind; [spare|]. intros _zone.
  apply emits_bind.
  { case_decide as Hz; [|spare]. apply spare_settings_of_zone. tauto. }
  intros o'. spare.
Qed.

Lemma spare_try_set_zone_of_interface e z i :
  emits (fetches_other zone) (try_set_zone_of_interface e z i).
Proof.
  unfold try_set_zone_of_interface, nm_is_imported,
    nm_get_connection_of_interface, nm_set_zone_of_connection. spare.
Qed.
#[local] Hint Resolve spare_try_set_zone_of_interface : spare.

Lemma spare_interface_item e ds z o item :
  emits (fetches_other zone) (interface_item e ds z o item).
Proof. unfold interface_item. spare. Qed.

Lemma spare_interface_section e ds o fixed items :
  emits (fetches_other zone) (interface_section e ds zone o fixed items).
Proof.
  unfold interface_section. apply emits_when. apply emits_bind.
  - unfold fixed_zone. case_decide as Hz; [|spare].
    apply emits_bind; [|spare]. apply spare_settings_of_zone. congruence.
  - intros zs. apply emits_for_each. intros x. apply spare_interface_item.
Qed.

Lemma spare_apply_changes : emits (fetches_other zone) apply_changes.
Proof. unfold apply_changes. spare. Qed.

#[local] Hint Resolve spare_service_item spare_port_item
  spare_forward_port_item spare_interface_section spare_apply_changes : spare.

Lemma spare_reconcile e ds o service port trust masq forward_port :
  emits (fetches_other zone)
    (reconcile e ds zone o service port trust masq forward_port).
Proof. unfold reconcile. spare. Qed.
End nominal_fetch.

Lemma fetched_app cs cs' : fetched (cs ++ cs') = fetched cs ++ fetched cs'.
Proof. apply omap_app. Qed.

Lemma fetches_other_fetched zone cs :
  Forall (fetches_other zone) cs → zone ∉ fetched cs.
Proof.
  intros Hall Hin. unfold fetched in Hin.
  apply list_elem_of_omap in Hin as (c & Hc & Hz).
  rewrite Forall_forall in Hall. apply (Hall c Hc).
  destruct c; try done. by injection Hz as ->.
Qed.

Lemma nominal_zone_fetched_first e p d n o :
  fetched (calls (run e p d n).2) !! o
  = Some (default (default_zone d) (param_zone p)) →
  o = 0.
Proof.
  destruct (main_stops_or_reaches e p d n)
    as [(zone & x0 & port & fwd & Hreach)|(_ & _ & _ & [k Hk])].
  - unfold run. rewrite (main_reconcile _ _ _ _ _ _ _ _ Hreach).
    rewrite <- (r_zone _ _ _ _ _ _ _ Hreach).
    destruct (spare_reconcile zone e (param_state p) 0 (param_service p) port
      (param_trust p) (param_masq p) fwd
      (State d n [x0] false [] (opening_calls p zone))) as (cs & -> & Hcs).
    simpl. rewrite fetched_app, fetched_opening_calls.
    destruct o as [|o]; [done|]. simpl. intros Hin.
    apply list_elem_of_lookup_2 in Hin.
    by apply fetches_other_fetched in Hcs.
  - assert (Hnil : fetched (calls (run e p d n).2) = []).
    { apply (f_equal fetched) in Hk. rewrite fetched_app in Hk.
      unfold validation_calls in Hk.
      destruct (param_zone p); simpl in Hk;
        symmetry in Hk; by apply app_eq_nil in Hk as [? _]. }
    by rewrite Hnil, lookup_nil.
Qed.

Lemma committed_batched P0 zone s :
  P0 !! "" = None → committed P0 zone s → batched P0 zone s.
Proof.
  intros Hnone [Hu Hk He Hn Hr Ho Hp].
  assert (Hno : ∀ o, ¬ registered s "" o).
  { intros o Hreg. destruct (He _ _ Hreg) as [x Hx]. congruence. }
  split; try done.
  - by apply Hn.
  - intros k o Hreg. split; [by eapply He|].
    destruct (Hr _ _ Hreg) as [[-> _]|[_ Hf]]; [|done].
    by destruct (Hno o).
  - intros o k Hf. destruct (Ho _ _ Hf) as (x0 & Hx0 & Hcase).
    exists x0. split; [done|].
    destruct Hcase as [?|[?|[_ Hreg]]]; [by left|by right|].
    by destruct (Hno 0).
Qed.

(** C3, as amended. In every pass, however it ends, the settings of the
    nominal zone are fetched by no fetch but the first of the pass. In a
    pass outside check mode that ends through [exit_json], on a daemon whose
    permanent layer has no zone of the empty name: the first fetch is that
    of the nominal zone; the write-backs are exactly one per recorded zone,
    in the order of recording, and each carries the final content of the
    object recorded for its zone; a recorded zone exists in the permanent
    layer and its object was fetched from it; every object fetched in the
    pass either still is what was fetched or is the recorded object of the
    zone it was fetched from; and the permanent layer is the initial one
    with the recorded objects written over it. And in any state, asking for
    the settings of a zone that is recorded and exists in the permanent
    layer gives the recorded object after one [getZoneByName] call and no
    fetch. *)
Theorem one_commit_per_changed_zone
    (e : env) (p : params) (d : daemon) (n : netman) :
  let zone := default (default_zone d) (param_zone p) in
  let r := run e p d n in
  (∀ o, fetched (calls r.2) !! o = Some zone → o = 0)
  ∧ (∀ c, check_mode e = false → permanent d !! "" = None →
          r.1 = ExitJson c → batched (permanent d) zone r.2)
  ∧ (∀ s k o, registered s k o → is_Some (permanent (fw s) !! k) →
       settings_of_zone k s = (Ret o, add_call (GetZoneByName k) s)).
Proof.
  intros zone r. split_and!.
  - apply nominal_zone_fetched_first.
  - intros c Hcm Hnone Hexit. apply committed_batched; [done|].
    subst r zone. unfold run in *.
    destruct (main_exit_reaches _ _ _ _ _ Hexit)
      as (zone & x0 & port & fwd & Hreach).
    rewrite (main_reconcile _ _ _ _ _ _ _ _ Hreach) in *.
    rewrite <- (r_zone _ _ _ _ _ _ _ Hreach).
    pose proof (triple_reconcile (permanent d) zone e (param_state p)
      (param_service p) port (param_trust p) (param_masq p) fwd x0 Hcm
      (State d n [x0] false [] (opening_calls p zone))) as Ht.
    destruct (reconcile _ _ _ _ _ _ _ _ _ _) as [[v|c'| |] s']; try done.
    apply Ht. simpl. split_and!; try done.
    + apply Hreach.
    + apply fetched_opening_calls.
    + apply updates_opening_calls.
  - apply settings_of_zone_registered.
Qed.

Lemma one_commit_per_changed_zone_witness :
  let p := Params ["http"] ["80/tcp"] ["eth0"] [] [] None enabled in
  batched (permanent host) "public" (run plain p host no_nm).2
  ∧ settings_of_zone "trusted" (run plain p host no_nm).2
    = (Ret 1, add_call (GetZoneByName "trusted") (run plain p host no_nm).2).
Proof.
  pose proof (one_commit_per_changed_zone plain
    (Params ["http"] ["80/tcp"] ["eth0"] [] [] None enabled) host no_nm)
    as (_ & Hbatch & Hserved).
  split.
  - exact (Hbatch true eq_refl eq_refl eq_refl).
  - apply Hserved; [reflexivity|]. vm_compute. by eexists.
Defined.


(** ** Check mode *)

#[local] Instance no_zone_set_preorder : PreOrder no_zone_set.
Proof.
  split.
  - intros s. split; [done|]. exists []. by rewrite app_nil_r.
  - intros s1 s2 s3 [Hn (cs & Hcs & Hall)] [Hn' (cs' & Hcs' & Hall')].
    split; [congruence|]. exists (cs ++ cs').
    rewrite Hcs', Hcs, app_assoc. split; [done|]. by apply Forall_app.
Qed.

Lemma no_zone_set_called c : ¬ sets_zone c → keeps no_zone_set (called c).
Proof.
  intros Hc s. split; [done|]. exists [c]. split; [done|].
  by apply Forall_singleton.
Qed.

Lemma no_zone_set_modify f :
  (∀ s, nm (f s) = nm s ∧ calls (f s) = calls s) →
  keeps no_zone_set (modify f).
Proof.
  intros Hf s. destruct (Hf s) as [Hn Hc]. split; [done|]. exists [].
  simpl. by rewrite Hc, app_nil_r.
Qed.

#[local] Hint Extern 1 (keeps no_zone_set (called _)) =>
  apply no_zone_set_called; simpl; tauto : keeps.
#[local] Hint Extern 1 (keeps no_zone_set (modify _)) =>
  apply no_zone_set_modify; intros ?; split; reflexivity : keeps.

(** Everything but the fast path leaves the connection manager alone. *)
Lemma no_zone_set_pieces ds :
  (∀ z o item, keeps no_zone_set (service_item ds z o item))
  ∧ (∀ z o item, keeps no_zone_set (port_item ds z o item))
  ∧ (∀ z o fixed, keeps no_zone_set (fixed_zone z o fixed))
  ∧ (∀ z o item, keeps no_zone_set (forward_port_item ds z o item))
  ∧ keeps no_zone_set apply_changes
  ∧ (∀ z o item,
       keeps no_zone_set
         ((let* present := fw_query z (Interface item) in
           when present (fw_remove z (Interface item) ;; mark_changed)) ;;
          reconcile_permanent disabled z o (Interface item))).
Proof.
  assert (Hq : ∀ z r, keeps no_zone_set (fw_query z r))
    by (unfold fw_query; kept).
  assert (Hrt : ∀ f z, keeps no_zone_set (rt_alter f z))
    by (unfold rt_alter; kept).
  assert (Ha : ∀ z r, keeps no_zone_set (fw_add z r))
    by (unfold fw_add; kept).
  assert (Hr : ∀ z r, keeps no_zone_set (fw_remove z r))
    by (unfold fw_remove; kept).
  assert (Hp : ∀ ds z o r, keeps no_zone_set (reconcile_permanent ds z o r)).
  { unfold reconcile_permanent, settings_query, settings_add, settings_remove,
      mark_changed, register. kept. }
  assert (Hm : keeps no_zone_set mark_changed) by (unfold mark_changed; kept).
  assert (Hs : ∀ z, keeps no_zone_set (settings_of_zone z)).
  { unfold settings_of_zone, config_getZoneByName, zone_getSettings. kept. }
  assert (Hg : ∀ i, keeps no_zone_set (fw_getZoneOfInterface i))
    by (unfold fw_getZoneOfInterface; kept).
  split_and!.
  - unfold service_item. kept.
  - unfold port_item. kept.
  - unfold fixed_zone. kept.
  - intros ? ? [[[[? ?] ?] ?] ?]. unfold forward_port_item. kept.
  - unfold apply_changes, config_getZoneByName, zone_update. kept.
  - kept.
Qed.

Lemma no_zone_set_opening p :
  keeps no_zone_set
    (let* default_zone := fw_getDefaultZone in
     let* zone := nominal_zone (param_zone p) default_zone in
     let* fw_zone := config_getZoneByName zone in
     zone_getSettings fw_zone).
Proof.
  unfold fw_getDefaultZone, nominal_zone, fw_getZones, config_getZoneNames,
    config_getZoneByName, zone_getSettings. kept.
Qed.

Section halts.
Context (n : netman).

Lemma unset_no_zone_set s s' : unset n s → no_zone_set s s' → unset n s'.
Proof.
  intros [Hn Hall] [Hn' (cs & Hc & Hcs)]. split; [congruence|].
  rewrite Hc. by apply Forall_app.
Qed.

Lemma halts_keeps {A : Type} (m : M A) :
  keeps no_zone_set m → halts_at_reset n m.
Proof.
  intros Hm s Hs. pose proof (unset_no_zone_set _ _ Hs (Hm s)).
  destruct (m s).1; auto.
Qed.

Lemma halts_bind {A B : Type} (m : M A) (k : A → M B) :
  halts_at_reset n m → (∀ a, halts_at_reset n (k a)) →
  halts_at_reset n (bind m k).
Proof.
  intros Hm Hk s Hs. specialize (Hm s Hs). unfold bind.
  destruct (m s) as [[a|c|msg|x] s'] eqn:Hms; simpl in *.
  - by apply Hk.
  - destruct Hm as [?|(pre & conn & ? & ? & Hout)]; [by left|right].
    simpl in *. exists pre, conn. split_and!; try done. simpl.
    unfold reset_outcome in *. destruct (nm_set_fails n "" conn);
      by simplify_eq.
  - destruct Hm as [?|(pre & conn & ? & ? & Hout)]; [by left|right].
    simpl in *. exists pre, conn. split_and!; try done. simpl.
    unfold reset_outcome in *. destruct (nm_set_fails n "" conn);
      by simplify_eq.
  - destruct Hm as [?|(pre & conn & ? & ? & Hout)]; [by left|right].
    simpl in *. exists pre, conn. split_and!; try done. simpl.
    unfold reset_outcome in *. destruct (nm_set_fails n "" conn);
      by simplify_eq.
Qed.

Lemma halts_when b m : halts_at_reset n m → halts_at_reset n (when b m).
Proof. destruct b; [done|]. intros _. by intros s Hs. Qed.

Lemma halts_for_each {A : Type} (l : list A) body :
  (∀ x, halts_at_reset n (body x)) → halts_at_reset n (for_each l body).
Proof.
  intros Hb. induction l as [|x l IH]; simpl; [by intros s Hs|].
  by apply halts_bind.
Qed.

(** The fast path, asked to reset a zone before any zone was set: it
    returns [False] without having asked for the reset, or the request is
    its last call, and it returns [True] if the connection manager took the
    new zone and lets the exception through if it did not. *)
Lemma try_set_zone_of_interface_reset e i s :
  unset n s →
  match try_set_zone_of_interface e "" i s with
  | (Ret fast, s') =>
      if fast
      then ∃ conn, calls s' = calls s ++ [NmIsImported; NmGetConnectionOfInterface i; NmSetZoneOfConnection "" conn]
                   ∧ nm_set_fails n "" conn = None
      else unset n s'
  | (Raised x, s') =>
      ∃ conn, calls s' = calls s ++ [NmIsImported; NmGetConnectionOfInterface i; NmSetZoneOfConnection "" conn]
              ∧ nm_set_fails n "" conn = Some x
  | _ => False
  end.
Proof.
  intros [Hn Hall].
  assert (H1 : Forall (λ c, ¬ sets_zone c) (calls s ++ [NmIsImported])).
  { apply Forall_app. split; [done|]. apply Forall_singleton. simpl. tauto. }
  assert (H2 : Forall (λ c, ¬ sets_zone c)
                 ((calls s ++ [NmIsImported])
                  ++ [NmGetConnectionOfInterface i])).
  { apply Forall_app. split; [done|]. apply Forall_singleton. simpl. tauto. }
  unfold try_set_zone_of_interface, try_except_else, nm_is_imported,
    nm_get_connection_of_interface, nm_set_zone_of_connection, bind, called,
    modify, gets, ret, raise.
  destruct (HAS_FIREWALLD_NM e); simpl; [|by split].
  destruct (nm_imported (nm s)); simpl; [|by split].
  destruct (nm_connection_of (nm s) i) as [x| |conn]; simpl;
    [by split|by split|].
  rewrite Hn.
  destruct (nm_set_fails n "" conn) eqn:Hset; simpl;
    exists conn; by rewrite <- !app_assoc.
Qed.

Lemma halts_interface_item e z o item :
  check_mode e = true →
  halts_at_reset n (interface_item e disabled z o item).
Proof.
  intros Hcm s Hs.
  assert (Hpre : ∀ s' conn,
    calls s' = calls s ++ [NmIsImported; NmGetConnectionOfInterface item;
                           NmSetZoneOfConnection "" conn] →
    ∃ pre, calls s' = pre ++ [NmSetZoneOfConnection "" conn]
           ∧ Forall (λ c, ¬ sets_zone c) pre).
  { intros s' conn ->.
    exists (calls s ++ [NmIsImported; NmGetConnectionOfInterface item]).
    rewrite <- app_assoc. split; [done|]. apply Forall_app.
    split; [apply Hs|]. repeat constructor; simpl; tauto. }
  pose proof (try_set_zone_of_interface_reset e item s Hs) as Hfast.
  pose proof (halts_keeps _ (proj2 (proj2 (proj2 (proj2 (proj2
                (no_zone_set_pieces disabled))))) z o item)) as Hrest.
  set (rest := (let* present := fw_query z (Interface item) in
                when present (fw_remove z (Interface item) ;; mark_changed)) ;;
               reconcile_permanent disabled z o (Interface item)) in *.
  assert (Hrun : interface_item e disabled z o item s
    = match try_set_zone_of_interface e "" item s with
      | (Ret fast, s') => if fast then (ExitJson true, s') else rest s'
      | (ExitJson c, s') => (ExitJson c, s')
      | (FailJson msg, s') => (FailJson msg, s')
      | (Raised x, s') => (Raised x, s')
      end).
  { unfold interface_item, bind at 1. rewrite Hcm.
    by destruct (try_set_zone_of_interface e "" item s) as [[[|]| | |] ?]. }
  rewrite Hrun. clear Hrun. clearbody rest.
  destruct (try_set_zone_of_interface e "" item s)
    as [[[|]|c|msg|x] s']; try done.
  - right. destruct Hfast as (conn & Hcalls & Hset).
    destruct (Hpre _ _ Hcalls) as (pre & ? & ?).
    exists pre, conn. split_and!; try done.
    simpl. unfold reset_outcome. by rewrite Hset.
  - by apply Hrest.
  - right. destruct Hfast as (conn & Hcalls & Hset).
    destruct (Hpre _ _ Hcalls) as (pre & ? & ?).
    exists pre, conn. split_and!; try done.
    simpl. unfold reset_outcome. by rewrite Hset.
Qed.

Lemma halts_interface_section e z o fixed items :
  check_mode e = true →
  halts_at_reset n (interface_section e disabled z o fixed items).
Proof.
  intros Hcm. unfold interface_section. apply halts_when.
  apply halts_bind; [apply halts_keeps, (no_zone_set_pieces disabled)|].
  intros zs. apply halts_for_each. intros x.
  by apply halts_interface_item.
Qed.

Lemma halts_reconcile e z o service port trust masq forward_port :
  check_mode e = true →
  halts_at_reset n
    (reconcile e disabled z o service port trust masq forward_port).
Proof.
  intros Hcm.
  destruct (no_zone_set_pieces disabled) as (Hs & Hp & _ & Hf & Ha & _).
  unfold reconcile.
  apply halts_bind; [apply halts_keeps; kept|intros ?].
  apply halts_bind; [apply halts_keeps; kept|intros ?].
  apply halts_bind; [apply halts_keeps; kept|intros ?].
  apply halts_bind; [apply halts_keeps; kept|intros ?].
  apply halts_bind; [by apply halts_interface_section|intros ?].
  apply halts_bind; [by apply halts_interface_section|intros ?].
  apply halts_keeps. kept.
Qed.

Lemma halts_main e p :
  check_mode e = true → param_state p = disabled →
  halts_at_reset n (main e p).
Proof.
  intros Hcm Hds. unfold main. rewrite Hds.
  apply halts_bind; [apply halts_keeps; kept|intros ?].
  apply halts_bind; [apply halts_keeps; kept|intros ?].
  apply halts_bind; [apply halts_keeps; kept|intros ?].
  destruct (HAS_FIREWALLD e); [|apply halts_keeps; kept].
  apply halts_bind; [apply halts_keeps; kept|intros ?].
  apply halts_bind; [apply halts_keeps; kept|intros ?].
  pose proof (no_zone_set_opening p) as Hopen.
  intros s Hs. specialize (Hopen s).
  pose proof (unset_no_zone_set _ _ Hs Hopen) as Hs'.
  unfold bind in *.
  destruct (fw_getDefaultZone s) as [[dz| | |] s1]; simpl in *; auto.
  destruct (nominal_zone (param_zone p) dz s1) as [[zone| | |] s2];
    simpl in *; auto.
  destruct (config_getZoneByName zone s2) as [[fw_zone| | |] s3];
    simpl in *; auto.
  destruct (zone_getSettings fw_zone s3) as [[o| | |] s4] eqn:Hget;
    simpl in *; auto.
  by apply halts_reconcile.
Qed.
End halts.

(** The call that sets a zone is the last one when none before it did. *)
Lemma last_zone_set (pre pre' post : list call) (c c' : call) :
  pre ++ c :: post = pre' ++ [c'] →
  sets_zone c → Forall (λ c, ¬ sets_zone c) pre' →
  pre = pre' ∧ c = c' ∧ post = [].
Proof.
  intros Heq Hc Hall.
  destruct (decide (post = [])) as [->|Hne].
  - apply app_inj_tail in Heq as [-> ->]. done.
  - destruct (exists_last Hne) as (post' & l & ->).
    rewrite app_comm_cons, app_assoc in Heq.
    apply app_inj_tail in Heq as [<- _].
    apply Forall_app in Hall as [_ Hall].
    apply Forall_cons in Hall as [Hall _]. done.
Qed.

(** C10. A pass in check mode and the same pass outside check mode, on the
    same daemon and connection manager. Either the two do exactly the same
    (the same outcome, the same daemon and connection-manager state, the
    same settings objects, the same calls), or the intent is [disabled], the
    fast path has just reset the zone of a connection, and the check-mode
    pass has left with [changed = True] after a prefix of the calls of the
    normal pass. The early exit is taken: in check mode under [disabled],
    a call that sets the zone of a connection is a reset, is the only such
    call and the last call of the pass, and the pass ends through
    [exit_json(changed=True)] if the connection manager takes the reset and
    in its exception if it does not. And a check-mode pass that ends
    through [exit_json] without such a reset under [disabled] has done the
    work of a normal pass: it is equal to the normal pass, every recorded
    zone was written back once with the content of its object, the permanent
    layer is the initial one with these contents written over it, and every
    service and port of the parameters is settled in both layers of the
    nominal zone. *)
Theorem check_mode_differs_only_by_early_exit
    (hf hn : bool) (p : params) (d : daemon) (n : netman) :
  let dry := run (Env hf hn true) p d n in
  let wet := run (Env hf hn false) p d n in
  let zone := default (default_zone d) (param_zone p) in
  (dry = wet
   ∨ (param_state p = disabled
      ∧ dry.1 = ExitJson true
      ∧ (∃ c, last (calls dry.2) = Some (NmSetZoneOfConnection "" c))
      ∧ calls dry.2 `prefix_of` calls wet.2))
  ∧ (param_state p = disabled →
     ∀ pre z c post,
       calls dry.2 = pre ++ NmSetZoneOfConnection z c :: post →
       z = "" ∧ post = [] ∧ Forall (λ c, ¬ sets_zone c) pre
       ∧ dry.1 = reset_outcome n c)
  ∧ (∀ c port,
       dry.1 = ExitJson c →
       parse_all parse_port (param_port p) = Ret port →
       (param_state p = disabled →
        Forall (λ c, ¬ sets_zone c) (calls dry.2)) →
       dry = wet
       ∧ updates (calls dry.2)
         = (λ zo, (zo.1, deref (heap dry.2) zo.2)) <$> changed_zones dry.2
       ∧ permanent (fw dry.2)
         = write_back (heap dry.2) (permanent d) (changed_zones dry.2)
       ∧ Forall (λ r, settled_rt (param_state p) (fw dry.2) zone r
                      ∧ settled_pm (param_state p) (fw dry.2) zone r)
           (rules_of (param_service p) port)).
Proof.
  intros dry wet zone.
  assert (Hearly : dry = wet
   ∨ (param_state p = disabled
      ∧ dry.1 = ExitJson true
      ∧ (∃ c, last (calls dry.2) = Some (NmSetZoneOfConnection "" c))
      ∧ calls dry.2 `prefix_of` calls wet.2)).
  { destruct (early_main hf hn p (start d n)) as [Heq|(Hx & [Hd Hr] & Hpre)].
    - by left.
    - right. by repeat split. }
  split_and!; [done| |].
  - intros Hds pre z c post Hcalls.
    pose proof (halts_main n (Env hf hn true) p eq_refl Hds (start d n))
      as Hhalt.
    assert (Hstart : unset n (start d n)) by (split; [done|constructor]).
    specialize (Hhalt Hstart). fold (run (Env hf hn true) p d n) in Hhalt.
    fold dry in Hhalt.
    assert (Hcase : unset n dry.2 ∨ stopped_by_reset n dry).
    { destruct dry.1; auto. }
    destruct Hcase as [[_ Hall]|(pre' & conn & Hc' & Hall & Hout)].
    + rewrite Hcalls in Hall. apply Forall_app in Hall as [_ Hall].
      apply Forall_cons in Hall as [Hall _]. destruct (Hall I).
    + rewrite Hcalls in Hc'.
      apply last_zone_set in Hc' as (-> & [= -> ->] & ->); done.
  - intros c port Hexit Hport Hnone.
    assert (Heq : dry = wet).
    { destruct Hearly as [?|(Hds & _ & [conn Hlast] & _)]; [done|].
      specialize (Hnone Hds). apply last_Some in Hlast as [pre Hlast].
      rewrite Hlast in Hnone. apply Forall_app in Hnone as [_ Hnone].
      rewrite Forall_singleton in Hnone. destruct (Hnone I). }
    split; [done|]. rewrite Heq in *. clear Heq Hearly Hnone.
    subst wet. unfold run in *.
    destruct (main_exit_reaches _ _ _ _ _ Hexit)
      as (zone' & x0 & port' & fwd & Hreach).
    assert (port' = port) as ->.
    { pose proof (r_port _ _ _ _ _ _ _ Hreach). congruence. }
    assert (zone' = zone) as -> by apply (r_zone _ _ _ _ _ _ _ Hreach).
    pose proof (pass_achieves (Env hf hn false) p d n c zone x0 port fwd
      eq_refl Hreach Hexit) as Hach.
    unfold run in Hach.
    rewrite (main_reconcile _ _ _ _ _ _ _ _ Hreach) in *.
    pose proof (triple_reconcile (permanent d) zone (Env hf hn false)
      (param_state p) (param_service p) port (param_trust p) (param_masq p)
      fwd x0 eq_refl (State d n [x0] false [] (opening_calls p zone))) as Ht.
    destruct (reconcile _ _ _ _ _ _ _ _ _ _) as [[v|c'| |] s']; try done.
    assert (Hcd : committed (permanent d) zone s').
    { apply Ht. simpl. split_and!; try done.
      - apply Hreach.
      - apply fetched_opening_calls.
      - apply updates_opening_calls. }
    split_and!; [apply Hcd|apply Hcd|done].
Qed.

(** Both cases happen. With the fast path available for [eth0], a
    check-mode pass that disables a trust rule and a port leaves after the
    reset, reporting a change, with the port still open; the normal pass
    goes on to close it. Without the fast path the two passes are the
    same. *)
Example check_mode_early_exit_happens :
  let p := Params [] ["80/tcp"] ["eth0"; "eth1"] [] [] None disabled in
  let dry := run (Env true true true) p host_settled nm_eth0 in
  let wet := run (Env true true false) p host_settled nm_eth0 in
  dry.1 = ExitJson true
  ∧ calls dry.2
    = [GetDefaultZone; GetZoneByName "public"; GetSettings "public";
       Query "public" (Port "80" "tcp"); Remove "public" (Port "80" "tcp");
       GetZoneByName "trusted"; GetSettings "trusted";
       NmIsImported; NmGetConnectionOfInterface "eth0";
       NmSetZoneOfConnection "" "uuid-eth0"]
  ∧ updates (calls dry.2) = []
  ∧ length (updates (calls wet.2)) = 1
  ∧ wet.1 = ExitJson true
  ∧ run (Env true false true) p host_settled nm_eth0
    = run (Env true false false) p host_settled nm_eth0.
Proof. vm_compute. repeat split; reflexivity. Qed.

Lemma check_mode_differs_only_by_early_exit_witness :
  let p := Params [] ["80/tcp"] ["eth0"; "eth1"] [] [] None disabled in
  (run (Env true true true) p host_settled nm_eth0).1 = ExitJson true
  ∧ (let dry := run (Env true false true) p host_settled nm_eth0 in
     dry = run (Env true false false) p host_settled nm_eth0
     ∧ settled_rt disabled (fw dry.2) "public" (Port "80" "tcp")).
Proof.
  intros p.
  pose proof (check_mode_differs_only_by_early_exit true true p host_settled
    nm_eth0) as (_ & Hreset & _).
  pose proof (check_mode_differs_only_by_early_exit true false p host_settled
    nm_eth0) as (_ & _ & Hwork).
  split.
  - refine (proj2 (proj2 (proj2 (Hreset eq_refl
      [GetDefaultZone; GetZoneByName "public"; GetSettings "public";
       Query "public" (Port "80" "tcp"); Remove "public" (Port "80" "tcp");
       GetZoneByName "trusted"; GetSettings "trusted";
       NmIsImported; NmGetConnectionOfInterface "eth0"]
      "" "uuid-eth0" [] _)))).
    vm_compute. reflexivity.
  - destruct (Hwork true [("80", "tcp")]) as (Heq & _ & _ & Hall).
    + vm_compute. reflexivity.
    + reflexivity.
    + intros _. vm_compute. repeat constructor; simpl; tauto.
    + split; [exact Heq|].
      unfold rules_of in Hall. simpl in Hall.
      rewrite Forall_singleton in Hall. apply Hall.
Defined.


(** ** What a pass achieves *)

#[local] Instance calm_preorder ds T : PreOrder (calm ds T).
Proof.
  split.
  - intros s. by split.
  - intros s1 s2 s3 [Hn1 Hd1 Hr1 Hb1] [Hn2 Hd2 Hr2 Hb2].
    split; [congruence..|auto|].
    intros HT. by rewrite Hb2, Hb1.
Qed.

Lemma calm_weaken ds T s s' : calm ds [] s s' → calm ds T s s'.
Proof.
  intros [Hn Hd Hr Hb]. split; try done.
  - intros z r _. apply Hr. intros (_ & j & _ & Hj). by apply elem_of_nil in Hj.
  - intros _. by apply Hb.
Qed.

Lemma calm_same ds T s s' :
  nm s' = nm s → default_zone (fw s') = default_zone (fw s) →
  runtime (fw s') = runtime (fw s) → calm ds T s s'.
Proof.
  intros Hn Hd Hr. split; try done.
  - intros z r _. unfold settled_rt, rt_zone. by rewrite Hd, Hr.
  - intros _. unfold bindings. by rewrite Hr.
Qed.

#[local] Hint Extern 1 (keeps (calm _ _) (called _)) =>
  apply keeps_modify; intros ?; by apply calm_same : keeps.
#[local] Hint Extern 1 (keeps (calm _ _) (modify _)) =>
  apply keeps_modify; intros ?; by apply calm_same : keeps.

Lemma calm_rt_alter ds T f z :
  (∀ x r, ¬ moved ds T r → has x r = wanted ds → has (f x) r = wanted ds) →
  (T = [] → ∀ x, interfaces (f x) = interfaces x) →
  keeps (calm ds T) (rt_alter f z).
Proof.
  intros Hf Hi s. unfold rt_alter, bind, gets, modify, invalid_zone, fail_json.
  simpl. destruct (runtime (fw s) !! rt_zone (fw s) z) as [x|] eqn:Hz;
    [|reflexivity].
  split; simpl; auto.
  - intros z' r Hr (y & Hy & Hh). unfold settled_rt. simpl.
    change (if decide (z' = "") then default_zone (fw s) else z')
      with (rt_zone (fw s) z').
    destruct (decide (rt_zone (fw s) z = rt_zone (fw s) z')) as [Heq|Hne].
    + rewrite Heq, lookup_insert_eq. exists (f x). split; [done|].
      apply Hf; [done|]. congruence.
    + rewrite lookup_insert_ne by done. by exists y.
  - intros HT. unfold bindings. simpl. rewrite fmap_insert, (Hi HT).
    apply insert_id. by rewrite lookup_fmap, Hz.
Qed.

Lemma not_interface_interfaces x r :
  (∀ j, r ≠ Interface j) →
  interfaces (with_rule x r) = interfaces x
  ∧ interfaces (without_rule x r) = interfaces x.
Proof. intros Hr. destruct r; try done. by destruct (Hr name). Qed.

Lemma calm_fw_add z r :
  (∀ j, r ≠ Interface j) → keeps (calm enabled []) (fw_add z r).
Proof.
  intros Hr. unfold fw_add. apply keeps_bind; [kept|]. intros _.
  apply calm_rt_alter.
  - intros x r' _. apply has_with_rule_mono.
  - intros _ x. by apply not_interface_interfaces.
Qed.

Lemma calm_fw_remove T z r :
  (T = [] → ∀ j, r ≠ Interface j) → keeps (calm disabled T) (fw_remove z r).
Proof.
  intros Hr. unfold fw_remove. apply keeps_bind; [kept|]. intros _.
  apply calm_rt_alter.
  - intros x r' _. apply has_without_rule_mono.
  - intros HT x. by apply not_interface_interfaces, Hr.
Qed.

Lemma calm_fw_changeZoneOfInterface z i :
  keeps (calm enabled [i]) (fw_changeZoneOfInterface z i).
Proof.
  intros s.
  unfold fw_changeZoneOfInterface, bind, called, gets, modify, invalid_zone,
    fail_json.
  cbn [fst snd fw add_call].
  destruct (((λ x, without_rule x (Interface i)) <$> runtime (fw s))
              !! rt_zone (fw s) z) as [x|] eqn:Hz.
  2:{ by apply calm_same. }
  split; cbn [fst snd fw nm heap changed_zones set_fw set_runtime add_call
              default_zone runtime]; auto; [|done].
  intros z' r Hr (y & Hy & Hh). unfold settled_rt.
  cbn [fst snd fw set_fw add_call]. rewrite rt_zone_set_runtime.
  cbn [runtime set_runtime].
  assert (Hne' : r ≠ Interface i).
  { intros ->. apply Hr. split; [done|]. exists i. split; [done|].
    by apply list_elem_of_singleton. }
  assert (Hother : ∀ x', has (without_rule x' (Interface i)) r = has x' r)
    by (intros; by apply has_without_rule_other).
  destruct (decide (rt_zone (fw s) z = rt_zone (fw s) z')) as [Heq|Hne].
  - rewrite Heq, lookup_insert_eq. eexists. split; [done|].
    rewrite has_with_rule_other by done.
    rewrite Heq, lookup_fmap, Hy in Hz. injection Hz as <-.
    exact (eq_trans (Hother y) Hh).
  - rewrite lookup_insert_ne, lookup_fmap, Hy by done. simpl.
    eexists. split; [done|]. exact (eq_trans (Hother y) Hh).
Qed.

(** *** The bookkeeping and the facts *)

Lemma grown_core ds P0 s s' :
  core s' = core s → grown ds P0 s → grown ds P0 s'.
Proof. intros [= Hp Hh Hz Hf Hu] Hg. unfold grown. by rewrite Hh, Hf. Qed.

Lemma ok_pm_core ds P0 k r s s' :
  core s' = core s → ok_pm ds P0 s k r → ok_pm ds P0 s' k r.
Proof.
  intros [= Hp Hh Hz Hf Hu]. unfold ok_pm, doomed, view. by rewrite Hh, Hz.
Qed.

Lemma wf_object_length P0 zone s k o :
  wf P0 zone s → live s k o → o < length (heap s).
Proof.
  intros Hwf [[[_ ->]|[_ Hf]] _]; rewrite (wf_length _ _ _ Hwf).
  - eapply lookup_lt_Some. by apply (wf_nominal _ _ _ Hwf).
  - by eapply lookup_lt_Some.
Qed.

Lemma intent_mono ds x r r' :
  has x r' = wanted ds →
  has (match ds with
       | enabled => with_rule x r
       | disabled => without_rule x r
       end) r' = wanted ds.
Proof.
  destruct ds; [apply has_with_rule_mono|apply has_without_rule_mono].
Qed.

Lemma grown_record_change ds P0 k o r s :
  grown ds P0 s → grown ds P0 (record_change ds k o r s).
Proof.
  intros Hg o' k' x r' Hf Hx Hh. unfold record_change in *. simpl in *.
  rewrite deref_insert. case_decide as Ho; [|by eapply Hg].
  destruct Ho as [<- _]. apply intent_mono. by eapply Hg.
Qed.

Lemma ok_pm_record_change ds P0 zone k o r s k' r' :
  wf P0 zone s → live s k o → grown ds P0 s →
  ok_pm ds P0 s k' r' → ok_pm ds P0 (record_change ds k o r s) k' r'.
Proof.
  intros Hwf Hlive Hg [[o' Hd]|(y & Hv & Hh)].
  { left. unfold doomed, record_change. simpl.
    destruct (decide (k = "")) as [->|Hne].
    - by rewrite dict_get_set_eq.
    - rewrite dict_get_set_ne by done. by eexists. }
  pose proof (wf_object_length _ _ _ _ _ Hwf Hlive) as Hlt.
  destruct Hlive as [Horigin Honly].
  unfold ok_pm, doomed, view, record_change in *. cbn [changed_zones heap] in *.
  destruct (decide (k = k')) as [<-|Hne].
  - rewrite !dict_get_set_eq, list_lookup_insert_eq by done.
    destruct (decide (k = "")) as [->|Hk]; [left; by rewrite dict_get_set_eq|].
    right. eexists. split; [done|]. apply intent_mono.
    destruct (dict_get k (changed_zones s)) as [o'|] eqn:Hreg.
    + rewrite (Honly o' Hreg) in Hv. unfold deref. by rewrite Hv.
    + destruct Horigin as [[? _]|[_ Hf]]; [done|]. by eapply Hg.
  - rewrite !(dict_get_set_ne k k') by done.
    destruct (decide (k = "")) as [->|Hk]; [left; by rewrite dict_get_set_eq|].
    right.
    destruct (dict_get k' (changed_zones s)) as [o'|] eqn:Hreg.
    + destruct (decide (o = o')) as [<-|Ho].
      * rewrite list_lookup_insert_eq by done. eexists. split; [done|].
        apply intent_mono. unfold deref. by rewrite Hv.
      * rewrite list_lookup_insert_ne by done. by exists y.
    + by exists y.
Qed.

Lemma settings_zone_fixed zone k : k ≠ "" → settings_zone zone k = k.
Proof.
  intros Hk. unfold settings_zone. case_decide as H; [done|].
  destruct (decide (k = zone)); [done|]. tauto.
Qed.

Lemma settings_zone_empty zone : settings_zone zone "" = zone.
Proof. unfold settings_zone. case_decide as H; [|done]. by destruct H. Qed.

(** What [reconcile_permanent] achieves for the zone that the object
    belongs to. *)
Lemma ok_pm_reconciled ds P0 zone k o r s :
  wf P0 zone s → live s k o →
  ok_pm ds P0 (reconcile_permanent ds k o r s).2 (settings_zone zone k) r.
Proof.
  intros Hwf Hlive.
  pose proof (wf_object_length _ _ _ _ _ Hwf Hlive) as Hlt.
  pose proof (wf_live_nominal _ _ _ Hwf) as [_ Hnominal].
  destruct Hlive as [Horigin Honly].
  assert (Hderef : heap s !! o = Some (deref (heap s) o)).
  { unfold deref. destruct (lookup_lt_is_Some_2 (heap s) o Hlt) as [x ->].
    done. }
  rewrite reconcile_permanent_run. cbn [snd].
  case_bool_decide as Hd.
  - destruct (decide (k = "")) as [->|Hk].
    + destruct Horigin as [[_ ->]|[? _]]; [|done].
      rewrite settings_zone_empty. unfold ok_pm, doomed, view.
      destruct (dict_get zone (changed_zones s)) as [o'|] eqn:Hreg.
      * rewrite (Hnominal o' Hreg). right. by eexists.
      * assert (Hf : fetched (calls s) !! 0 = Some zone)
          by by apply (wf_nominal _ _ _ Hwf).
        destruct (wf_objects _ _ _ Hwf _ _ Hf) as (x0 & Hx0 & [Hh|[Hr|[_ Hr]]]).
        -- right. exists x0. split; [done|]. congruence.
        -- unfold registered in Hr. congruence.
        -- left. unfold registered in Hr. by rewrite Hr.
    + rewrite settings_zone_fixed by done.
      destruct Horigin as [[? _]|[_ Hf]]; [done|].
      unfold ok_pm, doomed, view.
      destruct (dict_get k (changed_zones s)) as [o'|] eqn:Hreg.
      * rewrite (Honly o' Hreg). right. by eexists.
      * destruct (wf_objects _ _ _ Hwf _ _ Hf) as (x0 & Hx0 & [Hh|[Hr|[_ Hr]]]).
        -- right. exists x0. split; [done|]. congruence.
        -- unfold registered in Hr. congruence.
        -- left. unfold registered in Hr. by rewrite Hr.
  - unfold ok_pm, doomed, view, record_change. cbn [changed_zones heap].
    destruct (decide (k = "")) as [->|Hk]; [left; by rewrite dict_get_set_eq|].
    right. rewrite settings_zone_fixed, dict_get_set_eq by done.
    rewrite list_lookup_insert_eq by done. eexists. split; [done|].
    destruct ds; [apply has_with_rule|apply has_without_rule].
Qed.

Lemma holds_step ds P0 T s s' f :
  core s' = core s → calm ds T s s' → ¬ moved ds T (fact_rule f) →
  holds ds P0 s f → holds ds P0 s' f.
Proof.
  intros Hc Hcalm Hm [Hrt Hpm]. split.
  - by apply (calm_runtime _ _ _ _ Hcalm).
  - by apply (ok_pm_core ds P0 _ _ s s').
Qed.

Lemma inv_step ds P0 zone n fs T s s' :
  core s' = core s → (changed s = true → changed s' = true) →
  calm ds T s s' → Forall (λ f, ¬ moved ds T (fact_rule f)) fs →
  inv ds P0 zone n fs s → inv ds P0 zone n fs s'.
Proof.
  intros Hc Hf Hcalm Hfs [Hwf Hg Hn Hfacts]. split.
  - by apply (stable_wf P0 zone s s').
  - by apply (grown_core ds P0 s s').
  - by rewrite (calm_nm _ _ _ _ Hcalm).
  - rewrite Forall_forall in *. intros f Hin.
    apply (holds_step ds P0 T s s'); auto.
Qed.

Lemma inv_reconcile_permanent ds P0 zone n fs k o r s :
  inv ds P0 zone n fs s → live s k o →
  let s' := (reconcile_permanent ds k o r s).2 in
  inv ds P0 zone n fs s' ∧ live s' k o.
Proof.
  intros [Hwf Hg Hn Hfacts] Hlive. rewrite reconcile_permanent_run. cbn [snd].
  case_bool_decide; [split; [by split|done]|].
  destruct (wf_record_change P0 zone ds k o r s Hwf Hlive) as [Hwf' Hlive'].
  split; [split|]; try done.
  - by apply grown_record_change.
  - rewrite Forall_forall in *. intros f Hin.
    destruct (Hfacts f Hin) as [Hrt Hpm]. split; [done|].
    by apply (ok_pm_record_change ds P0 zone).
Qed.

Lemma no_fact_moved ds fs : Forall (λ f, ¬ moved ds [] (fact_rule f)) fs.
Proof.
  apply Forall_true. intros f (_ & j & _ & Hj). by apply elem_of_nil in Hj.
Qed.

(** One rule: a runtime half that settles [r] in the runtime zone [z],
    then the permanent half on the object [o] of zone [k]. *)
Lemma triple_rule ds P0 zone n fs T (m : M unit) z k o r :
  frame m → keeps (calm ds T) m →
  (∀ s, match m s with
        | (Ret _, s') => settled_rt ds (fw s') z r ∧ heap s' = heap s
        | (ExitJson _, _) => False
        | _ => True
        end) →
  Forall (λ f, ¬ moved ds T (fact_rule f)) fs →
  triple (λ s, inv ds P0 zone n fs s ∧ live s k o)
    (m ;; reconcile_permanent ds k o r)
    (λ _ s, inv ds P0 zone n (fs ++ [Fact z (settings_zone zone k) r]) s
            ∧ live s k o)
    (λ _ _, False) (λ _, True).
Proof.
  intros Hframe Hcalm Hm Hfs s [Hinv Hlive]. unfold bind.
  specialize (Hm s). specialize (Hcalm s).
  destruct (Hframe s) as (Hcore & Hflag & _).
  destruct (m s) as [[[]|?| |] s1]; simpl in *; try done.
  destruct Hm as [Hrt _].
  assert (Hinv1 : inv ds P0 zone n fs s1) by by eapply inv_step.
  assert (Hlive1 : live s1 k o) by by apply (stable_live k o s s1).
  pose proof (inv_reconcile_permanent ds P0 zone n fs k o r s1 Hinv1 Hlive1)
    as [Hinv2 Hlive2].
  pose proof (ok_pm_reconciled ds P0 zone k o r s1 (inv_wf _ _ _ _ _ _ Hinv1)
    Hlive1) as Hpm.
  assert (Hfw : fw (reconcile_permanent ds k o r s1).2 = fw s1).
  { rewrite reconcile_permanent_run. cbn [snd]. by case_bool_decide. }
  destruct (reconcile_permanent ds k o r s1) as [[[]|?| |] s2] eqn:Hrp;
    simpl in *;
    try (by rewrite reconcile_permanent_run in Hrp).
  split; [|done]. destruct Hinv2 as [Hwf2 Hg2 Hn2 Hfacts2].
  split; try done. apply Forall_app. split; [done|].
  apply Forall_singleton. split; simpl; [by rewrite Hfw|done].
Qed.

Lemma triple_inv_settings_of_zone ds P0 zone n fs k :
  k ≠ zone → k ≠ "" →
  triple (inv ds P0 zone n fs) (settings_of_zone k)
    (λ o s, inv ds P0 zone n fs s ∧ live s k o) (λ _ _, False) (λ _, True).
Proof.
  intros Hkz Hk s Hinv.
  pose proof (triple_settings_of_zone P0 zone k Hkz Hk s
    (inv_wf _ _ _ _ _ _ Hinv)) as Hwf'.
  destruct Hinv as [Hwf Hg Hn Hfacts].
  assert (Hp := wf_permanent _ _ _ Hwf).
  unfold settings_of_zone, config_getZoneByName, zone_getSettings,
    invalid_zone, bind, called, modify, gets, ret, fail_json in *.
  simpl in *.
  destruct (permanent (fw s) !! k) as [x|] eqn:Hx; simpl in *; [|done].
  destruct (dict_get k (changed_zones s)) as [o|] eqn:Hreg; simpl in *.
  - destruct Hwf' as [Hwf' Hlive']. split; [|done].
    apply (inv_step ds P0 zone n fs [] s);
      [by apply core_add_call|done|by apply calm_same|apply no_fact_moved
      |by split].
  - rewrite Hx in *. simpl in *. destruct Hwf' as [Hwf' Hlive'].
    split; [|done]. split; try done.
    + intros o k' x' r Hf Hx' Hh. simpl in *.
      unfold fetched in Hf. rewrite !omap_app in Hf. simpl in Hf.
      rewrite app_nil_r in Hf.
      change (omap _ (calls s)) with (fetched (calls s)) in Hf.
      apply lookup_app_Some in Hf as [Hf|[Hge Hf]].
      * assert (o < length (heap s)).
        { rewrite (wf_length _ _ _ Hwf). by eapply lookup_lt_Some. }
        unfold deref. rewrite lookup_app_l by done. by eapply Hg.
      * apply list_lookup_singleton_Some in Hf as [Ho ->].
        assert (o = length (heap s)) as ->
          by (rewrite (wf_length _ _ _ Hwf); lia).
        unfold deref. rewrite lookup_app_r, Nat.sub_diag by lia. simpl.
        congruence.
    + rewrite Forall_forall in *. intros f Hin.
      destruct (Hfacts f Hin) as [Hrt Hpm]. split; [done|].
      destruct Hpm as [?|(y & Hv & Hh)]; [by left|right].
      exists y. split; [|done]. unfold view in *. simpl.
      destruct (dict_get (fact_key f) (changed_zones s)) as [o|] eqn:Hr;
        [|done].
      by apply lookup_app_l_Some.
Qed.

(** *** The runtime halves *)

Lemma fw_changeZoneOfInterface_settles z i s x :
  runtime (fw s) !! rt_zone (fw s) z = Some x →
  match (fw_changeZoneOfInterface z i ;; mark_changed) s with
  | (Ret _, s') => settled_rt enabled (fw s') z (Interface i) ∧ heap s' = heap s
  | (ExitJson _, _) => False
  | _ => True
  end.
Proof.
  intros Hx.
  unfold fw_changeZoneOfInterface, mark_changed, bind, called, gets, modify,
    invalid_zone, fail_json.
  cbn [fst snd fw add_call]. rewrite lookup_fmap, Hx. cbn [fmap option_fmap option_map].
  cbn [fst snd fw heap set_fw set_changed add_call]. split; [|done].
  unfold settled_rt. rewrite rt_zone_set_runtime. cbn [runtime set_runtime].
  rewrite lookup_insert_eq. eexists. split; [done|]. apply has_with_rule.
Qed.

Lemma half_add z r :
  (∀ j, r ≠ Interface j) →
  let m := (let* present := fw_query z r in
            when (negb present) (fw_add z r ;; mark_changed)) in
  frame m ∧ keeps (calm enabled []) m
  ∧ ∀ s, match m s with
         | (Ret _, s') => settled_rt enabled (fw s') z r ∧ heap s' = heap s
         | (ExitJson _, _) => False
         | _ => True
         end.
Proof.
  intros Hr m. subst m. split_and!.
  - framed.
  - pose proof (calm_fw_add z r Hr).
    assert (keeps (calm enabled []) mark_changed) by (unfold mark_changed; kept).
    unfold fw_query. kept.
  - intros s. apply (runtime_half_settles enabled). apply fw_add_settles.
Qed.

Lemma half_remove z r :
  (∀ j, r ≠ Interface j) →
  let m := (let* present := fw_query z r in when present (fw_remove z r)) in
  frame m ∧ keeps (calm disabled []) m
  ∧ ∀ s, match m s with
         | (Ret _, s') => settled_rt disabled (fw s') z r ∧ heap s' = heap s
         | (ExitJson _, _) => False
         | _ => True
         end.
Proof.
  intros Hr m. subst m. split_and!.
  - framed.
  - pose proof (calm_fw_remove [] z r (λ _, Hr)).
    unfold fw_query. kept.
  - intros s. apply (runtime_half_settles disabled). apply fw_remove_settles.
Qed.

Lemma half_remove_marked T z r :
  (T = [] → ∀ j, r ≠ Interface j) →
  let m := (let* present := fw_query z r in
            when present (fw_remove z r ;; mark_changed)) in
  frame m ∧ keeps (calm disabled T) m
  ∧ ∀ s, match m s with
         | (Ret _, s') => settled_rt disabled (fw s') z r ∧ heap s' = heap s
         | (ExitJson _, _) => False
         | _ => True
         end.
Proof.
  intros Hr m. subst m. split_and!.
  - framed.
  - pose proof (calm_fw_remove T z r Hr).
    assert (keeps (calm disabled T) mark_changed)
      by (unfold mark_changed; kept).
    unfold fw_query. kept.
  - intros s. apply (runtime_half_settles disabled).
    apply fw_remove_marked_settles.
Qed.

Lemma half_change z i :
  let m := (let* present := fw_query z (Interface i) in
            when (negb present)
              (fw_changeZoneOfInterface z i ;; mark_changed)) in
  frame m ∧ keeps (calm enabled [i]) m
  ∧ ∀ s, match m s with
         | (Ret _, s') =>
             settled_rt enabled (fw s') z (Interface i) ∧ heap s' = heap s
         | (ExitJson _, _) => False
         | _ => True
         end.
Proof.
  intros m. subst m. split_and!.
  - framed.
  - pose proof (calm_fw_changeZoneOfInterface z i).
    assert (keeps (calm enabled [i]) mark_changed)
      by (unfold mark_changed; kept).
    unfold fw_query. kept.
  - intros s. apply (runtime_half_settles enabled).
    apply fw_changeZoneOfInterface_settles.
Qed.

(** *** The rules, category by category *)

Section achieving.
Context (e : env) (P0 : gmap string settings) (zone : string) (n : netman).

Lemma settings_zone_nominal : settings_zone zone zone = zone.
Proof. unfold settings_zone. case_decide as H; [|done]. by destruct H. Qed.

Lemma triple_nominal_rule ds fs (m : M unit) r :
  frame m → keeps (calm ds []) m →
  (∀ s, match m s with
        | (Ret _, s') => settled_rt ds (fw s') zone r ∧ heap s' = heap s
        | (ExitJson _, _) => False
        | _ => True
        end) →
  triple (inv ds P0 zone n fs) (m ;; reconcile_permanent ds zone 0 r)
    (λ _, inv ds P0 zone n (fs ++ [Fact zone zone r]))
    (λ _ _, False) (λ _, True).
Proof.
  intros Hf Hc Hm. eapply triple_conseq.
  - apply (triple_rule ds P0 zone n fs [] m zone zone 0 r Hf Hc Hm).
    apply no_fact_moved.
  - intros s Hinv. split; [done|].
    apply (wf_live_nominal P0), (inv_wf _ _ _ _ _ _ Hinv).
  - intros _ s [Hinv _]. by rewrite settings_zone_nominal in Hinv.
  - done.
  - done.
Qed.

Lemma triple_inv_service_item ds fs name :
  triple (inv ds P0 zone n fs) (service_item ds zone 0 name)
    (λ _, inv ds P0 zone n (fs ++ [Fact zone zone (Service name)]))
    (λ _ _, False) (λ _, True).
Proof.
  unfold service_item. destruct ds.
  - destruct (half_add zone (Service name)) as (? & ? & ?); [done|].
    by apply triple_nominal_rule.
  - destruct (half_remove zone (Service name)) as (? & ? & ?); [done|].
    by apply triple_nominal_rule.
Qed.

Lemma triple_inv_port_item ds fs pp :
  triple (inv ds P0 zone n fs) (port_item ds zone 0 pp)
    (λ _, inv ds P0 zone n (fs ++ [Fact zone zone (Port pp.1 pp.2)]))
    (λ _ _, False) (λ _, True).
Proof.
  destruct pp as [_port _protocol]. unfold port_item. cbv beta iota.
  cbn [fst snd]. destruct ds.
  - destruct (half_add zone (Port _port _protocol)) as (? & ? & ?); [done|].
    by apply triple_nominal_rule.
  - destruct (half_remove_marked [] zone (Port _port _protocol))
      as (? & ? & ?); [done|].
    by apply triple_nominal_rule.
Qed.

Lemma triple_inv_interface_item ds fs k o x :
  fast_path e n x = false → k ≠ "" →
  Forall (λ f, ¬ moved ds [x] (fact_rule f)) fs →
  triple (λ s, inv ds P0 zone n fs s ∧ live s k o)
    (interface_item e ds k o x)
    (λ _ s, inv ds P0 zone n (fs ++ [Fact k k (Interface x)]) s ∧ live s k o)
    (λ _ _, False) (λ _, True).
Proof.
  intros Hfast Hk Hfs s [Hinv Hlive].
  assert (Hfast' : fast_path e (nm s) x = false)
    by by rewrite (inv_nm _ _ _ _ _ _ Hinv).
  assert (Hskip : ∀ z, ∃ s1, try_set_zone_of_interface e z x s = (Ret false, s1)
    ∧ inv ds P0 zone n fs s1 ∧ live s1 k o).
  { intros z.
    destruct (try_set_zone_of_interface_skipped e z x s Hfast') as (cs & Hcs).
    destruct (frame_try_set_zone_of_interface e z x s) as (Hcore & Hflag & _).
    rewrite Hcs in Hcore, Hflag. simpl in Hcore, Hflag.
    exists (add_calls cs s). split; [done|]. split.
    - apply (inv_step ds P0 zone n fs [] s);
        [done|done|by apply calm_same|apply no_fact_moved|done].
    - by apply (stable_live k o s). }
  unfold interface_item. destruct ds; unfold bind at 1.
  - destruct (Hskip k) as (s1 & -> & Hinv1 & Hlive1).
    destruct (half_change k x) as (Hf & Hc & Hm).
    pose proof (triple_rule enabled P0 zone n fs [x] _ k k o (Interface x)
      Hf Hc Hm Hfs s1 (conj Hinv1 Hlive1)) as Ht.
    by rewrite settings_zone_fixed in Ht.
  - destruct (Hskip "") as (s1 & -> & Hinv1 & Hlive1).
    destruct (half_remove_marked [x] k (Interface x)) as (Hf & Hc & Hm);
      [done|].
    pose proof (triple_rule disabled P0 zone n fs [x] _ k k o (Interface x)
      Hf Hc Hm Hfs s1 (conj Hinv1 Hlive1)) as Ht.
    by rewrite settings_zone_fixed in Ht.
Qed.

Lemma triple_inv_fixed_zone ds fs fixed :
  fixed ≠ "" →
  triple (inv ds P0 zone n fs) (fixed_zone zone 0 fixed)
    (λ zs s, zs.1 = fixed ∧ inv ds P0 zone n fs s ∧ live s zs.1 zs.2)
    (λ _ _, False) (λ _, True).
Proof.
  intros Hfixed. unfold fixed_zone. case_decide as Hz.
  - eapply triple_bind; [by apply triple_inv_settings_of_zone|].
    intros o. by apply triple_ret.
  - apply triple_ret. intros s Hinv.
    assert (zone = fixed) by (destruct (decide (zone = fixed)); [done|tauto]).
    split; [done|]. split; [done|].
    apply (wf_live_nominal P0), (inv_wf _ _ _ _ _ _ Hinv).
Qed.

Lemma triple_inv_interface_section ds fs fixed items :
  fixed ≠ "" → Forall (λ i, fast_path e n i = false) items →
  (ds = enabled → NoDup items) →
  Forall (λ f, ∀ j, j ∈ items → ¬ moved ds [j] (fact_rule f)) fs →
  triple (inv ds P0 zone n fs) (interface_section e ds zone 0 fixed items)
    (λ _, inv ds P0 zone n (fs ++ interface_facts fixed items))
    (λ _ _, False) (λ _, True).
Proof.
  intros Hfixed Hfast Hnd Hfs. unfold interface_section. apply triple_when.
  2:{ intros Hlen%bool_decide_eq_false s Hinv.
      destruct items; [|simpl in Hlen; lia].
      unfold interface_facts. simpl. by rewrite app_nil_r. }
  intros _. eapply triple_bind; [by apply triple_inv_fixed_zone|].
  intros [k o]. cbn [fst snd].
  eapply triple_conseq;
    [apply (triple_for_each
       (λ pre s, k = fixed
                 ∧ inv ds P0 zone n (fs ++ interface_facts fixed pre) s
                 ∧ live s k o) _ _ (λ _ _, False) (λ _, True))|..].
  - intros pre x post Hsplit s (-> & Hinv & Hlive).
    assert (Hin : x ∈ items) by (rewrite Hsplit; set_solver).
    rewrite Forall_forall in Hfast.
    assert (Hmoved : Forall (λ f, ¬ moved ds [x] (fact_rule f))
                       (fs ++ interface_facts fixed pre)).
    { apply Forall_app. split.
      - eapply Forall_impl; [exact Hfs|]. intros f Hf. by apply Hf.
      - apply Forall_fmap, Forall_forall. intros j Hj.
        intros (Hds & j' & [= <-] & ->%list_elem_of_singleton).
        specialize (Hnd Hds). rewrite Hsplit in Hnd.
        apply NoDup_app in Hnd as (_ & Hnd & _). apply (Hnd _ Hj). set_solver. }
    pose proof (triple_inv_interface_item ds _ fixed o x (Hfast x Hin) Hfixed
      Hmoved s (conj Hinv Hlive)) as Ht.
    destruct (interface_item e ds fixed o x s) as [[[]|?| |] s']; try done.
    destruct Ht as [Hinv' Hlive']. split; [done|]. split; [|done].
    unfold interface_facts in *. by rewrite fmap_app, app_assoc.
  - intros s (? & Hinv & ?). split; [done|]. split; [|done].
    unfold interface_facts. simpl. by rewrite app_nil_r.
  - by intros _ s (_ & ? & _).
  - done.
  - done.
Qed.

Lemma calm_forward_port_item ds z o item :
  keeps (calm ds []) (forward_port_item ds z o item).
Proof.
  destruct item as [[[[_interface _port] _protocol] _to_port] _to_addr].
  assert (Hq : ∀ z r, keeps (calm ds []) (fw_query z r))
    by (unfold fw_query; kept).
  assert (Hp : ∀ k o r, keeps (calm ds []) (reconcile_permanent ds k o r)).
  { unfold reconcile_permanent, settings_query, settings_add, settings_remove,
      mark_changed, register. kept. }
  assert (Hm : keeps (calm ds []) mark_changed) by (unfold mark_changed; kept).
  assert (Hs : ∀ z, keeps (calm ds []) (settings_of_zone z)).
  { unfold settings_of_zone, config_getZoneByName, zone_getSettings. kept. }
  assert (Hg : ∀ i, keeps (calm ds []) (fw_getZoneOfInterface i))
    by (unfold fw_getZoneOfInterface; kept).
  unfold forward_port_item. destruct ds.
  - pose proof (λ z, calm_fw_add z
      (ForwardPort _port _protocol _to_port _to_addr) ltac:(done)). kept.
  - pose proof (λ z, calm_fw_remove [] z
      (ForwardPort _port _protocol _to_port _to_addr) ltac:(done)). kept.
Qed.

Lemma forward_fact_bindings d d' item :
  default_zone d' = default_zone d → bindings d' = bindings d →
  forward_fact d' zone item = forward_fact d zone item.
Proof.
  intros Hd Hb. unfold forward_fact, forward_zone, zone_of_interface.
  by rewrite Hb.
Qed.

Lemma forward_port_item_achieves ds fs item s :
  inv ds P0 zone n fs s →
  match forward_port_item ds zone 0 item s with
  | (Ret _, s') => inv ds P0 zone n (fs ++ [forward_fact (fw s) zone item]) s'
  | (ExitJson _, _) => False
  | _ => True
  end.
Proof.
  destruct item as [[[[_interface _port] _protocol] _to_port] _to_addr].
  intros Hinv. unfold forward_fact, forward_rule_of. cbn [fst snd].
  unfold forward_port_item. cbv beta iota zeta.
  set (r := ForwardPort _port _protocol _to_port _to_addr).
  set (_zone := forward_zone (fw s) zone _interface).
  unfold bind at 1.
  assert (Hz : ∃ s1, (if decide (_interface ≠ "")
                      then fw_getZoneOfInterface _interface else ret zone) s
                     = (Ret _zone, s1) ∧ inv ds P0 zone n fs s1).
  { unfold _zone, forward_zone. case_decide.
    - rewrite fw_getZoneOfInterface_run. eexists. split; [done|].
      apply (inv_step ds P0 zone n fs [] s);
        [by apply (core_add_call (GetZoneOfInterface _interface))|done
        |by apply calm_same|apply no_fact_moved|done].
    - by exists s. }
  destruct Hz as (s1 & -> & Hinv1). unfold bind at 1.
  assert (Hhalf : ∃ m : M unit,
    (match ds with
     | enabled =>
         (let* present := fw_query _zone r in
          when (negb present) (fw_add _zone r;; mark_changed))
     | disabled =>
         (let* present := fw_query _zone r in
          when present (fw_remove _zone r;; mark_changed))
     end) = m
    ∧ frame m ∧ keeps (calm ds []) m
    ∧ ∀ s, match m s with
           | (Ret _, s') => settled_rt ds (fw s') _zone r ∧ heap s' = heap s
           | (ExitJson _, _) => False
           | _ => True
           end).
  { destruct ds; eexists; (split; [reflexivity|]).
    - by apply half_add.
    - by apply (half_remove_marked []). }
  destruct Hhalf as (m & Hm & Hf & Hc & Hs).
  assert (Hrule : ∀ o s2, inv ds P0 zone n fs s2 → live s2 _zone o →
    match (m ;; reconcile_permanent ds _zone o r) s2 with
    | (Ret _, s') =>
        inv ds P0 zone n (fs ++ [Fact _zone (settings_zone zone _zone) r]) s'
    | (ExitJson _, _) => False
    | _ => True
    end).
  { intros o s2 Hinv2 Hlive2.
    pose proof (triple_rule ds P0 zone n fs [] m _zone _zone o r Hf Hc Hs
      (no_fact_moved ds fs) s2 (conj Hinv2 Hlive2)) as Ht.
    destruct ((m ;; reconcile_permanent ds _zone o r) s2) as [[[]|?| |] s'];
      try done. by destruct Ht. }
  assert (Hbody : ∀ o,
    (match ds with
     | enabled =>
         (let* present := fw_query _zone r in
          when (negb present) (fw_add _zone r;; mark_changed));;
         reconcile_permanent enabled _zone o r
     | disabled =>
         (let* present := fw_query _zone r in
          when present (fw_remove _zone r;; mark_changed));;
         reconcile_permanent disabled _zone o r
     end) = (m ;; reconcile_permanent ds _zone o r)).
  { intros o. rewrite <- Hm. by destruct ds. }
  case_decide as Hcase.
  - destruct Hcase as [Hne Hnz].
    pose proof (triple_inv_settings_of_zone ds P0 zone n fs _zone Hnz Hne s1
      Hinv1) as Hset.
    destruct (settings_of_zone _zone s1) as [[o|?| |] s2]; try done.
    destruct Hset as [Hinv2 Hlive2]. rewrite Hbody. by apply Hrule.
  - unfold ret at 1. rewrite Hbody. apply Hrule; [done|].
    destruct (decide (_zone = "")) as [->|Hne].
    + apply (wf_live_empty P0 zone), (inv_wf _ _ _ _ _ _ Hinv1).
    + assert (_zone = zone) as ->
        by (destruct (decide (_zone = zone)); [done|tauto]).
      apply (wf_live_nominal P0), (inv_wf _ _ _ _ _ _ Hinv1).
Qed.

Lemma triple_inv_forward_loop ds fs forward_port :
  triple (inv ds P0 zone n fs)
    (for_each forward_port (forward_port_item ds zone 0))
    (λ _ s, inv ds P0 zone n
              (fs ++ (forward_fact (fw s) zone <$> forward_port)) s)
    (λ _ _, False) (λ _, True).
Proof.
  eapply triple_conseq;
    [apply (triple_for_each
       (λ pre s, inv ds P0 zone n
                   (fs ++ (forward_fact (fw s) zone <$> pre)) s)
       _ _ (λ _ _, False) (λ _, True))|..].
  - intros pre x post _ s Hinv.
    pose proof (forward_port_item_achieves ds _ x s Hinv) as Ht.
    pose proof (calm_forward_port_item ds zone 0 x s) as Hcalm.
    destruct (forward_port_item ds zone 0 x s) as [[[]|?| |] s']; try done.
    simpl in Hcalm.
    assert (Heq : ∀ item,
      forward_fact (fw s') zone item = forward_fact (fw s) zone item).
    { intros. apply forward_fact_bindings; [apply Hcalm|by apply Hcalm]. }
    rewrite fmap_app, app_assoc. simpl.
    by rewrite (list_fmap_ext _ _ _ (λ _ item _, Heq item)), Heq.
  - intros s Hinv. simpl. by rewrite app_nil_r.
  - done.
  - done.
  - done.
Qed.
End achieving.

(** *** The whole pass *)

Lemma settled_rt_runtime ds d d' z r :
  default_zone d' = default_zone d → runtime d' = runtime d →
  settled_rt ds d z r → settled_rt ds d' z r.
Proof. intros Hd Hr. unfold settled_rt, rt_zone. by rewrite Hd, Hr. Qed.

Lemma facts_of_runtime d d' zone service port trust masq forward_port :
  default_zone d' = default_zone d → runtime d' = runtime d →
  facts_of d' zone service port trust masq forward_port
  = facts_of d zone service port trust masq forward_port.
Proof.
  intros Hd Hr. unfold facts_of. do 3 f_equal.
  apply list_fmap_ext. intros _ item _.
  apply forward_fact_bindings; [done|]. unfold bindings. by rewrite Hr.
Qed.

Lemma inv_committed ds P0 zone n fs s s' :
  P0 !! "" = None → inv ds P0 zone n fs s → committed P0 zone s' →
  heap s' = heap s → changed_zones s' = changed_zones s →
  runtime (fw s') = runtime (fw s) →
  default_zone (fw s') = default_zone (fw s) → nm s' = nm s →
  nm s' = n ∧ Forall (settled ds (fw s')) fs.
Proof.
  intros Hempty [Hwf Hg Hn Hfacts] Hcm Hh Hcz Hrt Hdz Hnm.
  split; [congruence|].
  eapply Forall_impl; [exact Hfacts|]. intros f [Hr Hp]. split.
  - by apply (settled_rt_runtime ds (fw s)).
  - unfold settled_pm.
    rewrite (c_permanent _ _ _ Hcm), write_back_lookup by apply Hcm.
    rewrite Hh, Hcz.
    destruct Hp as [[o Hd]|(y & Hv & Hy)].
    + assert (Hreg : registered s' "" o) by (unfold registered; by rewrite Hcz).
      destruct (c_exist _ _ _ Hcm _ _ Hreg) as [? Hsome]. congruence.
    + exists y. split; [|done]. unfold view in Hv.
      destruct (dict_get (fact_key f) (changed_zones s)) as [o|]; [|done].
      unfold deref. by rewrite Hv.
Qed.

Lemma inv_start ds P0 zone n x0 s :
  permanent (fw s) = P0 → P0 !! zone = Some x0 → heap s = [x0] →
  fetched (calls s) = [zone] → updates (calls s) = [] → nm s = n →
  changed_zones s = [] →
  inv ds P0 zone n [] s.
Proof.
  intros Hp Hx Hh Hf Hu Hn Hcz. split; [split|..]; unfold registered;
    rewrite ?Hh, ?Hf, ?Hcz; simpl; try done.
  - intros o. destruct o; simpl; [done|]. split; [|done]. by rewrite lookup_nil.
  - intros [|o] k; simpl; [|by rewrite lookup_nil].
    intros [= <-]. exists x0. split; [done|]. by left.
  - constructor.
  - intros o k x r Hfo Hk Hr. rewrite Hf in Hfo. rewrite Hh.
    destruct o; simpl in *; [|by rewrite lookup_nil in Hfo].
    injection Hfo as <-. unfold deref. simpl. congruence.
Qed.

Lemma not_moved_nominal ds zone rs (T : list string) :
  Forall service_or_port rs →
  Forall (λ f, ∀ j, j ∈ T → ¬ moved ds [j] (fact_rule f))
    (nominal_facts zone rs).
Proof.
  intros Hrs. apply Forall_fmap. eapply Forall_impl; [exact Hrs|].
  intros r Hr j _ (_ & j' & Heq & _). simpl in Heq. by subst r.
Qed.

Lemma triple_reconcile_settles e ds P0 zone n x0 service port trust masq
    forward_port :
  P0 !! zone = Some x0 → P0 !! "" = None →
  Forall (λ i, fast_path e n i = false) (trust ++ masq) →
  (ds = enabled → NoDup (trust ++ masq)) →
  triple
    (λ s, permanent (fw s) = P0 ∧ heap s = [x0] ∧ fetched (calls s) = [zone]
          ∧ updates (calls s) = [] ∧ nm s = n)
    (reconcile e ds zone 0 service port trust masq forward_port)
    (λ _ _, False)
    (λ _ s, nm s = n
            ∧ Forall (settled ds (fw s))
                (facts_of (fw s) zone service port trust masq forward_port))
    (λ _, True).
Proof.
  intros Hx0 Hempty [Hft Hfm]%Forall_app Hnd.
  pose proof (rules_of_service_or_port service port) as Hrs.
  unfold reconcile.
  eapply (triple_bind _ _ _ (λ _ s,
    permanent (fw s) = P0 ∧ heap s = [x0] ∧ fetched (calls s) = [zone]
    ∧ updates (calls s) = [] ∧ nm s = n)); [by intros s H|intros []].
  eapply (triple_bind _ _ _ (λ _, inv ds P0 zone n [])); [|intros []].
  { intros s (Hp & Hh & Hf & Hu & Hn). by apply (inv_start ds P0 zone n x0). }
  eapply (triple_bind _ _ _
    (λ _, inv ds P0 zone n (nominal_facts zone (Service <$> service))));
    [|intros []].
  { eapply triple_conseq;
      [apply (triple_for_each
         (λ pre, inv ds P0 zone n (nominal_facts zone (Service <$> pre)))
         _ _ (λ _ _, False) (λ _, True))|..]; try done.
    intros pre x post _. unfold nominal_facts. rewrite !fmap_app.
    apply triple_inv_service_item. }
  eapply (triple_bind _ _ _
    (λ _, inv ds P0 zone n (nominal_facts zone (rules_of service port))));
    [|intros []].
  { eapply triple_conseq;
      [apply (triple_for_each
         (λ pre, inv ds P0 zone n (nominal_facts zone (rules_of service pre)))
         _ _ (λ _ _, False) (λ _, True))|..]; try done.
    - intros pre x post _. unfold nominal_facts, rules_of.
      rewrite !fmap_app, !app_assoc. apply triple_inv_port_item.
    - intros s Hinv. unfold rules_of. simpl. by rewrite app_nil_r. }
  eapply triple_bind; [|intros []].
  { apply triple_weaken_exit.
    apply triple_inv_interface_section; [done|done| |].
    - intros Hds. specialize (Hnd Hds). by apply NoDup_app in Hnd as (? & _ & _).
    - by apply not_moved_nominal. }
  eapply triple_bind; [|intros []].
  { apply triple_weaken_exit.
    apply triple_inv_interface_section; [done|done| |].
    - intros Hds. specialize (Hnd Hds). by apply NoDup_app in Hnd as (_ & _ & ?).
    - apply Forall_app. split; [by apply not_moved_nominal|].
      apply Forall_fmap, Forall_forall. intros i Hi j Hj.
      intros (Hds & j' & [= <-] & ->%list_elem_of_singleton).
      specialize (Hnd Hds). apply NoDup_app in Hnd as (_ & Hdis & _).
      by apply (Hdis j). }
  eapply (triple_bind _ _ _ (λ _ s, inv ds P0 zone n
    (facts_of (fw s) zone service port trust masq forward_port) s));
    [|intros []].
  { unfold facts_of. apply triple_when.
    - intros _. eapply triple_conseq;
        [apply (triple_inv_forward_loop P0 zone n ds
           ((nominal_facts zone (rules_of service port)
             ++ interface_facts "trusted" trust)
            ++ interface_facts "external" masq))|..].
      + by intros s Hinv.
      + intros [] s Hinv. cbv beta in Hinv. by rewrite <- !app_assoc in Hinv.
      + done.
      + done.
    - intros Hlen%bool_decide_eq_false s Hinv.
      destruct forward_port; [|simpl in Hlen; lia].
      simpl. rewrite !app_nil_r. by rewrite <- app_assoc in Hinv. }
  intros s Hinv. unfold bind.
  pose proof (apply_changes_run s) as Hrun.
  pose proof (inv_wf _ _ _ _ _ _ Hinv) as Hwf.
  destruct (apply_changes s) as [[[]|c| |] s']; try done.
  - destruct Hrun as [-> Hch]. simpl.
    apply (inv_committed ds P0 zone n _ s s); try done.
    by apply wf_unchanged_committed.
  - destruct Hrun as (_ & _ & Hcm).
    rewrite (facts_of_runtime (fw s) (fw s'))
      by (by destruct Hcm).
    apply (inv_committed ds P0 zone n _ s s'); try done;
      [by eapply wf_commits_committed|by destruct Hcm..].
Qed.

Lemma satisfied_facts ds d zone service port trust masq forward_port :
  Forall (settled ds d)
    (facts_of d zone service port trust masq forward_port) →
  satisfied ds d zone service port trust masq forward_port.
Proof.
  unfold facts_of, nominal_facts, rules_of, interface_facts.
  rewrite !Forall_app, !fmap_app, !Forall_app, !Forall_fmap.
  intros ((Hs & Hp) & Ht & Hm & Hf). by split.
Qed.

Lemma pass_satisfies e p d n c zone x0 port forward_port :
  reaches e p d zone x0 port forward_port →
  permanent d !! "" = None →
  Forall (λ i, fast_path e n i = false) (param_trust p ++ param_masq p) →
  (param_state p = enabled → NoDup (param_trust p ++ param_masq p)) →
  (run e p d n).1 = ExitJson c →
  nm (run e p d n).2 = n
  ∧ satisfied (param_state p) (fw (run e p d n).2) zone (param_service p)
      port (param_trust p) (param_masq p) forward_port.
Proof.
  intros Hr Hempty Hfast Hnd. unfold run.
  rewrite (main_reconcile _ _ _ n _ _ _ _ Hr).
  set (s0 := State d n [x0] false [] (opening_calls p zone)).
  pose proof (triple_reconcile_settles e (param_state p) (permanent d) zone n
    x0 (param_service p) port (param_trust p) (param_masq p) forward_port
    (r_permanent _ _ _ _ _ _ _ Hr) Hempty Hfast Hnd s0) as Ht.
  destruct (reconcile _ _ _ _ _ _ _ _ _ s0) as [[[]|c'| |] s'];
    simpl in *; try done.
  intros _. destruct Ht as [Hn Hfacts].
  - split_and!; try done.
    + apply fetched_opening_calls.
    + apply updates_opening_calls.
  - split; [done|]. by apply satisfied_facts.
Qed.





(** ** Idempotence *)


Lemma second_pass_unchanged e p d n c zone x0 port forward_port :
  reaches e p d zone x0 port forward_port →
  (run e p d n).1 = ExitJson c →
  permanent d !! "" = None →
  Forall (λ i, fast_path e n i = false) (param_trust p ++ param_masq p) →
  (param_state p = enabled → NoDup (param_trust p ++ param_masq p)) →
  let d' := fw (run e p d n).2 in
  let n' := nm (run e p d n).2 in
  (run e p d' n').1 = ExitJson false
  ∧ fw (run e p d' n').2 = d' ∧ nm (run e p d' n').2 = n'.
Proof.
  intros Hr Hexit Hempty Hfast Hnd d' n'.
  destruct (pass_satisfies e p d n c zone x0 port forward_port Hr Hempty
    Hfast Hnd Hexit) as [Hn Hsat].
  fold n' in Hn. fold d' in Hsat.
  destruct (same_zones_main e p (start d n)) as (Hconn & Hdz & Hrt & Hpm).
  fold (run e p d n) in Hconn, Hdz, Hrt, Hpm. fold d' in Hconn, Hdz, Hrt, Hpm.
  simpl in Hconn, Hdz, Hrt, Hpm.
  assert (is_Some (permanent d' !! zone)) as [x0' Hx0'].
  { apply elem_of_dom. rewrite Hpm. apply elem_of_dom.
    rewrite (r_permanent _ _ _ _ _ _ _ Hr). by eexists. }
  assert (Hr' : reaches e p d' zone x0' port forward_port).
  { destruct Hr as [Hb Hc Hpp Hfp Hz Hv Hperm]. split.
    - done.
    - congruence.
    - done.
    - done.
    - by rewrite Hdz.
    - intros z Hzp. rewrite Hrt, Hpm. auto.
    - done. }
  rewrite Hn in *.
  pose proof (main_reconcile _ _ _ n _ _ _ _ Hr') as Hmain.
  change (main e p (start d' n)) with (run e p d' n) in Hmain.
  rewrite Hmain. clear Hmain.
  assert (Hidle : idle d' n x0'
    (State d' n [x0'] false [] (opening_calls p zone))) by done.
  pose proof (triple_idle_reconcile d' n x0' e (param_state p) zone
    (param_service p) port (param_trust p) (param_masq p) forward_port
    Hx0' Hfast Hsat _ Hidle) as Hrun.
  destruct (reconcile _ _ _ _ _ _ _ _ _ _) as [[[]|c'| |] s'];
    simpl in *; try done.
  destruct Hrun as [-> [? ? _ _ _]]. done.
Qed.

Lemma unchanged_iff_satisfied e p d n zone x0 port forward_port :
  reaches e p d zone x0 port forward_port →
  param_state p = enabled →
  permanent d !! "" = None →
  Forall (λ i, fast_path e n i = false) (param_trust p ++ param_masq p) →
  NoDup (param_trust p ++ param_masq p) →
  (run e p d n).1 = ExitJson false
  ↔ satisfied enabled d zone (param_service p) port (param_trust p)
      (param_masq p) forward_port.
Proof.
  intros Hr Hds Hempty Hfast Hnd. split.
  - intros Hexit.
    destruct (pass_satisfies e p d n false zone x0 port forward_port Hr Hempty
      Hfast (λ _, Hnd) Hexit) as [_ Hsat].
    rewrite Hds in Hsat.
    assert (Hfw : fw (run e p d n).2 = d).
    { unfold run in *. rewrite (main_reconcile _ _ _ n _ _ _ _ Hr) in *.
      destruct (reconcile_report _ _ _ _ _ _ _ _ _
                  (State d n [x0] false [] (opening_calls p zone)) eq_refl
                  Hexit) as [(cs & _ & _ & Hq) Hch].
      destruct (Hq Hch) as (_ & _ & Hen). by destruct (Hen Hds). }
    by rewrite Hfw in Hsat.
  - intros Hsat. unfold run. rewrite (main_reconcile _ _ _ n _ _ _ _ Hr).
    assert (Hidle : idle d n x0
      (State d n [x0] false [] (opening_calls p zone))) by done.
    rewrite <- Hds in Hsat.
    pose proof (triple_idle_reconcile d n x0 e (param_state p) zone
      (param_service p) port (param_trust p) (param_masq p) forward_port
      (r_permanent _ _ _ _ _ _ _ Hr) Hfast Hsat _ Hidle) as Hrun.
    destruct (reconcile _ _ _ _ _ _ _ _ _ _) as [[[]|c'| |] s'];
      simpl in *; try done.
    by destruct Hrun as [-> _].
Qed.




(** ** Enabling and then disabling a rule *)

Lemma without_with_rule x r : has x r = false → without_rule (with_rule x r) r = x.
Proof.
  destruct x as [sv pt ifs fp].
  destruct r; simpl; intros H%bool_decide_eq_false; f_equal; set_solver.
Qed.

Lemma without_rule_absent x r : has x r = false → without_rule x r = x.
Proof.
  destruct x as [sv pt ifs fp].
  destruct r; simpl; intros H%bool_decide_eq_false; f_equal; set_solver.
Qed.

Lemma unbound_runtime d i :
  unbound d i → (λ x, without_rule x (Interface i)) <$> runtime d = runtime d.
Proof.
  intros Hu. apply map_eq. intros z. rewrite lookup_fmap.
  destruct (runtime d !! z) as [x|] eqn:Hx; [|done].
  change (Some (without_rule x (Interface i)) = Some x).
  by rewrite (without_rule_absent x _ (Hu z x Hx)).
Qed.

Lemma bind_assoc_run {A B C : Type} (m : M A) (k : A → M B) (k' : B → M C) s :
  bind (bind m k) k' s = bind m (λ a, bind (k a) k') s.
Proof. unfold bind. by destruct (m s) as [[a| | |] s']. Qed.

Lemma for_each_one {A B : Type} (x : A) body (k : unit → M B) s :
  bind (for_each [x] body) k s = bind (body x) (λ _, k tt) s.
Proof.
  simpl. rewrite bind_assoc_run. unfold bind.
  by destruct (body x s) as [[[]| | |] s'].
Qed.

(** *** The end of a pass that has one zone, or none, to write back *)

Lemma finish_unchanged s :
  changed s = false →
  (apply_changes ;; @exit_json Empty_set false) s = (ExitJson false, s).
Proof.
  intros Hch. unfold apply_changes, bind, gets, when. by rewrite Hch.
Qed.

Lemma finish_flagged s :
  changed s = true → changed_zones s = [] →
  (apply_changes ;; @exit_json Empty_set false) s = (ExitJson true, s).
Proof.
  intros Hch Hcz. unfold apply_changes, bind, gets, when.
  rewrite Hch. cbv beta iota. by rewrite Hcz.
Qed.

Lemma finish_one s k o y :
  changed s = true → changed_zones s = [(k, o)] →
  permanent (fw s) !! k = Some y →
  ∃ s', (apply_changes ;; @exit_json Empty_set false) s = (ExitJson true, s')
        ∧ fw s' = set_permanent (<[k := deref (heap s) o]> (permanent (fw s)))
                    (fw s)
        ∧ nm s' = nm s.
Proof.
  intros Hch Hcz Hy.
  unfold apply_changes, bind, gets, when. rewrite Hch. cbv beta iota.
  rewrite Hcz. cbn [for_each fst snd]. unfold bind.
  rewrite config_getZoneByName_run, Hy.
  unfold zone_update, bind, called, modify, gets, ret, exit_json. simpl.
  eexists. split; [reflexivity|]. done.
Qed.

(** *** One rule, from the runtime call to the write-back *)

Lemma rule_commits (half : M unit) ds k o r s s1 y y0 :
  half s = (Ret tt, s1) →
  heap s1 !! o = Some y → has y r = negb (wanted ds) →
  changed_zones s1 = [] → permanent (fw s1) !! k = Some y0 →
  ∃ s', ((half ;; reconcile_permanent ds k o r) ;;
         apply_changes ;; @exit_json Empty_set false) s = (ExitJson true, s')
        ∧ fw s'
          = set_permanent
              (<[k := match ds with
                      | enabled => with_rule y r
                      | disabled => without_rule y r
                      end]> (permanent (fw s1))) (fw s1)
        ∧ nm s' = nm s1.
Proof.
  intros Hhalf Ho Hh Hcz Hk.
  destruct (finish_one (record_change ds k o r s1) k o y0)
    as (s' & Hrun & Hfw & Hnm); [done|by simpl; rewrite Hcz|done|].
  exists s'. split_and!.
  - rewrite bind_assoc_run. unfold bind at 1. rewrite Hhalf.
    unfold bind at 1. rewrite reconcile_permanent_run.
    rewrite (deref_lookup _ _ _ Ho).
    rewrite bool_decide_eq_false_2 by (rewrite Hh; by destruct (wanted ds)).
    exact Hrun.
  - rewrite Hfw. simpl. f_equal. f_equal.
    unfold deref. rewrite list_lookup_insert_eq by (by eapply lookup_lt_Some).
    rewrite Ho. simpl. by destruct ds.
  - done.
Qed.

(** *** The runtime call of a rule *)

Lemma add_half_run z r s x :
  runtime (fw s) !! rt_zone (fw s) z = Some x → has x r = false →
  (let* present := fw_query z r in
   when (negb present) (fw_add z r ;; mark_changed)) s
  = (Ret tt, set_changed true
               (rt_put z (with_rule x r)
                  (add_calls [Add z r] (add_calls [Query z r] s)))).
Proof.
  intros Hx Hh. unfold bind at 1. rewrite fw_query_run, Hx, Hh. simpl.
  unfold bind. by rewrite (fw_add_run _ _ _ x).
Qed.

Lemma remove_half_run z r s x :
  runtime (fw s) !! rt_zone (fw s) z = Some x → has x r = true →
  (let* present := fw_query z r in
   when present (fw_remove z r ;; mark_changed)) s
  = (Ret tt, set_changed true
               (rt_put z (without_rule x r)
                  (add_calls [Remove z r] (add_calls [Query z r] s)))).
Proof.
  intros Hx Hh. unfold bind at 1. rewrite fw_query_run, Hx, Hh. simpl.
  unfold bind. by rewrite (fw_remove_run _ _ _ x).
Qed.

Lemma remove_half_unmarked_run z r s x :
  runtime (fw s) !! rt_zone (fw s) z = Some x → has x r = true →
  (let* present := fw_query z r in when present (fw_remove z r)) s
  = (Ret tt, rt_put z (without_rule x r)
               (add_calls [Remove z r] (add_calls [Query z r] s))).
Proof.
  intros Hx Hh. unfold bind at 1. rewrite fw_query_run, Hx, Hh. simpl.
  by rewrite (fw_remove_run _ _ _ x).
Qed.

Lemma change_half_run z i s x :
  unbound (fw s) i →
  runtime (fw s) !! rt_zone (fw s) z = Some x →
  (let* present := fw_query z (Interface i) in
   when (negb present) (fw_changeZoneOfInterface z i ;; mark_changed)) s
  = (Ret tt, set_changed true
               (rt_put z (with_rule x (Interface i))
                  (add_calls [ChangeZoneOfInterface z i]
                     (add_calls [Query z (Interface i)] s)))).
Proof.
  intros Hu Hx. unfold bind at 1.
  rewrite fw_query_run, Hx, (Hu _ _ Hx). cbn [negb when].
  unfold bind at 1.
  unfold fw_changeZoneOfInterface, bind, called, modify, gets, mark_changed.
  cbn [fst snd fw add_call add_calls].
  rewrite (unbound_runtime _ _ Hu), Hx. reflexivity.
Qed.

(** *** A rule that is enabled and then disabled *)

Lemma adds_add z r d x :
  runtime d !! rt_zone d z = Some x → has x r = false →
  adds (let* present := fw_query z r in
        when (negb present) (fw_add z r ;; mark_changed)) d z r x.
Proof.
  intros Hx Hh s <-. rewrite (add_half_run z r s x Hx Hh).
  eexists. split; [reflexivity|]. done.
Qed.

Lemma adds_change z i d x :
  unbound d i → runtime d !! rt_zone d z = Some x →
  adds (let* present := fw_query z (Interface i) in
        when (negb present) (fw_changeZoneOfInterface z i ;; mark_changed))
    d z (Interface i) x.
Proof.
  intros Hu Hx s <-. rewrite (change_half_run z i s x Hu Hx).
  eexists. split; [reflexivity|]. done.
Qed.

Lemma removes_marked z r :
  removes (let* present := fw_query z r in
           when present (fw_remove z r ;; mark_changed)) z r.
Proof.
  intros s x Hx Hh. rewrite (remove_half_run z r s x Hx Hh).
  eexists. split; [reflexivity|]. done.
Qed.

Lemma removes_unmarked z r :
  removes (let* present := fw_query z r in when present (fw_remove z r)) z r.
Proof.
  intros s x Hx Hh. rewrite (remove_half_unmarked_run z r s x Hx Hh).
  eexists. split; [reflexivity|]. done.
Qed.

(** The daemon that has [r] in the runtime zone [z] and in the permanent
    zone [k] on top of what [d] has. *)
Lemma enable_rule (half : M unit) d z k o r x y s :
  adds half d z r x →
  permanent d !! k = Some y → has y r = false →
  fw s = d → heap s !! o = Some y → changed_zones s = [] →
  ∃ s', ((half ;; reconcile_permanent enabled k o r) ;;
         apply_changes ;; @exit_json Empty_set false) s = (ExitJson true, s')
        ∧ fw s' = Daemon (connected d) (default_zone d)
                    (<[rt_zone d z := with_rule x r]> (runtime d))
                    (<[k := with_rule y r]> (permanent d))
        ∧ nm s' = nm s.
Proof.
  intros Hadd Hy Hyh Hfw Ho Hcz.
  destruct (Hadd s Hfw) as (s1 & Hhalf & Hfw1 & Hnm1 & Hh1 & Hcz1).
  destruct (rule_commits half enabled k o r s s1 y y Hhalf)
    as (s' & Hrun & Hfw' & Hnm'); try done.
  - by rewrite Hh1.
  - congruence.
  - by rewrite Hfw1.
  - exists s'. split; [done|]. split; [|congruence].
    rewrite Hfw', Hfw1. reflexivity.
Qed.

Lemma disable_rule (half : M unit) d z k o r x y s :
  removes half z r →
  runtime d !! rt_zone d z = Some x → has x r = false →
  permanent d !! k = Some y → has y r = false →
  fw s = Daemon (connected d) (default_zone d)
           (<[rt_zone d z := with_rule x r]> (runtime d))
           (<[k := with_rule y r]> (permanent d)) →
  heap s !! o = Some (with_rule y r) → changed_zones s = [] →
  ∃ s', ((half ;; reconcile_permanent disabled k o r) ;;
         apply_changes ;; @exit_json Empty_set false) s = (ExitJson true, s')
        ∧ fw s' = d ∧ nm s' = nm s.
Proof.
  intros Hrem Hx Hxh Hy Hyh Hfw Ho Hcz.
  destruct (Hrem s (with_rule x r)) as (s1 & Hhalf & Hfw1 & Hnm1 & Hh1 & Hcz1).
  { rewrite Hfw. simpl. unfold rt_zone at 1. simpl.
    fold (rt_zone d z). apply lookup_insert_eq. }
  { apply has_with_rule. }
  destruct (rule_commits half disabled k o r s s1 (with_rule y r)
              (with_rule y r) Hhalf)
    as (s' & Hrun & Hfw' & Hnm'); try done.
  - by rewrite Hh1.
  - apply has_with_rule.
  - congruence.
  - rewrite Hfw1, Hfw. simpl. apply lookup_insert_eq.
  - exists s'. split; [done|]. split; [|congruence].
    rewrite Hfw', Hfw1, Hfw. simpl. unfold rt_zone at 1 2. simpl.
    fold (rt_zone d z).
    rewrite !insert_insert_eq, !without_with_rule by done.
    rewrite !insert_id by done. by destruct d.
Qed.

(** *** A pass with one rule *)

Lemma reconcile_service e ds zone o name s :
  reconcile e ds zone o [name] [] [] [] [] s
  = (service_item ds zone o name ;;
     apply_changes ;; @exit_json Empty_set false)
      (set_changed_zones [] (set_changed false s)).
Proof.
  unfold reconcile, interface_section. cbn [for_each length].
  change (bool_decide (0 < 0)) with false.
  unfold bind, modify, when, ret. cbv beta iota.
  by destruct (service_item ds zone o name _) as [[[]| | |] ?].
Qed.

Lemma reconcile_port e ds zone o pp s :
  reconcile e ds zone o [] [pp] [] [] [] s
  = (port_item ds zone o pp ;;
     apply_changes ;; @exit_json Empty_set false)
      (set_changed_zones [] (set_changed false s)).
Proof.
  unfold reconcile, interface_section. cbn [for_each length].
  change (bool_decide (0 < 0)) with false.
  unfold bind, modify, when, ret. cbv beta iota.
  by destruct (port_item ds zone o pp _) as [[[]| | |] ?].
Qed.

Lemma reconcile_forward_port e ds zone o item s :
  reconcile e ds zone o [] [] [] [] [item] s
  = (forward_port_item ds zone o item ;;
     apply_changes ;; @exit_json Empty_set false)
      (set_changed_zones [] (set_changed false s)).
Proof.
  unfold reconcile, interface_section. cbn [for_each length].
  change (bool_decide (0 < 0)) with false.
  change (bool_decide (0 < 1)) with true.
  unfold bind, modify, when, ret. cbv beta iota.
  by destruct (forward_port_item ds zone o item _) as [[[]| | |] ?].
Qed.

Lemma reconcile_trust e ds zone o i s :
  reconcile e ds zone o [] [] [i] [] [] s
  = ((let* zs := fixed_zone zone o "trusted" in
      interface_item e ds zs.1 zs.2 i) ;;
     apply_changes ;; @exit_json Empty_set false)
      (set_changed_zones [] (set_changed false s)).
Proof.
  unfold reconcile, interface_section. cbn [for_each length].
  change (bool_decide (0 < 0)) with false.
  change (bool_decide (0 < 1)) with true.
  unfold bind, modify, when, ret. cbv beta iota.
  destruct (fixed_zone zone o "trusted" _) as [[zs| | |] ?]; try done.
  by destruct (interface_item e ds zs.1 zs.2 i _) as [[[]| | |] ?].
Qed.

Lemma reconcile_masq e ds zone o i s :
  reconcile e ds zone o [] [] [] [i] [] s
  = ((let* zs := fixed_zone zone o "external" in
      interface_item e ds zs.1 zs.2 i) ;;
     apply_changes ;; @exit_json Empty_set false)
      (set_changed_zones [] (set_changed false s)).
Proof.
  unfold reconcile, interface_section. cbn [for_each length].
  change (bool_decide (0 < 0)) with false.
  change (bool_decide (0 < 1)) with true.
  unfold bind, modify, when, ret. cbv beta iota.
  destruct (fixed_zone zone o "external" _) as [[zs| | |] ?]; try done.
  by destruct (interface_item e ds zs.1 zs.2 i _) as [[[]| | |] ?].
Qed.

Lemma reaches_next e p p' d d' zone x0 x0' port forward_port :
  reaches e p d zone x0 port forward_port →
  param_port p' = param_port p →
  param_forward_port p' = param_forward_port p →
  param_zone p' = param_zone p →
  connected d' = connected d → default_zone d' = default_zone d →
  dom (runtime d') = dom (runtime d) →
  dom (permanent d') = dom (permanent d) →
  permanent d' !! zone = Some x0' →
  reaches e p' d' zone x0' port forward_port.
Proof.
  intros [Hb Hc Hpp Hfp Hz Hv Hperm] Hp1 Hp2 Hp3 Hconn Hdz Hrt Hpm Hx0'.
  split.
  - done.
  - congruence.
  - by rewrite Hp1.
  - by rewrite Hp2.
  - by rewrite Hp3, Hdz.
  - intros z. rewrite Hp3, Hrt, Hpm. apply Hv.
  - done.
Qed.

Lemma only_agrees r z :
  param_port (only r z disabled) = param_port (only r z enabled)
  ∧ param_forward_port (only r z disabled)
    = param_forward_port (only r z enabled)
  ∧ param_zone (only r z disabled) = param_zone (only r z enabled).
Proof. by destruct r. Qed.

(** The daemon after the rule [r] was added to the runtime zone [z] and to
    the permanent zone [k] has the zones of [d]. *)
Lemma dom_insert_lookup (m : gmap string settings) k x y :
  m !! k = Some x → dom (<[k := y]> m) = dom m.
Proof.
  intros Hk. rewrite dom_insert_L.
  assert (k ∈ dom m) by (apply elem_of_dom; by eexists). set_solver.
Qed.

Section round_trip.
Context (e : env) (d : daemon) (n : netman) (z : option string)
  (zone : string).

(** What is shared by the rules that go through the daemon: the first pass
    adds the rule to the runtime zone [zrt] and to the permanent zone [k],
    and the second pass, which finds the rule in the settings of the
    nominal zone exactly when [k] is the nominal zone, removes it again. *)
Lemma round_trip_runs (r : single_rule) (rule : rule) (zrt k : string)
    (x y x0 : settings) port fwd :
  reaches e (only r z enabled) d zone x0 port fwd →
  runtime d !! rt_zone d zrt = Some x → has x rule = false →
  permanent d !! k = Some y → has y rule = false →
  let d1 := Daemon (connected d) (default_zone d)
              (<[rt_zone d zrt := with_rule x rule]> (runtime d))
              (<[k := with_rule y rule]> (permanent d)) in
  (∀ s, fw s = d → nm s = n → heap s = [x0] → changed s = false →
        changed_zones s = [] →
        ∃ s', reconcile e enabled zone 0 (param_service (only r z enabled))
                port (param_trust (only r z enabled))
                (param_masq (only r z enabled)) fwd s = (ExitJson true, s')
              ∧ fw s' = d1 ∧ nm s' = n) →
  (∀ s x1, fw s = d1 → nm s = n → heap s = [x1] →
        permanent d1 !! zone = Some x1 →
        changed s = false → changed_zones s = [] →
        ∃ s', reconcile e disabled zone 0
                (param_service (only r z disabled)) port
                (param_trust (only r z disabled))
                (param_masq (only r z disabled)) fwd s = (ExitJson true, s')
              ∧ fw s' = d) →
  fw (run e (only r z disabled)
        (fw (run e (only r z enabled) d n).2)
        (nm (run e (only r z enabled) d n).2)).2 = d.
Proof.
  intros Hr Hx Hxh Hy Hyh d1 Hon Hoff.
  assert (Hrun1 : ∃ s', run e (only r z enabled) d n = (ExitJson true, s')
                        ∧ fw s' = d1 ∧ nm s' = n).
  { unfold run. rewrite (main_reconcile _ _ _ n _ _ _ _ Hr).
    replace (param_state (only r z enabled)) with enabled by (by destruct r).
    by apply Hon. }
  destruct Hrun1 as (s1 & -> & Hfw1 & Hnm1). cbn [snd]. rewrite Hfw1, Hnm1.
  assert (is_Some (permanent d1 !! zone)) as [x1 Hx1].
  { apply elem_of_dom. unfold d1. simpl.
    rewrite (dom_insert_lookup _ _ _ _ Hy). apply elem_of_dom.
    rewrite (r_permanent _ _ _ _ _ _ _ Hr). by eexists. }
  destruct (only_agrees r z) as (Hp1 & Hp2 & Hp3).
  assert (Hr' : reaches e (only r z disabled) d1 zone x1 port fwd).
  { apply (reaches_next e (only r z enabled) _ d d1 zone x0 x1); try done.
    - unfold d1. simpl. by apply (dom_insert_lookup _ _ _ _ Hx).
    - unfold d1. simpl. by apply (dom_insert_lookup _ _ _ _ Hy). }
  unfold run. rewrite (main_reconcile _ _ _ n _ _ _ _ Hr').
  replace (param_state (only r z disabled)) with disabled by (by destruct r).
  destruct (Hoff (State d1 n [x1] false []
                    (opening_calls (only r z disabled) zone)) x1)
    as (s2 & -> & Hfw2); done.
Qed.

Lemma round_trip_service name x0 port fwd :
  reaches e (only (OneService name) z enabled) d zone x0 port fwd →
  absent e n d zone (OneService name) →
  fw (run e (only (OneService name) z disabled)
        (fw (run e (only (OneService name) z enabled) d n).2)
        (nm (run e (only (OneService name) z enabled) d n).2)).2 = d.
Proof.
  intros Hr [(x & Hx & Hxh) (y & Hy & Hyh)].
  assert (y = x0) as ->
    by (pose proof (r_permanent _ _ _ _ _ _ _ Hr); congruence).
  assert (port = []) as ->
    by (pose proof (r_port _ _ _ _ _ _ _ Hr) as H; simpl in H; congruence).
  assert (fwd = []) as ->.
  { pose proof (r_forward_port _ _ _ _ _ _ _ Hr) as H. simpl in H.
    congruence. }
  apply (round_trip_runs (OneService name) (Service name) zone zone x x0 x0
           [] [] Hr Hx Hxh Hy Hyh).
  - intros s Hfw Hnm Hh Hch Hcz. cbn [only param_service param_trust
      param_masq]. rewrite reconcile_service.
    destruct (enable_rule _ d zone zone 0 (Service name) x x0
                (set_changed_zones [] (set_changed false s))
                (adds_add zone _ d x Hx Hxh) Hy Hyh)
      as (s' & Hrun & Hfw' & Hnm'); [done|by simpl; rewrite Hh|done|].
    exists s'. split; [exact Hrun|]. split; [done|]. by rewrite Hnm'.
  - intros s x1 Hfw Hnm Hh Hx1 Hch Hcz. cbn [only param_service param_trust
      param_masq]. rewrite reconcile_service.
    assert (x1 = with_rule x0 (Service name)) as ->.
    { cbn [permanent] in Hx1. rewrite lookup_insert_eq in Hx1. congruence. }
    destruct (disable_rule _ d zone zone 0 (Service name) x x0
                (set_changed_zones [] (set_changed false s))
                (removes_unmarked zone _) Hx Hxh Hy Hyh)
      as (s' & Hrun & Hfw' & Hnm'); [done|by simpl; rewrite Hh|done|].
    exists s'. split; [exact Hrun|done].
Qed.

Lemma round_trip_port port_proto x0 port fwd :
  reaches e (only (OnePort port_proto) z enabled) d zone x0 port fwd →
  absent e n d zone (OnePort port_proto) →
  fw (run e (only (OnePort port_proto) z disabled)
        (fw (run e (only (OnePort port_proto) z enabled) d n).2)
        (nm (run e (only (OnePort port_proto) z enabled) d n).2)).2 = d.
Proof.
  intros Hr Habs.
  assert (∃ pp, parse_port port_proto = Ret pp ∧ port = [pp]) as (pp & Hpp & ->).
  { pose proof (r_port _ _ _ _ _ _ _ Hr) as H. simpl in H.
    destruct (parse_port port_proto) as [pp| | |]; simpl in H; try done.
    exists pp. split; [done|]. by injection H as <-. }
  destruct (Habs pp Hpp) as [(x & Hx & Hxh) (y & Hy & Hyh)].
  destruct pp as [_port _protocol]. cbn [fst snd] in *.
  assert (y = x0) as ->
    by (pose proof (r_permanent _ _ _ _ _ _ _ Hr); congruence).
  assert (fwd = []) as ->.
  { pose proof (r_forward_port _ _ _ _ _ _ _ Hr) as H. simpl in H.
    congruence. }
  apply (round_trip_runs (OnePort port_proto) (Port _port _protocol) zone
           zone x x0 x0 [(_port, _protocol)] [] Hr Hx Hxh Hy Hyh).
  - intros s Hfw Hnm Hh Hch Hcz. cbn [only param_service param_trust
      param_masq]. rewrite reconcile_port.
    destruct (enable_rule _ d zone zone 0 (Port _port _protocol) x x0
                (set_changed_zones [] (set_changed false s))
                (adds_add zone _ d x Hx Hxh) Hy Hyh)
      as (s' & Hrun & Hfw' & Hnm'); [done|by simpl; rewrite Hh|done|].
    exists s'. split; [exact Hrun|]. split; [done|]. by rewrite Hnm'.
  - intros s x1 Hfw Hnm Hh Hx1 Hch Hcz. cbn [only param_service param_trust
      param_masq]. rewrite reconcile_port.
    assert (x1 = with_rule x0 (Port _port _protocol)) as ->.
    { cbn [permanent] in Hx1. rewrite lookup_insert_eq in Hx1. congruence. }
    destruct (disable_rule _ d zone zone 0 (Port _port _protocol) x x0
                (set_changed_zones [] (set_changed false s))
                (removes_marked zone _) Hx Hxh Hy Hyh)
      as (s' & Hrun & Hfw' & Hnm'); [done|by simpl; rewrite Hh|done|].
    exists s'. split; [exact Hrun|done].
Qed.

Lemma forward_zone_run i s :
  (if decide (i ≠ "") then fw_getZoneOfInterface i else ret zone) s
  = (Ret (forward_zone (fw s) zone i),
     add_calls (if decide (i ≠ "") then [GetZoneOfInterface i] else []) s).
Proof.
  unfold forward_zone. case_decide.
  - by rewrite fw_getZoneOfInterface_run.
  - unfold ret, add_calls. rewrite app_nil_r. by destruct s.
Qed.

(** Fetching the settings of a zone in a pass that has found nothing to do
    so far. *)
Lemma fetch_step d0 x1 k y s :
  idle d0 n x1 s → permanent d0 !! k = Some y →
  ∃ s2 o, settings_of_zone k s = (Ret o, s2)
    ∧ idle d0 n x1 s2 ∧ heap s2 !! o = Some y.
Proof.
  intros Hidle Hy. rewrite (settings_of_zone_fresh d0 n x1 k y s Hidle Hy).
  destruct (idle_fetched d0 n x1 k y s Hidle) as [Hidle' Ho].
  by eexists _, _.
Qed.

(** A forward rule does not change which zone holds which interface. *)
Lemma forward_zone_added zrt k x y i _port _protocol _to_port _to_addr :
  runtime d !! rt_zone d zrt = Some x →
  forward_zone
    (Daemon (connected d) (default_zone d)
       (<[rt_zone d zrt :=
            with_rule x (ForwardPort _port _protocol _to_port _to_addr)]>
          (runtime d))
       (<[k := y]> (permanent d))) zone i
  = forward_zone d zone i.
Proof.
  intros Hx. unfold forward_zone, zone_of_interface, bindings. simpl.
  rewrite fmap_insert. simpl.
  rewrite insert_id; [done|]. by rewrite lookup_fmap, Hx.
Qed.

Lemma round_trip_forward_port item x0 port fwd :
  reaches e (only (OneForwardPort item) z enabled) d zone x0 port fwd →
  absent e n d zone (OneForwardPort item) →
  fw (run e (only (OneForwardPort item) z disabled)
        (fw (run e (only (OneForwardPort item) z enabled) d n).2)
        (nm (run e (only (OneForwardPort item) z enabled) d n).2)).2 = d.
Proof.
  intros Hr Habs.
  assert (∃ fr, parse_forward_port item None = Ret fr ∧ fwd = [fr])
    as (fr & Hfr & ->).
  { pose proof (r_forward_port _ _ _ _ _ _ _ Hr) as H. simpl in H.
    destruct (parse_forward_port item None) as [fr| | |]; simpl in H;
      try done.
    exists fr. split; [done|]. by injection H as <-. }
  assert (port = []) as ->
    by (pose proof (r_port _ _ _ _ _ _ _ Hr) as H; simpl in H; congruence).
  destruct (Habs fr Hfr) as (Hown & (x & Hx & Hxh) & (y & Hy & Hyh)).
  destruct fr as [[[[i _port] _protocol] _to_port] _to_addr].
  unfold forward_rule_of in *. cbn [fst snd] in *.
  set (r := ForwardPort _port _protocol _to_port _to_addr) in *.
  set (fz := forward_zone d zone i) in *.
  pose proof (r_permanent _ _ _ _ _ _ _ Hr) as Hx0.
  assert (Hsame : ¬ (fz ≠ "" ∧ fz ≠ zone) → fz = zone ∧ y = x0).
  { intros Hno. assert (fz = zone) as Hfz.
    { destruct (decide (fz = "")) as [H0|H0]; [by rewrite H0, (Hown H0)|].
      destruct (decide (fz = zone)); [done|tauto]. }
    split; [done|]. rewrite Hfz in Hy. congruence. }
  apply (round_trip_runs (OneForwardPort item) r fz fz x y x0 []
           [(i, _port, _protocol, _to_port, _to_addr)] Hr Hx Hxh Hy Hyh).
  - intros s Hfw Hnm Hh Hch Hcz. cbn [only param_service param_trust
      param_masq]. rewrite reconcile_forward_port.
    set (s0 := set_changed_zones [] (set_changed false s)).
    assert (Hidle0 : idle d n x0 s0) by (split; simpl; try done; by rewrite Hh).
    unfold forward_port_item. cbv beta iota zeta.
    set (s1 := add_calls (if decide (i ≠ "") then [GetZoneOfInterface i]
                          else []) s0).
    assert (Hidle1 : idle d n x0 s1) by by apply idle_add_calls.
    assert (Hstep : ∃ s2 o,
      (if decide (fz ≠ "" ∧ fz ≠ zone) then settings_of_zone fz
       else ret 0) s1 = (Ret o, s2)
      ∧ fw s2 = d ∧ nm s2 = n ∧ changed_zones s2 = []
      ∧ heap s2 !! o = Some y).
    { case_decide as Hcase.
      - destruct (fetch_step d x0 fz y s1 Hidle1 Hy)
          as (s2 & o & Hrun & [? ? ? ? ?] & Ho). by exists s2, o.
      - destruct (Hsame Hcase) as [_ ->]. exists s1, 0.
        by destruct Hidle1. }
    destruct Hstep as (s2 & o & Hstep & Hfw2 & Hnm2 & Hcz2 & Ho).
    destruct (enable_rule _ d fz fz o r x y s2 (adds_add fz r d x Hx Hxh)
                Hy Hyh Hfw2 Ho Hcz2) as (s' & Hrun & Hfw' & Hnm').
    exists s'. split; [|split; [done|congruence]].
    rewrite bind_assoc_run. unfold bind at 1.
    rewrite forward_zone_run. rewrite (idle_fw _ _ _ _ Hidle0). fold fz s1.
    rewrite bind_assoc_run. unfold bind at 1. rewrite Hstep. exact Hrun.
  - intros s x1 Hfw Hnm Hh Hx1 Hch Hcz. cbn [only param_service param_trust
      param_masq]. rewrite reconcile_forward_port.
    set (d1 := Daemon (connected d) (default_zone d)
                 (<[rt_zone d fz := with_rule x r]> (runtime d))
                 (<[fz := with_rule y r]> (permanent d))) in *.
    set (s0 := set_changed_zones [] (set_changed false s)).
    assert (Hidle0 : idle d1 n x1 s0) by (split; simpl; try done; by rewrite Hh).
    unfold forward_port_item. cbv beta iota zeta.
    set (s1 := add_calls (if decide (i ≠ "") then [GetZoneOfInterface i]
                          else []) s0).
    assert (Hidle1 : idle d1 n x1 s1) by by apply idle_add_calls.
    assert (Hfz1 : forward_zone d1 zone i = fz)
      by apply (forward_zone_added fz fz x _ i _ _ _ _ Hx).
    assert (Hy1 : permanent d1 !! fz = Some (with_rule y r))
      by apply lookup_insert_eq.
    assert (Hstep : ∃ s2 o,
      (if decide (fz ≠ "" ∧ fz ≠ zone) then settings_of_zone fz
       else ret 0) s1 = (Ret o, s2)
      ∧ fw s2 = d1 ∧ nm s2 = n ∧ changed_zones s2 = []
      ∧ heap s2 !! o = Some (with_rule y r)).
    { case_decide as Hcase.
      - destruct (fetch_step d1 x1 fz _ s1 Hidle1 Hy1)
          as (s2 & o & Hrun & [? ? ? ? ?] & Ho). by exists s2, o.
      - destruct (Hsame Hcase) as [Hfz ->]. exists s1, 0.
        destruct Hidle1 as [? ? ? ? H0]. split_and!; try done.
        rewrite H0. rewrite Hfz in Hy1. congruence. }
    destruct Hstep as (s2 & o & Hstep & Hfw2 & Hnm2 & Hcz2 & Ho).
    destruct (disable_rule _ d fz fz o r x y s2 (removes_marked fz r)
                Hx Hxh Hy Hyh Hfw2 Ho Hcz2) as (s' & Hrun & Hfw' & Hnm').
    exists s'. split; [|done].
    rewrite bind_assoc_run. unfold bind at 1.
    rewrite forward_zone_run. rewrite (idle_fw _ _ _ _ Hidle0), Hfz1.
    fold s1.
    rewrite bind_assoc_run. unfold bind at 1. rewrite Hstep. exact Hrun.
Qed.

(** A trust or masquerade rule that the fast path does not take over. *)
Lemma round_trip_interface (r : single_rule) (fixed i : string) x0 port fwd :
  (r = OneTrust i ∧ fixed = "trusted")
  ∨ (r = OneMasq i ∧ fixed = "external") →
  reaches e (only r z enabled) d zone x0 port fwd →
  fast_path e n i = false →
  unbound d i →
  settled_rt disabled d fixed (Interface i) →
  settled_pm disabled d fixed (Interface i) →
  fw (run e (only r z disabled)
        (fw (run e (only r z enabled) d n).2)
        (nm (run e (only r z enabled) d n).2)).2 = d.
Proof.
  intros Hcase Hr Hslow Hu (x & Hx & Hxh) (y & Hy & Hyh).
  assert (port = []) as ->.
  { pose proof (r_port _ _ _ _ _ _ _ Hr) as H.
    destruct Hcase as [[-> _]|[-> _]]; simpl in H; congruence. }
  assert (fwd = []) as ->.
  { pose proof (r_forward_port _ _ _ _ _ _ _ Hr) as H.
    destruct Hcase as [[-> _]|[-> _]]; simpl in H; congruence. }
  assert (Hfixed : fixed ≠ "") by (by destruct Hcase as [[_ ->]|[_ ->]]).
  assert (Hrec : ∀ ds s,
    reconcile e ds zone 0 (param_service (only r z ds)) []
      (param_trust (only r z ds)) (param_masq (only r z ds)) [] s
    = ((let* zs := fixed_zone zone 0 fixed in
        interface_item e ds zs.1 zs.2 i) ;;
       apply_changes ;; @exit_json Empty_set false)
        (set_changed_zones [] (set_changed false s))).
  { intros ds s. destruct Hcase as [[-> ->]|[-> ->]];
      [apply reconcile_trust|apply reconcile_masq]. }
  pose proof (r_permanent _ _ _ _ _ _ _ Hr) as Hx0.
  apply (round_trip_runs r (Interface i) fixed fixed x y x0 [] [] Hr
           Hx Hxh Hy Hyh).
  - intros s Hfw Hnm Hh Hch Hcz. rewrite Hrec.
    set (s0 := set_changed_zones [] (set_changed false s)).
    assert (Hidle0 : idle d n x0 s0) by (split; simpl; try done; by rewrite Hh).
    assert (Hstep : ∃ s2 o, fixed_zone zone 0 fixed s0 = (Ret (fixed, o), s2)
      ∧ fw s2 = d ∧ nm s2 = n ∧ changed_zones s2 = []
      ∧ heap s2 !! o = Some y).
    { unfold fixed_zone. case_decide as Hz.
      - destruct (fetch_step d x0 fixed y s0 Hidle0 Hy)
          as (s2 & o & Hrun & [? ? ? ? ?] & Ho).
        exists s2, o. unfold bind. rewrite Hrun. done.
      - assert (zone = fixed) as Hzf
          by (destruct (decide (zone = fixed)); [done|contradiction]).
        exists s0, 0. rewrite Hzf in *.
        destruct Hidle0 as [? ? ? ? H0]. split_and!; try done. congruence. }
    destruct Hstep as (s2 & o & Hstep & Hfw2 & Hnm2 & Hcz2 & Ho).
    assert (Hslow2 : fast_path e (nm s2) i = false) by by rewrite Hnm2.
    destruct (try_set_zone_of_interface_skipped e fixed i s2 Hslow2)
      as (cs & Hcs).
    destruct (enable_rule _ d fixed fixed o (Interface i) x y
                (add_calls cs s2) (adds_change fixed i d x Hu Hx) Hy Hyh)
      as (s' & Hrun & Hfw' & Hnm'); [done..|].
    exists s'. split; [|split; [done|by rewrite Hnm']].
    rewrite bind_assoc_run. unfold bind at 1. rewrite Hstep. cbn [fst snd].
    unfold interface_item. rewrite bind_assoc_run. unfold bind at 1.
    rewrite Hcs. exact Hrun.
  - intros s x1 Hfw Hnm Hh Hx1 Hch Hcz. rewrite Hrec.
    set (d1 := Daemon (connected d) (default_zone d)
                 (<[rt_zone d fixed := with_rule x (Interface i)]> (runtime d))
                 (<[fixed := with_rule y (Interface i)]> (permanent d))) in *.
    set (s0 := set_changed_zones [] (set_changed false s)).
    assert (Hidle0 : idle d1 n x1 s0) by (split; simpl; try done; by rewrite Hh).
    assert (Hy1 : permanent d1 !! fixed = Some (with_rule y (Interface i)))
      by apply lookup_insert_eq.
    assert (Hstep : ∃ s2 o, fixed_zone zone 0 fixed s0 = (Ret (fixed, o), s2)
      ∧ fw s2 = d1 ∧ nm s2 = n ∧ changed_zones s2 = []
      ∧ heap s2 !! o = Some (with_rule y (Interface i))).
    { unfold fixed_zone. case_decide as Hz.
      - destruct (fetch_step d1 x1 fixed _ s0 Hidle0 Hy1)
          as (s2 & o & Hrun & [? ? ? ? ?] & Ho).
        exists s2, o. unfold bind. rewrite Hrun. done.
      - assert (zone = fixed) as Hzf
          by (destruct (decide (zone = fixed)); [done|contradiction]).
        exists s0, 0. rewrite Hzf in *.
        destruct Hidle0 as [? ? ? ? H0]. split_and!; try done. congruence. }
    destruct Hstep as (s2 & o & Hstep & Hfw2 & Hnm2 & Hcz2 & Ho).
    assert (Hslow2 : fast_path e (nm s2) i = false) by by rewrite Hnm2.
    destruct (try_set_zone_of_interface_skipped e "" i s2 Hslow2)
      as (cs & Hcs).
    destruct (disable_rule _ d fixed fixed o (Interface i) x y
                (add_calls cs s2) (removes_marked fixed _) Hx Hxh Hy Hyh)
      as (s' & Hrun & Hfw' & Hnm'); [done..|].
    exists s'. split; [|done].
    rewrite bind_assoc_run. unfold bind at 1. rewrite Hstep. cbn [fst snd].
    unfold interface_item. rewrite bind_assoc_run. unfold bind at 1.
    rewrite Hcs. exact Hrun.
Qed.
End round_trip.

(** *** A trust or masquerade rule that the fast path takes over *)

(** The daemon is not asked to change anything, with either intent and
    however the pass ends, and the connection still owns the interface. *)
Lemma fast_section_run e ds zone fixed i s :
  fast_path e (nm s) i = true → changed s = false → changed_zones s = [] →
  let r := ((let* zs := fixed_zone zone 0 fixed in
             interface_item e ds zs.1 zs.2 i) ;;
            apply_changes ;; @exit_json Empty_set false) s in
  fw r.2 = fw s ∧ fast_path e (nm r.2) i = true.
Proof.
  unfold fast_path. intros [[Hnm Himp]%andb_prop Hc]%andb_prop Hch Hcz.
  destruct (nm_connection_of (nm s) i) as [| |conn] eqn:Hconn; try done.
  unfold fixed_zone, settings_of_zone, config_getZoneByName,
    zone_getSettings, invalid_zone, interface_item,
    try_set_zone_of_interface, try_except_else, nm_is_imported,
    nm_get_connection_of_interface, nm_set_zone_of_connection,
    apply_changes, mark_changed, bind, when, called, modify, gets, ret,
    raise, fail_json, exit_json.
  rewrite Hnm. cbn [negb]. destruct ds, (check_mode e);
    repeat first
      [ progress cbn [fst snd fw nm add_call heap changed changed_zones
                      set_heap set_nm set_changed nm_imported
                      nm_connection_of nm_set_fails dict_get for_each andb]
      | progress unfold ret
      | progress rewrite ?Hch, ?Hcz, ?Himp, ?Hconn
      | done
      | match goal with
        | |- context [decide (zone ≠ fixed)] => destruct (decide (zone ≠ fixed))
        | |- context [permanent (fw s) !! fixed] =>
            destruct (permanent (fw s) !! fixed)
        | |- context [nm_set_fails (nm s) ?a ?b] =>
            destruct (nm_set_fails (nm s) a b)
        end ].
Qed.

Lemma fast_pass_keeps_daemon e r i z ds d n :
  r = OneTrust i ∨ r = OneMasq i →
  fast_path e n i = true →
  fw (run e (only r z ds) d n).2 = d
  ∧ fast_path e (nm (run e (only r z ds) d n).2) i = true.
Proof.
  intros Hcase Hfast.
  destruct (main_stops_or_reaches e (only r z ds) d n)
    as [(zone & x0 & port & fwd & Hr)|(_ & -> & -> & _)]; [|done].
  assert (port = []) as ->.
  { pose proof (r_port _ _ _ _ _ _ _ Hr) as H.
    destruct Hcase as [->| ->]; simpl in H; congruence. }
  assert (fwd = []) as ->.
  { pose proof (r_forward_port _ _ _ _ _ _ _ Hr) as H.
    destruct Hcase as [->| ->]; simpl in H; congruence. }
  unfold run. rewrite (main_reconcile _ _ _ n _ _ _ _ Hr).
  set (s0 := State d n [x0] false [] (opening_calls (only r z ds) zone)).
  destruct Hcase as [->| ->]; cbn [only param_state param_service
    param_trust param_masq].
  - rewrite reconcile_trust.
    by apply (fast_section_run e ds zone "trusted" i
                (set_changed_zones [] (set_changed false s0))).
  - rewrite reconcile_masq.
    by apply (fast_section_run e ds zone "external" i
                (set_changed_zones [] (set_changed false s0))).
Qed.



